(** * Halloween AR experience: a shallow embedding of the session, error,
      camera, QR and AR-phase code, with the properties checked on it.

    A module below embeds one source file and a definition one
    JavaScript function, whose name it keeps.  Clock readings
    ([Date.now()]), random identifiers and the answers of the browser or
    of third-party libraries are inputs of the functions that use them.
    The entity class of lib/models/QRCode.js, which is not among the
    sources, is a parameter of the service that uses it and is modelled
    from the specification where its own behaviour is at stake. *)

From Stdlib Require Import ZArith Lia Bool Ascii String.
From stdpp Require Import gmap strings list pretty.

Local Open Scope string_scope.
Local Open Scope list_scope.
Local Open Scope Z_scope.

(* ===================================================================== *)
(** ** JavaScript values and string primitives                            *)
(* ===================================================================== *)

Module JS.

(** [String.prototype.toLowerCase], on the ASCII letters. *)
Definition lower_ascii (c : ascii) : ascii :=
  let n := nat_of_ascii c in
  if (65 <=? n)%nat && (n <=? 90)%nat then ascii_of_nat (n + 32) else c.

Fixpoint toLowerCase (s : string) : string :=
  match s with
  | EmptyString => EmptyString
  | String c s' => String (lower_ascii c) (toLowerCase s')
  end.

(** [String.prototype.toUpperCase], on the ASCII letters. *)
Definition upper_ascii (c : ascii) : ascii :=
  let n := nat_of_ascii c in
  if (97 <=? n)%nat && (n <=? 122)%nat then ascii_of_nat (n - 32) else c.

Fixpoint toUpperCase (s : string) : string :=
  match s with
  | EmptyString => EmptyString
  | String c s' => String (upper_ascii c) (toUpperCase s')
  end.

(** [s.startsWith(k)]. *)
Definition startsWith (s k : string) : bool := String.prefix k s.

(** [s.includes(k)]: [k] occurs at some position of [s]. *)
Fixpoint includes (s k : string) : bool :=
  startsWith s k ||
  match s with
  | EmptyString => false
  | String _ s' => includes s' k
  end.

(** A JavaScript number as the handlers meet it: an integer or [NaN]. *)
Inductive num :=
| Int (z : Z)
| NaN.

(** Truthiness of a number: [0] and [NaN] are falsy. *)
Definition truthy (n : num) : bool :=
  match n with
  | Int z => negb (z =? 0)
  | NaN => false
  end.

(** [a < b] and [a > b]: every comparison with [NaN] is false. *)
Definition lt (a b : num) : bool :=
  match a, b with
  | Int x, Int y => x <? y
  | _, _ => false
  end.

Definition gt (a b : num) : bool :=
  match a, b with
  | Int x, Int y => y <? x
  | _, _ => false
  end.

(** White space skipped by [parseInt] (the ASCII part of it). *)
Definition is_space (c : ascii) : bool :=
  let n := nat_of_ascii c in
  (n =? 32)%nat || ((9 <=? n)%nat && (n <=? 13)%nat).

Definition digit_of (c : ascii) : option Z :=
  let n := nat_of_ascii c in
  if (48 <=? n)%nat && (n <=? 57)%nat then Some (Z.of_nat (n - 48)) else None.

Fixpoint skip_spaces (s : string) : string :=
  match s with
  | String c s' => if is_space c then skip_spaces s' else s
  | EmptyString => EmptyString
  end.

(** The longest prefix of decimal digits, read with accumulator [acc];
    [seen] tells whether a digit was read. *)
Fixpoint digits (s : string) (acc : Z) (seen : bool) : option Z :=
  match s with
  | String c s' =>
      match digit_of c with
      | Some d => digits s' (10 * acc + d) true
      | None => if seen then Some acc else None
      end
  | EmptyString => if seen then Some acc else None
  end.

(** [parseInt(s, 10)]: leading white space, an optional sign, then the
    longest run of digits; [NaN] when there is no digit. *)
Definition parseInt (s : string) : num :=
  match skip_spaces s with
  | String "-" r =>
      match digits r 0 false with Some v => Int (- v) | None => NaN end
  | String "+" r =>
      match digits r 0 false with Some v => Int v | None => NaN end
  | r =>
      match digits r 0 false with Some v => Int v | None => NaN end
  end.

(** An optional field that is truthy: a string that is not empty, a
    number that is not zero. *)
Definition given_str (o : option string) : option string :=
  match o with
  | Some s => if String.eqb s "" then None else Some s
  | None => None
  end.

Definition given_num (o : option Z) : option Z :=
  match o with
  | Some z => if z =? 0 then None else Some z
  | None => None
  end.

(** [s] between double quotes. *)
Definition quoted (s : string) : string :=
  String (ascii_of_nat 34) (String.append s (String (ascii_of_nat 34) "")).

(** [arr.slice(-n)] for [n > 0]: the last [n] elements (all of them when
    the array is shorter). *)
Definition slice_last {A} (n : nat) (l : list A) : list A :=
  drop (length l - n)%nat l.

End JS.

(* ===================================================================== *)
(** ** lib/errorHandler.js                                                *)
(* ===================================================================== *)

Module ErrorHandler.
Import JS.

Inductive ErrorTypes :=
| CAMERA_ERROR | AR_ERROR | QR_ERROR | NETWORK_ERROR
| PERMISSION_ERROR | BROWSER_ERROR | VALIDATION_ERROR.

Inductive ErrorSeverity := LOW | MEDIUM | HIGH | CRITICAL.

(** The value of an object field: a string, or a value of another kind
    that no function here inspects. *)
Inductive value :=
| Str (s : string)
| Opaque.

(** A plain object, as the list of its fields; [spread a b] is
    [{...a, ...b}], in which a field of [b] comes after, and so replaces,
    the field of [a] of the same name. *)
Definition obj := list (string * value).

Definition spread (a b : obj) : obj := a ++ b.

(** An [Error] as thrown by the browser or by the code, or an instance
    of the class [ARError], which carries its own type and severity. *)
Inductive error :=
| PlainError (name message : string)
| ARError (message : string) (type : ErrorTypes)
          (severity : ErrorSeverity) (details : obj).

Definition message (e : error) : string :=
  match e with
  | PlainError _ m => m
  | ARError m _ _ _ => m
  end.

Definition name (e : error) : string :=
  match e with
  | PlainError n _ => n
  | ARError _ _ _ _ => "ARError"
  end.

Record processedError := {
  pe_id : string;
  pe_message : string;
  pe_type : ErrorTypes;
  pe_severity : ErrorSeverity;
  pe_timestamp : Z;
  pe_context : obj
}.

(** [ErrorHandler.categorizeError]. *)
Definition categorizeError (e : error) : ErrorTypes :=
  let message := toLowerCase (message e) in
  if includes message "camera" || includes message "media"
     || includes message "video" then CAMERA_ERROR
  else if includes message "ar" || includes message "marker"
     || includes message "tracking" then AR_ERROR
  else if includes message "qr" || includes message "code" then QR_ERROR
  else if includes message "permission" || includes message "denied"
    then PERMISSION_ERROR
  else if includes message "network" || includes message "fetch"
     || includes message "connection" then NETWORK_ERROR
  else if includes message "browser" || includes message "unsupported"
    then BROWSER_ERROR
  else VALIDATION_ERROR.

(** [ErrorHandler.determineSeverity]. *)
Definition determineSeverity (e : error) : ErrorSeverity :=
  let message := toLowerCase (message e) in
  if includes message "critical" || includes message "fatal" then CRITICAL
  else if includes message "permission" || includes message "camera"
     || includes message "ar" then HIGH
  else if includes message "network" || includes message "connection"
    then MEDIUM
  else LOW.

(** What [processError] reads from the browser, and the identifier and
    clock reading it draws. *)
Record env := {
  userAgent : string;
  url : string;
  errorId : string;
  now : Z
}.

(** [ErrorHandler.processError]. *)
Definition processError (v : env) (e : error) (context : obj)
  : processedError :=
  match e with
  | ARError m ty sev details =>
      {| pe_id := errorId v; pe_message := m;
         pe_type := ty; pe_severity := sev; pe_timestamp := now v;
         pe_context :=
           spread (spread [("userAgent", Str (userAgent v));
                           ("url", Str (url v))] context) details |}
  | PlainError _ m =>
      {| pe_id := errorId v; pe_message := m;
         pe_type := categorizeError e;
         pe_severity := determineSeverity e; pe_timestamp := now v;
         pe_context :=
           spread [("userAgent", Str (userAgent v));
                   ("url", Str (url v))] context |}
  end.

(** The handler object: its log, bounded by [maxLogSize]. *)
Record t := { errorLog : list processedError }.

Definition maxLogSize : nat := 100.

Definition empty : t := {| errorLog := [] |}.

(** [ErrorHandler.logError]: push, then shift when over the limit. *)
Definition logError (p : processedError) (h : t) : t :=
  let log := errorLog h ++ [p] in
  {| errorLog := if (maxLogSize <? length log)%nat then drop 1 log
                 else log |}.

(** [ErrorHandler.handleError]; listeners only observe the processed
    error and their exceptions are caught. *)
Definition handleError (v : env) (e : error) (context : obj) (h : t)
  : processedError * t :=
  let p := processError v e context in
  (p, logError p h).

(** The convenience wrappers: each rebuilds the error as an [ARError]
    of a fixed type and severity. *)
Definition wrap (ty : ErrorTypes) (sev : ErrorSeverity)
    (e : error) (context : obj) : error :=
  ARError (message e) ty sev
          (spread [("originalError", Str (name e))] context).

Definition handleCameraError v e context h :=
  handleError v (wrap CAMERA_ERROR HIGH e context) context h.

Definition handleARError v e context h :=
  handleError v (wrap AR_ERROR HIGH e context) context h.

Definition handleQRError v e context h :=
  handleError v (wrap QR_ERROR MEDIUM e context) context h.

Definition handlePermissionError v e context h :=
  handleError v (wrap PERMISSION_ERROR CRITICAL e context) context h.

Definition handleBrowserError v e context h :=
  handleError v (wrap BROWSER_ERROR HIGH e context) context h.

(** The keywords as the specification lists them. *)
Definition categoryKeywords : list string :=
  ["camera"; "media"; "video"; "ar"; "marker"; "tracking"; "qr"; "code";
   "permission"; "denied"; "network"; "fetch"; "connection"; "browser";
   "unsupported"].

Definition severityKeywords : list string :=
  ["critical"; "fatal"; "permission"; "camera"; "ar"; "network";
   "connection"].

Definition mentionsNone (keywords : list string) (e : error) : Prop :=
  forall k, In k keywords -> includes (toLowerCase (message e)) k = false.

End ErrorHandler.

(* ===================================================================== *)
(** ** lib/cameraUtils.js                                                 *)
(* ===================================================================== *)

Module CameraUtils.
Import JS.

Inductive PermissionStates := GRANTED | DENIED | PROMPT | UNKNOWN.

Inductive StreamStates := INACTIVE | REQUESTING | ACTIVE | ERROR.

(** A [MediaStream], named by the number the browser gave it. *)
Definition stream := nat.

(** [{ ideal, max }] of a constraint. *)
Record range := { ideal : option Z; max : option Z }.

Record video := {
  width : range;
  height : range;
  frameRate : range;
  facingMode : option string;
  focusMode : option string;
  exposureMode : option string
}.

Record constraints := { c_video : video; c_audio : bool }.

(** The [options] argument; an absent field is [None]. *)
Record options := {
  o_facingMode : option string;
  o_width : option Z;
  o_height : option Z;
  o_frameRate : option Z;
  o_arOptimized : bool
}.

Definition noOptions : options :=
  {| o_facingMode := None; o_width := None; o_height := None;
     o_frameRate := None; o_arOptimized := false |}.

(** [navigator.mediaDevices.getSupportedConstraints()], the fields read. *)
Record supported := {
  s_facingMode : bool;
  s_focusMode : bool;
  s_exposureMode : bool
}.

(** What listeners are told, in the order of the calls of
    [notifyListeners]; a listener's exception is caught. *)
Inductive event :=
| stateChange (st : StreamStates)
| streamStart (s : stream)
| streamStop (s : stream)
| permissionChange (p : PermissionStates).

(** The [CameraUtils] object, with the streams whose tracks it stopped. *)
Record t := {
  currentStream : option stream;
  streamState : StreamStates;
  permissionState : PermissionStates;
  currentConstraints : option constraints;
  supportedConstraints : supported;
  stopped : list stream;
  notified : list event
}.

(** The answer of [navigator.mediaDevices.getUserMedia]. *)
Inductive userMedia :=
| Resolves (s : stream)
| Rejects (e : ErrorHandler.error).

(** The answer of [navigator.permissions.query]. *)
Inductive permissionQuery :=
| NoPermissionsAPI
| QueryResolves (p : PermissionStates)
| QueryRejects.

(** The browser as one call meets it. *)
Record browser := {
  hasGetUserMedia : bool;
  getUserMedia : userMedia;
  query : permissionQuery
}.

Inductive result (A : Type) :=
| Returns (a : A)
| Throws (e : ErrorHandler.error).
Arguments Returns {A} a.
Arguments Throws {A} e.

Definition notifyListeners (ev : event) (c : t) : t :=
  {| currentStream := currentStream c; streamState := streamState c;
     permissionState := permissionState c;
     currentConstraints := currentConstraints c;
     supportedConstraints := supportedConstraints c;
     stopped := stopped c; notified := notified c ++ [ev] |}.

Definition set_streamState (st : StreamStates) (c : t) : t :=
  {| currentStream := currentStream c; streamState := st;
     permissionState := permissionState c;
     currentConstraints := currentConstraints c;
     supportedConstraints := supportedConstraints c;
     stopped := stopped c; notified := notified c |}.

Definition set_permissionState (p : PermissionStates) (c : t) : t :=
  {| currentStream := currentStream c; streamState := streamState c;
     permissionState := p;
     currentConstraints := currentConstraints c;
     supportedConstraints := supportedConstraints c;
     stopped := stopped c; notified := notified c |}.

Definition set_currentConstraints (k : constraints) (c : t) : t :=
  {| currentStream := currentStream c; streamState := streamState c;
     permissionState := permissionState c;
     currentConstraints := Some k;
     supportedConstraints := supportedConstraints c;
     stopped := stopped c; notified := notified c |}.

Definition set_currentStream (s : option stream) (c : t) : t :=
  {| currentStream := s; streamState := streamState c;
     permissionState := permissionState c;
     currentConstraints := currentConstraints c;
     supportedConstraints := supportedConstraints c;
     stopped := stopped c; notified := notified c |}.

Definition stop_tracks (s : stream) (c : t) : t :=
  {| currentStream := currentStream c; streamState := streamState c;
     permissionState := permissionState c;
     currentConstraints := currentConstraints c;
     supportedConstraints := supportedConstraints c;
     stopped := stopped c ++ [s]; notified := notified c |}.

(** [CameraUtils.checkPermissionState]. *)
Definition checkPermissionState (b : browser) (c : t)
  : PermissionStates * t :=
  match query b with
  | NoPermissionsAPI => (UNKNOWN, set_permissionState UNKNOWN c)
  | QueryResolves p => (p, set_permissionState p c)
  | QueryRejects => (UNKNOWN, set_permissionState UNKNOWN c)
  end.

(** [CameraUtils.buildConstraints]. *)
Definition buildConstraints (o : options) (c : t) : constraints :=
  let sup := supportedConstraints c in
  let facing :=
    match given_str (o_facingMode o) with
    | Some f => if s_facingMode sup then Some f else None
    | None => if s_facingMode sup then Some "environment" else None
    end in
  let w := match given_num (o_width o) with
           | Some z => {| ideal := Some z; max := None |}
           | None => {| ideal := Some 1280; max := Some 1920 |}
           end in
  let h := match given_num (o_height o) with
           | Some z => {| ideal := Some z; max := None |}
           | None => {| ideal := Some 720; max := Some 1080 |}
           end in
  let fr := match given_num (o_frameRate o) with
            | Some z => {| ideal := Some z; max := None |}
            | None => {| ideal := Some 30; max := Some 60 |}
            end in
  if o_arOptimized o then
    {| c_video :=
         {| width := {| ideal := Some 640; max := Some 1280 |};
            height := {| ideal := Some 480; max := Some 720 |};
            frameRate := {| ideal := Some 30; max := None |};
            facingMode := facing;
            focusMode :=
              if s_focusMode sup then Some "continuous" else None;
            exposureMode :=
              if s_exposureMode sup then Some "continuous" else None |};
       c_audio := false |}
  else
    {| c_video :=
         {| width := w; height := h; frameRate := fr;
            facingMode := facing; focusMode := None;
            exposureMode := None |};
       c_audio := false |}.

(** [CameraUtils.stopCamera]. *)
Definition stopCamera (c : t) : t :=
  let c1 :=
    match currentStream c with
    | Some s =>
        set_currentStream None (notifyListeners (streamStop s)
                                  (stop_tracks s c))
    | None => c
    end in
  notifyListeners (stateChange INACTIVE) (set_streamState INACTIVE c1).

Definition named (e : ErrorHandler.error) (a b : string) : bool :=
  String.eqb (ErrorHandler.name e) a || String.eqb (ErrorHandler.name e) b.

(** The [catch] block of [requestCameraAccess]: log the error under its
    taxonomy and throw a fresh [Error] with a readable message. *)
Definition requestCameraAccess_catch (v : ErrorHandler.env)
    (e : ErrorHandler.error) (c : t) (h : ErrorHandler.t)
  : result stream * t * ErrorHandler.t :=
  let c1 := notifyListeners (stateChange ERROR) (set_streamState ERROR c) in
  let ctx (s : string) := [("context", ErrorHandler.Str s)] in
  if named e "NotAllowedError" "PermissionDeniedError" then
    let '(_, h1) := ErrorHandler.handlePermissionError v e
                      (ctx "camera_access_request") h in
    (Throws (ErrorHandler.PlainError "Error"
       "Camera permission denied. Please allow camera access to use AR features."),
     c1, h1)
  else if named e "NotFoundError" "DevicesNotFoundError" then
    let '(_, h1) := ErrorHandler.handleCameraError v e
                      (ctx "no_camera_found") h in
    (Throws (ErrorHandler.PlainError "Error"
       "No camera found on this device."), c1, h1)
  else if named e "NotReadableError" "TrackStartError" then
    let '(_, h1) := ErrorHandler.handleCameraError v e
                      (ctx "camera_in_use") h in
    (Throws (ErrorHandler.PlainError "Error"
       "Camera is already in use by another application."), c1, h1)
  else if named e "OverconstrainedError" "ConstraintNotSatisfiedError" then
    let '(_, h1) := ErrorHandler.handleCameraError v e
                      (ctx "unsupported_constraints"
                         ++ [("constraints", ErrorHandler.Opaque)]) h in
    (Throws (ErrorHandler.PlainError "Error"
       "Camera does not support the requested configuration."), c1, h1)
  else
    let '(_, h1) := ErrorHandler.handleCameraError v e
                      (ctx "general_camera_error") h in
    (Throws (ErrorHandler.PlainError "Error"
       (String.append "Camera access failed: " (ErrorHandler.message e))),
     c1, h1).

(** [CameraUtils.requestCameraAccess]. *)
Definition requestCameraAccess (b : browser) (v : ErrorHandler.env)
    (o : options) (c : t) (h : ErrorHandler.t)
  : result stream * t * ErrorHandler.t :=
  let c1 := notifyListeners (stateChange REQUESTING)
              (set_streamState REQUESTING c) in
  if negb (hasGetUserMedia b) then
    requestCameraAccess_catch v
      (ErrorHandler.PlainError "Error"
         "Camera API not supported in this browser") c1 h
  else
    let c2 := set_currentConstraints (buildConstraints o c1) c1 in
    match getUserMedia b with
    | Rejects e => requestCameraAccess_catch v e c2 h
    | Resolves s =>
        let c3 := stopCamera c2 in
        let c4 := set_streamState ACTIVE (set_currentStream (Some s) c3) in
        let '(_, c5) := checkPermissionState b c4 in
        let c6 := notifyListeners (stateChange ACTIVE)
                    (notifyListeners (streamStart s) c5) in
        (Returns s, c6, h)
    end.

End CameraUtils.

(* ===================================================================== *)
(** ** lib/sessionManager.js                                              *)
(* ===================================================================== *)

Module SessionManager.
Import JS.

Definition obj := ErrorHandler.obj.

Inductive SessionStates := INACTIVE | ACTIVE | AR_ACTIVE | COMPLETED | ERROR.

(** [InteractionTypes]; a type is a string, and the visibility handler
    tracks two more that are not in the table. *)
Definition PAGE_VISIT := "page_visit".
Definition QR_SCAN := "qr_scan".
Definition AR_START := "ar_start".
Definition AR_MESSAGE_VIEW := "ar_message_view".
Definition AR_END := "ar_end".
Definition CAMERA_PERMISSION := "camera_permission".
Definition ERROR_OCCURRED := "error_occurred".

Definition InteractionTypes : list string :=
  [PAGE_VISIT; QR_SCAN; AR_START; AR_MESSAGE_VIEW; AR_END;
   CAMERA_PERMISSION; ERROR_OCCURRED].

Record interaction := {
  i_id : string;
  i_sessionId : string;
  i_type : string;
  i_timestamp : Z;
  i_data : obj
}.

(** [this.sessionData]; a field that has not been assigned is [None]. *)
Record sessionData := {
  sd_sessionId : option string;
  sd_startTime : option Z;
  sd_userAgent : string;
  sd_url : string;
  sd_endTime : option Z;
  sd_duration : option Z;
  sd_interactionCount : option nat;
  sd_arStartTime : option Z;
  sd_arEndTime : option Z;
  sd_arDuration : option Z;
  sd_hasErrors : bool;
  sd_errors : option (list obj)
}.

(** [{}]. *)
Definition noData : sessionData :=
  {| sd_sessionId := None; sd_startTime := None; sd_userAgent := "";
     sd_url := ""; sd_endTime := None; sd_duration := None;
     sd_interactionCount := None; sd_arStartTime := None;
     sd_arEndTime := None; sd_arDuration := None; sd_hasErrors := false;
     sd_errors := None |}.

(** The value stored under the key [halloween_ar_session]. *)
Record sessionInfo := {
  si_sessionData : sessionData;
  si_interactions : list interaction;
  si_sessionState : SessionStates;
  si_lastSaved : Z
}.

(** [localStorage]: present or not, accepting writes or throwing on
    [setItem], and the item under the session key. *)
Record storage := {
  present : bool;
  writable : bool;
  item : option sessionInfo
}.

Inductive event :=
| sessionStart
| sessionEnd
| interactionEvent (i : interaction).

(** The manager.  [timeoutId] is the time at which the pending timer
    set by [setTimeout] is due. *)
Record t := {
  sessionId : option string;
  sessionState : SessionStates;
  data : sessionData;
  interactions : list interaction;
  startTime : option Z;
  lastActivityTime : option Z;
  timeoutId : option Z;
  localStorage : storage;
  notified : list event
}.

(** 30 minutes of inactivity. *)
Definition sessionTimeout : Z := 30 * 60 * 1000.

Definition with_state (st : SessionStates) (s : t) : t :=
  {| sessionId := sessionId s; sessionState := st; data := data s;
     interactions := interactions s; startTime := startTime s;
     lastActivityTime := lastActivityTime s; timeoutId := timeoutId s;
     localStorage := localStorage s; notified := notified s |}.

Definition with_data (d : sessionData) (s : t) : t :=
  {| sessionId := sessionId s; sessionState := sessionState s; data := d;
     interactions := interactions s; startTime := startTime s;
     lastActivityTime := lastActivityTime s; timeoutId := timeoutId s;
     localStorage := localStorage s; notified := notified s |}.

Definition with_interactions (l : list interaction) (s : t) : t :=
  {| sessionId := sessionId s; sessionState := sessionState s;
     data := data s; interactions := l; startTime := startTime s;
     lastActivityTime := lastActivityTime s; timeoutId := timeoutId s;
     localStorage := localStorage s; notified := notified s |}.

Definition with_lastActivityTime (n : Z) (s : t) : t :=
  {| sessionId := sessionId s; sessionState := sessionState s;
     data := data s; interactions := interactions s;
     startTime := startTime s; lastActivityTime := Some n;
     timeoutId := timeoutId s; localStorage := localStorage s;
     notified := notified s |}.

Definition with_timeoutId (d : option Z) (s : t) : t :=
  {| sessionId := sessionId s; sessionState := sessionState s;
     data := data s; interactions := interactions s;
     startTime := startTime s; lastActivityTime := lastActivityTime s;
     timeoutId := d; localStorage := localStorage s;
     notified := notified s |}.

Definition with_item (i : option sessionInfo) (s : t) : t :=
  {| sessionId := sessionId s; sessionState := sessionState s;
     data := data s; interactions := interactions s;
     startTime := startTime s; lastActivityTime := lastActivityTime s;
     timeoutId := timeoutId s;
     localStorage := {| present := present (localStorage s);
                        writable := writable (localStorage s);
                        item := i |};
     notified := notified s |}.

Definition notifyListeners (e : event) (s : t) : t :=
  {| sessionId := sessionId s; sessionState := sessionState s;
     data := data s; interactions := interactions s;
     startTime := startTime s; lastActivityTime := lastActivityTime s;
     timeoutId := timeoutId s; localStorage := localStorage s;
     notified := notified s ++ [e] |}.

(** [SessionManager.resetSessionTimeout]: the pending timer, if any, is
    cleared and a new one is due [sessionTimeout] from now. *)
Definition resetSessionTimeout (now : Z) (s : t) : t :=
  with_timeoutId (Some (now + sessionTimeout)) s.

(** [SessionManager.saveSessionData]: nothing without [localStorage];
    an exception of [setItem] is caught. *)
Definition saveSessionData (now : Z) (s : t) : t :=
  if negb (present (localStorage s)) then s
  else if writable (localStorage s) then
    with_item (Some {| si_sessionData := data s;
                       si_interactions := slice_last 50 (interactions s);
                       si_sessionState := sessionState s;
                       si_lastSaved := now |}) s
  else s.

(** [SessionManager.loadSessionData]: the interactions of a snapshot
    saved less than 24 hours ago are restored. *)
Definition loadSessionData (now : Z) (s : t) : t :=
  if negb (present (localStorage s)) then s
  else match item (localStorage s) with
       | Some info =>
           if now - si_lastSaved info <? 24 * (1000 * 60 * 60)
           then with_interactions (si_interactions info) s
           else s
       | None => s
       end.

(** [SessionManager.handleSpecialInteractions]. *)
Definition handleSpecialInteractions (type : string) (d : obj) (now : Z)
    (s : t) : t :=
  let sd := data s in
  if String.eqb type AR_START then
    with_data
      {| sd_sessionId := sd_sessionId sd; sd_startTime := sd_startTime sd;
         sd_userAgent := sd_userAgent sd; sd_url := sd_url sd;
         sd_endTime := sd_endTime sd; sd_duration := sd_duration sd;
         sd_interactionCount := sd_interactionCount sd;
         sd_arStartTime := Some now; sd_arEndTime := sd_arEndTime sd;
         sd_arDuration := sd_arDuration sd;
         sd_hasErrors := sd_hasErrors sd; sd_errors := sd_errors sd |}
      (with_state AR_ACTIVE s)
  else if String.eqb type AR_END then
    match sessionState s with
    | AR_ACTIVE =>
        with_data
          {| sd_sessionId := sd_sessionId sd;
             sd_startTime := sd_startTime sd;
             sd_userAgent := sd_userAgent sd; sd_url := sd_url sd;
             sd_endTime := sd_endTime sd; sd_duration := sd_duration sd;
             sd_interactionCount := sd_interactionCount sd;
             sd_arStartTime := sd_arStartTime sd;
             sd_arEndTime := Some now;
             sd_arDuration :=
               match sd_arStartTime sd with
               | Some a => Some (now - a)
               | None => sd_arDuration sd
               end;
             sd_hasErrors := sd_hasErrors sd; sd_errors := sd_errors sd |}
          (with_state ACTIVE s)
    | _ => s
    end
  else if String.eqb type ERROR_OCCURRED then
    with_data
      {| sd_sessionId := sd_sessionId sd; sd_startTime := sd_startTime sd;
         sd_userAgent := sd_userAgent sd; sd_url := sd_url sd;
         sd_endTime := sd_endTime sd; sd_duration := sd_duration sd;
         sd_interactionCount := sd_interactionCount sd;
         sd_arStartTime := sd_arStartTime sd;
         sd_arEndTime := sd_arEndTime sd;
         sd_arDuration := sd_arDuration sd;
         sd_hasErrors := true;
         sd_errors := Some (default [] (sd_errors sd) ++ [d]) |} s
  else s.

(** The record built by [trackInteraction]. *)
Definition newInteraction (s : t) (id : string) (type : string) (d : obj)
    (now : Z) : interaction :=
  {| i_id := id; i_sessionId := default "" (sessionId s);
     i_type := type; i_timestamp := now; i_data := d |}.

(** [SessionManager.trackInteraction]; [id] is the identifier drawn by
    [generateInteractionId]. *)
Definition trackInteraction (id : string) (type : string) (d : obj)
    (now : Z) (s : t) : t :=
  match sessionState s with
  | INACTIVE => s
  | _ =>
      let i := newInteraction s id type d now in
      let s1 := with_interactions (interactions s ++ [i]) s in
      let s2 := with_lastActivityTime now s1 in
      let s3 := resetSessionTimeout now s2 in
      let s4 := saveSessionData now s3 in
      let s5 := notifyListeners (interactionEvent i) s4 in
      handleSpecialInteractions type d now s5
  end.

(** [SessionManager.endSession]. *)
Definition endSession (now : Z) (s : t) : t :=
  match sessionState s with
  | INACTIVE => s
  | _ =>
      let sd := data s in
      let s1 :=
        with_data
          {| sd_sessionId := sd_sessionId sd;
             sd_startTime := sd_startTime sd;
             sd_userAgent := sd_userAgent sd; sd_url := sd_url sd;
             sd_endTime := Some now;
             sd_duration := Some (now - default 0 (startTime s));
             sd_interactionCount := Some (length (interactions s));
             sd_arStartTime := sd_arStartTime sd;
             sd_arEndTime := sd_arEndTime sd;
             sd_arDuration := sd_arDuration sd;
             sd_hasErrors := sd_hasErrors sd;
             sd_errors := sd_errors sd |} s in
      let s2 := with_state COMPLETED s1 in
      let s3 := with_timeoutId None s2 in
      let s4 := saveSessionData now s3 in
      notifyListeners sessionEnd s4
  end.

(** What [startSession] reads from the browser. *)
Record page := { p_userAgent : string; p_url : string }.

(** [SessionManager.startSession]; [id] names the page-visit record. *)
Definition startSession (pg : page) (id : string) (now : Z) (s : t) : t :=
  let s1 :=
    {| sessionId := sessionId s; sessionState := ACTIVE;
       data := {| sd_sessionId := sessionId s; sd_startTime := Some now;
                  sd_userAgent := p_userAgent pg; sd_url := p_url pg;
                  sd_endTime := None; sd_duration := None;
                  sd_interactionCount := None; sd_arStartTime := None;
                  sd_arEndTime := None; sd_arDuration := None;
                  sd_hasErrors := false; sd_errors := None |};
       interactions := interactions s; startTime := Some now;
       lastActivityTime := Some now; timeoutId := timeoutId s;
       localStorage := localStorage s; notified := notified s |} in
  let s2 := trackInteraction id PAGE_VISIT
              [("sessionStart", ErrorHandler.Opaque);
               ("url", ErrorHandler.Str (p_url pg))] now s1 in
  let s3 := resetSessionTimeout now s2 in
  let s4 := saveSessionData now s3 in
  notifyListeners sessionStart s4.

(** The constructor followed by [initialize], on the storage found. *)
Definition create (st : storage) (pg : page) (sid id : string) (now : Z)
  : t :=
  let s0 :=
    {| sessionId := Some sid; sessionState := INACTIVE; data := noData;
       interactions := []; startTime := None; lastActivityTime := None;
       timeoutId := None; localStorage := st; notified := [] |} in
  startSession pg id now (loadSessionData now s0).

(** [updateActivity], the handler of the user-activity events installed
    by [setupActivityTracking]. *)
Definition updateActivity (now : Z) (s : t) : t :=
  resetSessionTimeout now (with_lastActivityTime now s).

(** The event loop reaching time [now]: a pending timer that is due
    runs its callback, [endSession], at the time it was due. *)
Definition elapse (now : Z) (s : t) : t :=
  match timeoutId s with
  | Some due => if due <=? now then endSession due s else s
  | None => s
  end.

(** [SessionManager.clearSessionData]. *)
Definition clearSessionData (s : t) : t :=
  let s1 := with_interactions [] (with_data noData s) in
  if present (localStorage s1) then with_item None s1 else s1.

(** The names that a plain object inherits from [Object.prototype]:
    read from [{}], each of them gives a function (or, for [__proto__],
    the prototype itself) and not [undefined]. *)
Definition inheritedNames : list string :=
  ["constructor"; "__defineGetter__"; "__defineSetter__"; "hasOwnProperty";
   "__lookupGetter__"; "__lookupSetter__"; "isPrototypeOf";
   "propertyIsEnumerable"; "toString"; "valueOf"; "__proto__";
   "toLocaleString"].

(** The value of a counter in the plain object [interactionTypes]: a
    number, or the string that [+ 1] makes of a value that is not a
    number, which is the text of the value inherited under [name]
    followed by [ones] digits 1. *)
Inductive counter :=
| Count (n : nat)
| Text (name : string) (ones : nat).

(** The own properties of the object, in the order of their creation
    (the order in which JavaScript lists keys that are array indices is
    not modelled). *)
Fixpoint ownProperty (k : string) (tally : list (string * counter))
  : option counter :=
  match tally with
  | [] => None
  | (k', v) :: r => if String.eqb k' k then Some v else ownProperty k r
  end.

Fixpoint assign (k : string) (v : counter) (tally : list (string * counter))
  : list (string * counter) :=
  match tally with
  | [] => [(k, v)]
  | (k', v') :: r =>
      if String.eqb k' k then (k', v) :: r else (k', v') :: assign k v r
  end.

(** [tally[type] = (tally[type] || 0) + 1] on a plain object.  An own
    property is read first: a number is incremented, a string (always
    truthy here) gets the digit 1 appended.  Else an inherited name
    gives a function or object, which [+ 1] turns into a string; the
    assignment creates the own property, except under [__proto__],
    whose setter ignores a string.  Any other name is [undefined] and
    starts at 1. *)
Definition count (type : string) (tally : list (string * counter))
  : list (string * counter) :=
  match ownProperty type tally with
  | Some (Count n) => assign type (Count (S n)) tally
  | Some (Text name ones) => assign type (Text name (S ones)) tally
  | None =>
      if existsb (String.eqb type) inheritedNames then
        if String.eqb type "__proto__" then tally
        else assign type (Text type 1) tally
      else assign type (Count 1) tally
  end.

(** [SessionManager.getSessionStats], the counters. *)
Record stats := {
  st_state : SessionStates;
  st_duration : Z;
  st_interactionCount : nat;
  st_interactionTypes : list (string * counter)
}.

Definition getSessionStats (now : Z) (s : t) : stats :=
  {| st_state := sessionState s;
     st_duration := match startTime s with
                    | Some b => now - b
                    | None => 0
                    end;
     st_interactionCount := length (interactions s);
     st_interactionTypes :=
       fold_left (fun tally i => count (i_type i) tally)
                 (interactions s) [] |}.

(** [SessionManager.exportSessionData]. *)
Definition exportSessionData (now : Z) (s : t)
  : sessionData * list interaction * stats :=
  (data s, interactions s, getSessionStats now s).

(** Tracking a list of interactions, one call of [trackInteraction] for
    each, at the given times. *)
Fixpoint trackAll (calls : list (string * string * obj * Z)) (s : t) : t :=
  match calls with
  | [] => s
  | (id, type, d, now) :: r => trackAll r (trackInteraction id type d now s)
  end.

(** The record each call appends, for a manager whose session
    identifier is that of [s]. *)
Definition recorded (s : t) (c : string * string * obj * Z) : interaction :=
  let '(id, type, d, now) := c in newInteraction s id type d now.

End SessionManager.

(* ===================================================================== *)
(** ** A JavaScript [Map] with string keys                                *)
(* ===================================================================== *)

Module JSMap.

(** The entries in insertion order; [set] on a key already there keeps
    its place. *)
Definition t (V : Type) := list (string * V).

Fixpoint get {V} (k : string) (m : t V) : option V :=
  match m with
  | [] => None
  | (k', v) :: r => if String.eqb k k' then Some v else get k r
  end.

Fixpoint set {V} (k : string) (v : V) (m : t V) : t V :=
  match m with
  | [] => [(k, v)]
  | (k', v') :: r =>
      if String.eqb k k' then (k', v) :: r else (k', v') :: set k v r
  end.

Fixpoint delete {V} (k : string) (m : t V) : t V :=
  match m with
  | [] => []
  | (k', v') :: r =>
      if String.eqb k k' then delete k r else (k', v') :: delete k r
  end.

Definition size {V} (m : t V) : nat := length m.

(** Stable insertion of [x] into a list sorted by [key], after the
    elements that are not greater. *)
Fixpoint insert_by {A} (key : A -> Z) (x : A) (l : list A) : list A :=
  match l with
  | [] => [x]
  | y :: r => if key x <? key y then x :: y :: r
              else y :: insert_by key x r
  end.

(** [Array.prototype.sort((a, b) => key(a) - key(b))], which is stable. *)
Definition sort_by {A} (key : A -> Z) (l : list A) : list A :=
  fold_left (fun acc x => insert_by key x acc) l [].

End JSMap.

(* ===================================================================== *)
(** ** pages/api/session.js                                               *)
(* ===================================================================== *)

Module SessionApi.
Import JS.

Definition obj := ErrorHandler.obj.

Definition maxSessions : nat := 1000.
Definition sessionTimeout : Z := 30 * 60 * 1000.
Definition maxInteractionsPerSession : nat := 100.

Definition VALID_INTERACTION_TYPES : list string :=
  SessionManager.InteractionTypes.

(** A session record; the fields of the request's [sessionData] are
    kept in [s_extra]. *)
Record session := {
  s_sessionId : string;
  s_state : string;
  s_startTime : Z;
  s_lastActivity : Z;
  s_userAgent : string;
  s_extra : obj
}.

(** The [data] of an interaction: the two fields that are read, and
    the rest. *)
Record interactionData := {
  d_userAgent : option string;
  d_url : option string;
  d_rest : obj
}.

Record interaction := {
  i_id : string;
  i_sessionId : string;
  i_type : string;
  i_timestamp : Z;
  i_data : interactionData;
  i_userAgent : string;
  i_url : string
}.

(** The two module-level maps. *)
Record store := {
  sessions : JSMap.t session;
  interactions : JSMap.t (list interaction)
}.

Definition empty : store := {| sessions := []; interactions := [] |}.

Definition or_unknown (o : option string) : string :=
  default "Unknown" (JS.given_str o).

Definition touch (now : Z) (s : session) : session :=
  {| s_sessionId := s_sessionId s; s_state := s_state s;
     s_startTime := s_startTime s; s_lastActivity := now;
     s_userAgent := s_userAgent s; s_extra := s_extra s |}.

(** The record built by [addInteractionToSession]. *)
Definition newInteraction (sessionId : string) (type : string)
    (d : interactionData) (id : string) (now : Z) : interaction :=
  {| i_id := id; i_sessionId := sessionId; i_type := type;
     i_timestamp := now; i_data := d;
     i_userAgent := or_unknown (d_userAgent d);
     i_url := or_unknown (d_url d) |}.

(** [addInteractionToSession]; [id] is drawn by [generateInteractionId]
    and [now] read from the clock. *)
Definition addInteractionToSession (sessionId : string) (type : string)
    (d : interactionData) (id : string) (now : Z) (st : store)
  : interaction * store :=
  let i := newInteraction sessionId type d id now in
  let pushed := default [] (JSMap.get sessionId (interactions st)) ++ [i] in
  let kept :=
    if (maxInteractionsPerSession <? length pushed)%nat
    then slice_last maxInteractionsPerSession pushed
    else pushed in
  let ss :=
    match JSMap.get sessionId (sessions st) with
    | Some s => JSMap.set sessionId (touch now s) (sessions st)
    | None => sessions st
    end in
  (i, {| sessions := ss;
         interactions := JSMap.set sessionId kept (interactions st) |}).

Definition delete_session (st : store) (sid : string) : store :=
  {| sessions := JSMap.delete sid (sessions st);
     interactions := JSMap.delete sid (interactions st) |}.

(** [cleanupOldSessions]. *)
Definition cleanupOldSessions (now : Z) (st : store) : store :=
  let cutoff := now - sessionTimeout in
  let expired :=
    map fst (filter (fun e => s_lastActivity (snd e) <? cutoff)
                    (sessions st)) in
  let st1 := fold_left delete_session expired st in
  if (maxSessions <? JSMap.size (sessions st1))%nat then
    let sorted := JSMap.sort_by (fun e => s_lastActivity (snd e))
                                (sessions st1) in
    let toDelete :=
      take (JSMap.size (sessions st1) - maxSessions)%nat sorted in
    fold_left delete_session (map fst toDelete) st1
  else st1.

(** The body of a response, as far as the properties read it. *)
Inductive body :=
| Created (sessionId : string)
| Recorded (i : interaction)
| SessionView (interactions : option (list interaction))
              (interactionCount : option nat) (statsCount : nat)
| Deleted
| Updated (s : session)
| Heartbeat (lastActivity : Z)
| Ended
| Error (message : string).

Record response := { status : nat; content : body }.

(** [handleCreateSession] on a request whose [sessionData] names none
    of the fields of the record (it is kept in [s_extra]) and whose
    [initialInteraction], when there is one, has an object as [data];
    [initial] is that interaction, whose own [type] replaces
    [page_visit].  The request in general, with the fields that
    [sessionData] overwrites and the [data] that is [null], is
    [SessionEndpoint.handleCreateSession]. *)
Definition handleCreateSession (userAgent : option string) (extra : obj)
    (initial : option (option string * interactionData))
    (sid id : string) (now : Z) (st : store) : response * store :=
  let s := {| s_sessionId := sid; s_state := "active";
              s_startTime := now; s_lastActivity := now;
              s_userAgent := or_unknown userAgent; s_extra := extra |} in
  let st1 := {| sessions := JSMap.set sid s (sessions st);
                interactions := JSMap.set sid [] (interactions st) |} in
  let st2 :=
    match initial with
    | Some (ty, d) =>
        snd (addInteractionToSession sid
               (default SessionManager.PAGE_VISIT ty) d id now st1)
    | None => st1
    end in
  ({| status := 201; content := Created sid |},
   cleanupOldSessions now st2).

(** [handleUpdateSession] with the action [add_interaction], through
    [handleAddInteraction], on a body whose [data] carries a type and an
    object as its own [data]; the body in general, with the paths that
    throw, is [SessionEndpoint.handleUpdateSession]. *)
Definition handleAddInteraction (sessionId : option string)
    (type : string) (d : interactionData) (id : string) (now : Z)
    (st : store) : response * store :=
  match JS.given_str sessionId with
  | None => ({| status := 400; content := Error "Session ID required" |}, st)
  | Some sid =>
      match JSMap.get sid (sessions st) with
      | None =>
          ({| status := 404; content := Error "Session not found" |}, st)
      | Some _ =>
          if existsb (String.eqb type) VALID_INTERACTION_TYPES then
            let '(i, st1) := addInteractionToSession sid type d id now st in
            ({| status := 200; content := Recorded i |}, st1)
          else
            ({| status := 400; content := Error "Invalid interaction type" |},
             st)
      end
  end.

(** [arr.slice(-k)] for any number [k]: a [NaN] or zero start is the
    whole array, a positive start drops that many elements. *)
Definition slice_neg {A} (k : num) (l : list A) : list A :=
  match k with
  | NaN => l
  | Int z => if 0 <? z then drop (length l - Z.to_nat z)%nat l
             else drop (Z.to_nat (- z)) l
  end.

(** [calculateSessionStats], the interaction count. *)
Definition calculateSessionStats (sid : string) (st : store) : nat :=
  length (default [] (JSMap.get sid (interactions st))).

(** [handleGetSession]. *)
Definition handleGetSession (sessionId : option string)
    (includeInteractions : option string) (limit : option string)
    (st : store) : response :=
  match JS.given_str sessionId with
  | None => {| status := 400; content := Error "Session ID required" |}
  | Some sid =>
      match JSMap.get sid (sessions st) with
      | None => {| status := 404; content := Error "Session not found" |}
      | Some _ =>
          let all := default [] (JSMap.get sid (interactions st)) in
          if String.eqb (default "true" includeInteractions) "true" then
            {| status := 200;
               content :=
                 SessionView
                   (Some (slice_neg (parseInt (default "50" limit)) all))
                   (Some (length all)) (calculateSessionStats sid st) |}
          else
            {| status := 200;
               content := SessionView None None
                            (calculateSessionStats sid st) |}
      end
  end.

(** [handleDeleteSession]. *)
Definition handleDeleteSession (sessionId : option string) (st : store)
  : response * store :=
  match JS.given_str sessionId with
  | None => ({| status := 400; content := Error "Session ID required" |}, st)
  | Some sid =>
      match JSMap.get sid (sessions st) with
      | Some _ => ({| status := 200; content := Deleted |},
                   delete_session st sid)
      | None => ({| status := 404; content := Error "Session not found" |},
                 delete_session st sid)
      end
  end.

(** The requests that write the interaction store. *)
Inductive request :=
| Create (userAgent : option string) (extra : obj)
         (initial : option (option string * interactionData))
         (sid id : string) (now : Z)
| AddInteraction (sessionId : option string) (type : string)
         (d : interactionData) (id : string) (now : Z)
| Delete (sessionId : option string)
| Cleanup (now : Z).

Definition serve (r : request) (st : store) : store :=
  match r with
  | Create ua extra initial sid id now =>
      snd (handleCreateSession ua extra initial sid id now st)
  | AddInteraction sid type d id now =>
      snd (handleAddInteraction sid type d id now st)
  | Delete sid => snd (handleDeleteSession sid st)
  | Cleanup now => cleanupOldSessions now st
  end.

(** Recording a list of interactions of one session, one call of
    [addInteractionToSession] for each. *)
Fixpoint addAll (sid : string)
    (calls : list (string * interactionData * string * Z)) (st : store)
  : store :=
  match calls with
  | [] => st
  | (type, d, id, now) :: r =>
      addAll sid r (snd (addInteractionToSession sid type d id now st))
  end.

(** Every stored list of interactions has at most
    [maxInteractionsPerSession] elements. *)
Definition bounded (st : store) : Prop :=
  forall sid l, JSMap.get sid (interactions st) = Some l ->
                (length l <= maxInteractionsPerSession)%nat.

Definition recorded (sid : string) (c : string * interactionData * string * Z)
  : interaction :=
  let '(type, d, id, now) := c in newInteraction sid type d id now.

End SessionApi.

(* ===================================================================== *)
(** ** pages/api/qr-code.js                                               *)
(* ===================================================================== *)

Module QrCodeApi.
Import JS.

(** The merged configuration handed to the encoder. *)
Record config := {
  errorCorrectionLevel : string;
  type : string;
  margin : Z;
  dark : string;
  light : string;
  width : num;
  scale : Z
}.

(** [QR_CONFIG]. *)
Definition QR_CONFIG : config :=
  {| errorCorrectionLevel := "H"; type := "image/png"; margin := 2;
     dark := "#000000"; light := "#FFFFFF"; width := Int 512;
     scale := 8 |}.

(** [customConfig]: the fields a request sets. *)
Record custom := {
  c_errorCorrectionLevel : option string;
  c_type : option string;
  c_margin : option Z;
  c_width : option num;
  c_scale : option Z
}.

Definition noCustom : custom :=
  {| c_errorCorrectionLevel := None; c_type := None; c_margin := None;
     c_width := None; c_scale := None |}.

(** [{ ...QR_CONFIG, ...customConfig }]. *)
Definition merge (c : custom) : config :=
  {| errorCorrectionLevel :=
       default (errorCorrectionLevel QR_CONFIG) (c_errorCorrectionLevel c);
     type := default (type QR_CONFIG) (c_type c);
     margin := default (margin QR_CONFIG) (c_margin c);
     dark := dark QR_CONFIG; light := light QR_CONFIG;
     width := default (width QR_CONFIG) (c_width c);
     scale := default (scale QR_CONFIG) (c_scale c) |}.

Definition MAX_URL_LENGTH : nat := 2048.

Definition line_terminator (c : ascii) : bool :=
  (nat_of_ascii c =? 10)%nat || (nat_of_ascii c =? 13)%nat.

Definition some_char (s : string) : bool :=
  match s with
  | String c _ => negb (line_terminator c)
  | EmptyString => false
  end.

(** [URL_PATTERN.test(s)] for [/^https?:\/\/.+/i]. *)
Definition URL_PATTERN_test (s : string) : bool :=
  let l := toLowerCase s in
  (startsWith l "https://" && some_char (String.substring 8 (String.length l - 8) l))
  || (startsWith l "http://" && some_char (String.substring 7 (String.length l - 7) l)).

Record query := {
  q_data : option string;
  q_url : option string;
  q_size : option string;
  q_format : option string;
  q_errorLevel : option string
}.

Record reqBody := {
  b_data : option string;
  b_url : option string;
  b_config : option custom
}.

Record request := {
  method : string;
  rq_query : query;
  rq_body : reqBody
}.

Definition noQuery : query :=
  {| q_data := None; q_url := None; q_size := None; q_format := None;
     q_errorLevel := None |}.

Definition noBody : reqBody :=
  {| b_data := None; b_url := None; b_config := None |}.

(** A field of a JSON body. *)
Inductive json :=
| JStr (s : string)
| JNum (n : num)
| JList (l : list string).

Inductive payload :=
| Json (fields : list (string * json))
| Image (bytes : string)
| NoBody.

(** A call of the encoder. *)
Inductive call :=
| toString (data : string) (c : config)
| toBuffer (data : string) (c : config).

(** What the encoder answers: the image or a thrown error. *)
Inductive encoded :=
| Encoded (bytes : string)
| Failed (message : string).

Record response := {
  status : nat;
  sent : payload;
  headers : list (string * string);
  encoderCalls : list call
}.

Definition cors : list (string * string) :=
  [("Access-Control-Allow-Origin", "*");
   ("Access-Control-Allow-Methods", "GET, POST, OPTIONS");
   ("Access-Control-Allow-Headers", "Content-Type")].

Definition reply (st : nat) (fields : list (string * json)) : response :=
  {| status := st; sent := Json fields; headers := cors;
     encoderCalls := [] |}.

Definition or_str (a b : option string) : string :=
  match JS.given_str a with
  | Some s => s
  | None => default "" (JS.given_str b)
  end.

(** [qrData] and [customConfig] of a GET request. *)
Definition get_input (q : query) : string * custom :=
  (or_str (q_data q) (q_url q),
   {| c_errorCorrectionLevel :=
        option_map toUpperCase (JS.given_str (q_errorLevel q));
      c_type :=
        option_map (fun f => if String.eqb f "svg" then "svg"
                             else "image/png")
                   (JS.given_str (q_format q));
      c_margin := None;
      c_width := option_map parseInt (JS.given_str (q_size q));
      c_scale := None |}).

(** [qrData] and [customConfig] of a POST request. *)
Definition post_input (b : reqBody) : string * custom :=
  (or_str (b_data b) (b_url b), default noCustom (b_config b)).

Section Handler.

(** The library [qrcode] and the digest behind [generateETag]. *)
Variable QRCode_toString : string -> config -> encoded.
Variable QRCode_toBuffer : string -> config -> encoded.
Variable generateETag : string -> config -> string.

(** [process.env.NODE_ENV === 'development'], and the milliseconds
    the encoder took. *)
Variable development : bool.
Variable generationTime : Z.

(** The [catch] block of [handler]. *)
Definition handler_catch (message : string) (calls : list call)
  : response :=
  if includes message "Input too long" then
    {| status := 400;
       sent := Json [("error", JStr "Data too long for QR code");
                     ("message", JStr
                        "Reduce the amount of data or use a lower error correction level")];
       headers := cors; encoderCalls := calls |}
  else if includes message "Invalid" then
    {| status := 400;
       sent := Json [("error", JStr "Invalid QR code data");
                     ("message", JStr message)];
       headers := cors; encoderCalls := calls |}
  else
    {| status := 500;
       sent := Json [("error", JStr "QR code generation failed");
                     ("message", JStr (if development then message
                                       else "Internal server error"))];
       headers := cors; encoderCalls := calls |}.

(** The part of [handler] after the method dispatch. *)
Definition generate (qrData : string) (customConfig : custom)
  : response :=
  if String.eqb qrData "" then
    reply 400 [("error", JStr "Missing required parameter: data or url");
               ("example", JStr "/api/qr-code?data=https://yoursite.com")]
  else if startsWith qrData "http" && negb (URL_PATTERN_test qrData) then
    reply 400 [("error", JStr "Invalid URL format");
               ("provided", JStr qrData)]
  else if (MAX_URL_LENGTH <? String.length qrData)%nat then
    reply 400 [("error", JStr "Data too long");
               ("maxLength", JNum (Int (Z.of_nat MAX_URL_LENGTH)));
               ("provided", JNum (Int (Z.of_nat (String.length qrData))))]
  else
    let config := merge customConfig in
    if truthy (width config)
       && (lt (width config) (Int 64) || gt (width config) (Int 2048))
    then
      reply 400 [("error", JStr "Invalid size");
                 ("range", JStr "64-2048 pixels");
                 ("provided", JNum (width config))]
    else if negb (String.eqb (errorCorrectionLevel config) "")
            && negb (existsb (String.eqb (errorCorrectionLevel config))
                             ["L"; "M"; "Q"; "H"])
    then
      reply 400 [("error", JStr "Invalid error correction level");
                 ("allowed", JList ["L"; "M"; "Q"; "H"]);
                 ("provided", JStr (errorCorrectionLevel config))]
    else
      let svg := String.eqb (type config) "svg" in
      let c := if svg then toString qrData config
               else toBuffer qrData config in
      let answer := if svg then QRCode_toString qrData config
                    else QRCode_toBuffer qrData config in
      match answer with
      | Failed message => handler_catch message [c]
      | Encoded bytes =>
          {| status := 200; sent := Image bytes;
             headers :=
               cors ++
               [("Content-Type",
                 if svg then "image/svg+xml" else "image/png");
                ("Content-Disposition",
                 String.append "inline; filename="
                   (quoted (if svg then "qr-code.svg"
                            else "qr-code.png")));
                ("Cache-Control", "public, max-age=3600");
                ("ETag", generateETag qrData config);
                ("X-QR-Data-Length",
                 pretty (String.length qrData));
                ("X-QR-Generation-Time", pretty generationTime);
                ("X-QR-Error-Level", errorCorrectionLevel config)];
             encoderCalls := [c] |}
      end.

(** [handler]. *)
Definition handler (r : request) : response :=
  if String.eqb (method r) "OPTIONS" then
    {| status := 200; sent := NoBody; headers := cors;
       encoderCalls := [] |}
  else if String.eqb (method r) "GET" then
    let '(qrData, customConfig) := get_input (rq_query r) in
    generate qrData customConfig
  else if String.eqb (method r) "POST" then
    let '(qrData, customConfig) := post_input (rq_body r) in
    generate qrData customConfig
  else
    reply 405 [("error", JStr "Method not allowed");
               ("allowed", JList ["GET"; "POST"; "OPTIONS"])].

(** The content string [qrData] that [handler] reads from a request
    (none for a method it does not serve) and the [width] of the merged
    configuration. *)
Definition content_of (r : request) : string :=
  if String.eqb (method r) "OPTIONS" then ""
  else if String.eqb (method r) "GET" then fst (get_input (rq_query r))
  else if String.eqb (method r) "POST" then fst (post_input (rq_body r))
  else "".

Definition size_of (r : request) : num :=
  width (merge (if String.eqb (method r) "GET"
                then snd (get_input (rq_query r))
                else snd (post_input (rq_body r)))).

(** The content passes the three checks made before the configuration
    is merged. *)
Definition content_ok (qrData : string) : bool :=
  negb (String.eqb qrData "")
  && negb (startsWith qrData "http" && negb (URL_PATTERN_test qrData))
  && negb (MAX_URL_LENGTH <? String.length qrData)%nat.

(** The error-correction level of the merged configuration passes its
    check. *)
Definition level_ok (c : config) : bool :=
  String.eqb (errorCorrectionLevel c) ""
  || existsb (String.eqb (errorCorrectionLevel c)) ["L"; "M"; "Q"; "H"].

Definition config_of (r : request) : config :=
  merge (if String.eqb (method r) "GET"
         then snd (get_input (rq_query r))
         else snd (post_input (rq_body r))).

Definition call_config (c : call) : config :=
  match c with
  | toString _ k => k
  | toBuffer _ k => k
  end.

(** The response is the invalid-size one: status 400 and a body that
    names the range. *)
Definition invalid_size (p : response) : Prop :=
  status p = 400%nat /\
  exists fields, sent p = Json fields /\
    In ("error", JStr "Invalid size") fields /\
    In ("range", JStr "64-2048 pixels") fields.

End Handler.

End QrCodeApi.

(* ===================================================================== *)
(** ** lib/services/qrService.js                                          *)
(* ===================================================================== *)

Module QRService.
Import JS.

(** [ToInt32], the result of a bitwise operator. *)
Definition toInt32 (z : Z) : Z := (z + 2 ^ 31) mod 2 ^ 32 - 2 ^ 31.

Definition digit36 (d : Z) : ascii :=
  if d <? 10 then ascii_of_nat (Z.to_nat (48 + d))
  else ascii_of_nat (Z.to_nat (97 + (d - 10))).

(** [n.toString(36)] for [0 <= n]; seven digits cover [2 ^ 31]. *)
Fixpoint base36 (fuel : nat) (n : Z) (acc : string) : string :=
  match fuel with
  | O => acc
  | S f =>
      let acc' := String (digit36 (n mod 36)) acc in
      if n / 36 =? 0 then acc' else base36 f (n / 36) acc'
  end.

Definition toString36 (n : Z) : string := base36 7 n "".

(** The loop of [simpleHash]: [hash = ((hash << 5) - hash) + char], then
    [hash & hash]. *)
Fixpoint hash_loop (s : string) (hash : Z) : Z :=
  match s with
  | EmptyString => hash
  | String c r =>
      let char := Z.of_nat (nat_of_ascii c) in
      hash_loop r (toInt32 (toInt32 (Z.shiftl hash 5) - hash + char))
  end.

(** [QRService.simpleHash]. *)
Definition simpleHash (str : string) : string :=
  toString36 (Z.abs (hash_loop str 0)).

Definition cacheMaxSize : nat := 100.
Definition cacheTimeout : Z := 60 * 60 * 1000.

(** [errors.join(', ')]. *)
Fixpoint join (l : list string) : string :=
  match l with
  | [] => ""
  | [x] => x
  | x :: r => String.append x (String.append ", " (join r))
  end.

(** What [fetch] answers: a response that is [ok], with the two
    headers read, one that is not, with the [error] of its body, or a
    rejection. *)
Inductive fetched :=
| Ok (generationTime dataLength : option string)
| NotOk (status : nat) (error : option string)
| Rejected (message : string).

Inductive outcome (A : Type) :=
| Returns (a : A)
| Throws (message : string).
Arguments Returns {A} a.
Arguments Throws {A} message.

Section Service.

(** The entity class [QRCode] of lib/models/QRCode.js, through the
    methods the service calls; [stringify] is
    [JSON.stringify({ content, config })] on the entity's content and
    generation configuration, [requestUrl] the address built from
    its parameters. *)
Variable QR : Type.
Variable options : Type.
Variable forUrl : string -> options -> QR.
Variable validate : QR -> bool * list string.
Variable getContent : QR -> string.
Variable stringify : QR -> string.
Variable requestUrl : QR -> string.

Record result := {
  r_qrCode : QR;
  r_url : string;
  r_content : string;
  r_generationTime : num;
  r_dataLength : num;
  r_createdAt : Z
}.

Record item := { data : result; timestamp : Z }.

(** The service, the shared error handler and the addresses fetched
    so far. *)
Record t := {
  cache : JSMap.t item;
  errors : ErrorHandler.t;
  requests : list string
}.

Definition fresh : t :=
  {| cache := []; errors := ErrorHandler.empty; requests := [] |}.

Definition with_cache (c : JSMap.t item) (s : t) : t :=
  {| cache := c; errors := errors s; requests := requests s |}.

(** [QRService.getCacheKey]. *)
Definition getCacheKey (q : QR) : string := simpleHash (stringify q).

(** [QRService.getFromCache]. *)
Definition getFromCache (key : string) (now : Z) (s : t)
  : option result * t :=
  match JSMap.get key (cache s) with
  | None => (None, s)
  | Some it =>
      if cacheTimeout <? now - timestamp it
      then (None, with_cache (JSMap.delete key (cache s)) s)
      else (Some (data it), s)
  end.

(** [QRService.cleanCache]. *)
Definition cleanCache (now : Z) (s : t) : t :=
  let expiredKeys :=
    map fst (filter (fun e => cacheTimeout <? now - timestamp (snd e))
                    (cache s)) in
  let c1 := fold_left (fun c k => JSMap.delete k c) expiredKeys (cache s) in
  if (cacheMaxSize <=? JSMap.size c1)%nat then
    let items := JSMap.sort_by (fun e => timestamp (snd e)) c1 in
    let toRemove := take (cacheMaxSize / 5)%nat items in
    with_cache
      (fold_left (fun c k => JSMap.delete k c) (map fst toRemove) c1) s
  else with_cache c1 s.

(** [QRService.addToCache]. *)
Definition addToCache (key : string) (d : result) (now : Z) (s : t) : t :=
  let s1 := if (cacheMaxSize <=? JSMap.size (cache s))%nat
            then cleanCache now s else s in
  with_cache (JSMap.set key {| data := d; timestamp := now |} (cache s1))
             s1.

Definition logQRError (v : ErrorHandler.env) (message : string)
    (context : ErrorHandler.obj) (s : t) : t :=
  {| cache := cache s;
     errors := snd (ErrorHandler.handleQRError v
                      (ErrorHandler.PlainError "Error" message)
                      context (errors s));
     requests := requests s |}.

Definition header (h : option string) : num :=
  parseInt (default "0" (JS.given_str h)).

(** [QRService.generateQRCode]: the request is sent at [now] and
    answered [latency] later. *)
Definition generateQRCode (q : QR) (answer : fetched) (latency : Z)
    (v : ErrorHandler.env) (now : Z) (s : t) : outcome result * t :=
  let s1 := {| cache := cache s; errors := errors s;
               requests := requests s ++ [requestUrl q] |} in
  let failed (message : string) :=
    (Throws message,
     logQRError v message
       [("qrCodeId", ErrorHandler.Opaque);
        ("content", ErrorHandler.Str (getContent q));
        ("generationTime", ErrorHandler.Opaque);
        ("context", ErrorHandler.Str "api_generation")] s1) in
  match answer with
  | Rejected message => failed message
  | NotOk status error =>
      failed (default
                (String.append "API request failed ("
                   (String.append (pretty status) ")"))
                (JS.given_str error))
  | Ok gt dl =>
      let generationTime := header gt in
      (Returns {| r_qrCode := q; r_url := requestUrl q;
                  r_content := getContent q;
                  r_generationTime :=
                    if truthy generationTime then generationTime
                    else Int latency;
                  r_dataLength := header dl;
                  r_createdAt := now + latency |}, s1)
  end.

(** [QRService.generateForUrl]. *)
Definition generateForUrl (url : string) (o : options)
    (answer : fetched) (latency : Z) (v1 v2 : ErrorHandler.env)
    (now : Z) (s : t) : outcome result * t :=
  let context := [("url", ErrorHandler.Str url);
                  ("options", ErrorHandler.Opaque)] in
  let qrCode := forUrl url o in
  let '(valid, errs) := validate qrCode in
  if negb valid then
    let message := String.append "Invalid QR code: " (join errs) in
    (Throws message, logQRError v2 message context s)
  else
    let cacheKey := getCacheKey qrCode in
    match getFromCache cacheKey now s with
    | (Some cached, s1) => (Returns cached, s1)
    | (None, s1) =>
        match generateQRCode qrCode answer latency v1 now s1 with
        | (Returns r, s2) =>
            (Returns r, addToCache cacheKey r (now + latency) s2)
        | (Throws message, s2) =>
            (Throws message, logQRError v2 message context s2)
        end
    end.

End Service.

End QRService.

(* ===================================================================== *)
(** ** lib/models/QRCode.js                                               *)
(* ===================================================================== *)

Module QRCode.

(** Modelled from the spec: the entity class [QRCode] of
    lib/models/QRCode.js is not among the sources.  The specification
    gives it a content ([data] or [url]), a rendering configuration
    (size, error-correction level, margin, format, colours), usage
    counters (scan count, AR activation count, the set of unique users)
    and timestamps; the service reads its [id] and [type]. *)
Record t := {
  id : string;
  type : string;
  data : option string;
  url : option string;
  size : Z;
  errorCorrectionLevel : string;
  margin : Z;
  format : string;
  colorDark : string;
  colorLight : string;
  scanCount : nat;
  arActivationCount : nat;
  uniqueUsers : gset string;
  createdAt : Z;
  updatedAt : Z
}.

(** Modelled from the spec: the JSON form of the entity, in which the
    unique-user collection is an array. *)
Record json := {
  j_id : string;
  j_type : string;
  j_data : option string;
  j_url : option string;
  j_size : Z;
  j_errorCorrectionLevel : string;
  j_margin : Z;
  j_format : string;
  j_colorDark : string;
  j_colorLight : string;
  j_scanCount : nat;
  j_arActivationCount : nat;
  j_uniqueUsers : list string;
  j_createdAt : Z;
  j_updatedAt : Z
}.

(** Modelled from the spec: [toJSON] copies the fields and turns the
    set of unique users into an array of its members. *)
Definition toJSON (q : t) : json :=
  {| j_id := id q; j_type := type q; j_data := data q; j_url := url q;
     j_size := size q;
     j_errorCorrectionLevel := errorCorrectionLevel q;
     j_margin := margin q; j_format := format q;
     j_colorDark := colorDark q; j_colorLight := colorLight q;
     j_scanCount := scanCount q;
     j_arActivationCount := arActivationCount q;
     j_uniqueUsers := elements (uniqueUsers q);
     j_createdAt := createdAt q; j_updatedAt := updatedAt q |}.

(** Modelled from the spec: [fromJSON] copies the fields and builds
    the set of unique users from the array. *)
Definition fromJSON (j : json) : t :=
  {| id := j_id j; type := j_type j; data := j_data j; url := j_url j;
     size := j_size j;
     errorCorrectionLevel := j_errorCorrectionLevel j;
     margin := j_margin j; format := j_format j;
     colorDark := j_colorDark j; colorLight := j_colorLight j;
     scanCount := j_scanCount j;
     arActivationCount := j_arActivationCount j;
     uniqueUsers := list_to_set (j_uniqueUsers j);
     createdAt := j_createdAt j; updatedAt := j_updatedAt j |}.

End QRCode.

(* ===================================================================== *)
(** ** src/components: ARSessionManager, CameraHandler, ARScene           *)
(* ===================================================================== *)

Module ARSession.

(** The state of [ARSessionManager] and of the two children it mounts,
    with the handlers as the state updates they queue and React's commit
    as a function: after an update the children are reconciled, the
    effects whose dependencies changed run, and what they queue is
    rendered in turn.  The metadata written through [updateSession], the
    performance monitor and the visibility handler change none of this
    state and are left out. *)

Definition stream := CameraUtils.stream.

Inductive phase :=
| idle | checking | requesting_camera | initializing | ready | active
| error.

#[global] Instance phase_eq_dec : EqDecision phase.
Proof. solve_decision. Defined.

Record statistics := {
  markerDetections : nat;
  totalSessionTime : Z;
  errorCount : nat
}.

(** [sessionState] of [ARSessionManager]; [statsRef] names the object
    held in [statistics], a new number for each object a handler builds. *)
Record sessionState := {
  ph : phase;
  err : option string;
  cameraReady : bool;
  arReady : bool;
  markerDetected : bool;
  startTime : option Z;
  stats : statistics;
  statsRef : nat
}.

(** [cameraState.status] and [streamRef] of a mounted [CameraHandler]. *)
Inductive cameraStatus :=
| cam_idle | cam_requesting | cam_active | cam_error | cam_denied.

Record cameraHandler := {
  status : cameraStatus;
  streamRef : option stream
}.

(** [arState] of a mounted [ARScene]. *)
Record arState := {
  initialized : bool;
  running : bool;
  markerVisible : bool;
  ar_error : option string
}.

Definition failed (a : arState) : bool :=
  match ar_error a with
  | Some _ => true
  | None => false
  end.

(** What the effects of the last committed render captured: the values
    their dependency arrays compare and their cleanups read. *)
Record closure := {
  k_ph : phase;
  k_startTime : option Z;
  k_statsRef : nat;
  k_cameraReady : bool;
  k_loading : bool;
  k_supported : bool
}.

(** The component tree: the manager's two state variables, the children
    that are mounted, the streams whose tracks were stopped, the errors
    handed to the page's [onError], the [autoStart] property, the two
    answers of [useDeviceCapabilities], and the closure of the last
    commit ([None] before the first).  The callbacks received from the
    page are taken to keep their identity from one render to the next. *)
Record t := {
  session : sessionState;
  cameraStream : option stream;
  camera : option cameraHandler;
  scene : option arState;
  stoppedTracks : list stream;
  reported : list string;
  autoStart : bool;
  capabilitiesLoading : bool;
  isSupported : bool;
  committed : option closure
}.

(** The tree before its first render. *)
Definition initial (auto : bool) : t :=
  {| session :=
       {| ph := idle; err := None; cameraReady := false; arReady := false;
          markerDetected := false; startTime := None;
          stats := {| markerDetections := 0; totalSessionTime := 0;
                      errorCount := 0 |};
          statsRef := 0 |};
     cameraStream := None; camera := None; scene := None;
     stoppedTracks := []; reported := []; autoStart := auto;
     capabilitiesLoading := true; isSupported := false;
     committed := None |}.

Definition setSessionState (f : sessionState -> sessionState) (s : t) : t :=
  {| session := f (session s); cameraStream := cameraStream s;
     camera := camera s; scene := scene s;
     stoppedTracks := stoppedTracks s; reported := reported s;
     autoStart := autoStart s;
     capabilitiesLoading := capabilitiesLoading s;
     isSupported := isSupported s; committed := committed s |}.

Definition setCameraStream (c : option stream) (s : t) : t :=
  {| session := session s; cameraStream := c; camera := camera s;
     scene := scene s; stoppedTracks := stoppedTracks s;
     reported := reported s; autoStart := autoStart s;
     capabilitiesLoading := capabilitiesLoading s;
     isSupported := isSupported s; committed := committed s |}.

Definition setCamera (c : option cameraHandler) (s : t) : t :=
  {| session := session s; cameraStream := cameraStream s; camera := c;
     scene := scene s; stoppedTracks := stoppedTracks s;
     reported := reported s; autoStart := autoStart s;
     capabilitiesLoading := capabilitiesLoading s;
     isSupported := isSupported s; committed := committed s |}.

Definition setScene (a : option arState) (s : t) : t :=
  {| session := session s; cameraStream := cameraStream s;
     camera := camera s; scene := a; stoppedTracks := stoppedTracks s;
     reported := reported s; autoStart := autoStart s;
     capabilitiesLoading := capabilitiesLoading s;
     isSupported := isSupported s; committed := committed s |}.

Definition stopTracks (c : stream) (s : t) : t :=
  {| session := session s; cameraStream := cameraStream s;
     camera := camera s; scene := scene s;
     stoppedTracks := stoppedTracks s ++ [c]; reported := reported s;
     autoStart := autoStart s;
     capabilitiesLoading := capabilitiesLoading s;
     isSupported := isSupported s; committed := committed s |}.

Definition onError (message : string) (s : t) : t :=
  {| session := session s; cameraStream := cameraStream s;
     camera := camera s; scene := scene s;
     stoppedTracks := stoppedTracks s;
     reported := reported s ++ [message]; autoStart := autoStart s;
     capabilitiesLoading := capabilitiesLoading s;
     isSupported := isSupported s; committed := committed s |}.

Definition setCapabilities (supported : bool) (s : t) : t :=
  {| session := session s; cameraStream := cameraStream s;
     camera := camera s; scene := scene s;
     stoppedTracks := stoppedTracks s; reported := reported s;
     autoStart := autoStart s; capabilitiesLoading := false;
     isSupported := supported; committed := committed s |}.

Definition setCommitted (k : closure) (s : t) : t :=
  {| session := session s; cameraStream := cameraStream s;
     camera := camera s; scene := scene s;
     stoppedTracks := stoppedTracks s; reported := reported s;
     autoStart := autoStart s;
     capabilitiesLoading := capabilitiesLoading s;
     isSupported := isSupported s; committed := Some k |}.

(** [handleSessionError]. *)
Definition handleSessionError (message : string) (s : t) : t :=
  onError message
    (setSessionState
       (fun prev =>
          {| ph := error;
             err := Some (if String.eqb message ""
                          then "Unknown error occurred" else message);
             cameraReady := cameraReady prev; arReady := arReady prev;
             markerDetected := markerDetected prev;
             startTime := startTime prev;
             stats :=
               {| markerDetections := markerDetections (stats prev);
                  totalSessionTime := totalSessionTime (stats prev);
                  errorCount := S (errorCount (stats prev)) |};
             statsRef := S (statsRef prev) |}) s).

(** [startSession]; the two answers of [useDeviceCapabilities] are those
    of the render that built the callback. *)
Definition startSession (now : Z) (s : t) : t :=
  let s1 :=
    setSessionState
      (fun prev =>
         {| ph := checking; err := None; cameraReady := cameraReady prev;
            arReady := arReady prev;
            markerDetected := markerDetected prev;
            startTime := Some now; stats := stats prev;
            statsRef := statsRef prev |}) s in
  if capabilitiesLoading s then s1
  else if negb (isSupported s) then
    handleSessionError "AR is not supported on this device/browser" s1
  else
    setSessionState
      (fun prev =>
         {| ph := requesting_camera; err := err prev;
            cameraReady := cameraReady prev; arReady := arReady prev;
            markerDetected := markerDetected prev;
            startTime := startTime prev; stats := stats prev;
            statsRef := statsRef prev |}) s1.

(** [endSession]; [started] is the [sessionState.startTime] of the render
    that built the callback. *)
Definition endSession (started : option Z) (now : Z) (s : t) : t :=
  let sessionDuration :=
    match started with
    | Some b => now - b
    | None => 0
    end in
  setCameraStream None
    (setSessionState
       (fun prev =>
          {| ph := idle; err := err prev; cameraReady := false;
             arReady := false; markerDetected := false;
             startTime := startTime prev;
             stats :=
               {| markerDetections := markerDetections (stats prev);
                  totalSessionTime :=
                    totalSessionTime (stats prev) + sessionDuration;
                  errorCount := errorCount (stats prev) |};
             statsRef := S (statsRef prev) |}) s).

(** [handleCameraReady]. *)
Definition handleCameraReady (c : stream) (s : t) : t :=
  setSessionState
    (fun prev =>
       {| ph := if arReady prev then active else initializing;
          err := err prev; cameraReady := true; arReady := arReady prev;
          markerDetected := markerDetected prev;
          startTime := startTime prev; stats := stats prev;
          statsRef := statsRef prev |})
    (setCameraStream (Some c) s).

(** [handleCameraError]; [errorType] is absent when the call comes
    through [onPermissionDenied]. *)
Definition handleCameraError (message : string)
    (errorType : option string) (s : t) : t :=
  handleSessionError
    (if String.eqb (default "" errorType) "permission_denied"
     then "Camera permission denied. Please allow camera access and try again."
     else String.append "Camera error: " message) s.

(** [handleMarkerFound] and [handleMarkerLost]. *)
Definition handleMarkerFound (s : t) : t :=
  setSessionState
    (fun prev =>
       {| ph := ph prev; err := err prev; cameraReady := cameraReady prev;
          arReady := arReady prev; markerDetected := true;
          startTime := startTime prev;
          stats :=
            {| markerDetections := S (markerDetections (stats prev));
               totalSessionTime := totalSessionTime (stats prev);
               errorCount := errorCount (stats prev) |};
          statsRef := S (statsRef prev) |}) s.

Definition handleMarkerLost (s : t) : t :=
  setSessionState
    (fun prev =>
       {| ph := ph prev; err := err prev; cameraReady := cameraReady prev;
          arReady := arReady prev; markerDetected := false;
          startTime := startTime prev; stats := stats prev;
          statsRef := statsRef prev |}) s.

(** [handleARError]. *)
Definition handleARError (message : string) (s : t) : t :=
  handleSessionError message s.

(** The update queued by the effect "Update AR ready state". *)
Definition arReadyUpdate (s : t) : t :=
  setSessionState
    (fun prev =>
       {| ph := active; err := err prev;
          cameraReady := cameraReady prev; arReady := true;
          markerDetected := markerDetected prev;
          startTime := startTime prev; stats := stats prev;
          statsRef := statsRef prev |}) s.

(** The phases in which the manager renders [CameraHandler]; [ARScene]
    is rendered inside it once the camera is ready. *)
Definition rendersCamera (s : t) : bool :=
  match ph (session s) with
  | requesting_camera | initializing | active => true
  | _ => false
  end.

Definition rendersScene (s : t) : bool :=
  rendersCamera s && cameraReady (session s).

(** [stopCamera] of [CameraHandler], which its effect's cleanup runs
    when the component is unmounted. *)
Definition stopCamera (h : cameraHandler) (s : t) : t :=
  match streamRef h with
  | Some c => stopTracks c s
  | None => s
  end.

(** Mounting and unmounting the children when a render is committed. *)
Definition reconcile (s : t) : t :=
  let s1 :=
    match rendersScene s, scene s with
    | true, None =>
        setScene (Some {| initialized := false; running := false;
                          markerVisible := false; ar_error := None |}) s
    | false, Some _ => setScene None s
    | _, _ => s
    end in
  match rendersCamera s1, camera s1 with
  | true, None =>
      setCamera (Some {| status := cam_idle; streamRef := None |}) s1
  | false, Some h => setCamera None (stopCamera h s1)
  | _, _ => s1
  end.

(** What the effects of the render of [s] capture. *)
Definition capture (s : t) : closure :=
  {| k_ph := ph (session s); k_startTime := startTime (session s);
     k_statsRef := statsRef (session s);
     k_cameraReady := cameraReady (session s);
     k_loading := capabilitiesLoading s; k_supported := isSupported s |}.

(** The dependencies of the three effects, compared with the last
    commit: [autoStart, capabilitiesLoading, phase, startSession],
    [cameraReady, phase, updateSession] and [phase, endSession], where
    [startSession] is rebuilt when the capabilities change and
    [endSession] when [startTime] or the [statistics] object does. *)
Definition autoStartDeps (k : closure) (s : t) : bool :=
  bool_decide (k_ph k = ph (session s))
  && Bool.eqb (k_loading k) (capabilitiesLoading s)
  && Bool.eqb (k_supported k) (isSupported s).

Definition arReadyDeps (k : closure) (s : t) : bool :=
  bool_decide (k_ph k = ph (session s))
  && Bool.eqb (k_cameraReady k) (cameraReady (session s)).

Definition same_time (a b : option Z) : bool :=
  match a, b with
  | Some x, Some y => x =? y
  | None, None => true
  | _, _ => false
  end.

Definition cleanupDeps (k : closure) (s : t) : bool :=
  bool_decide (k_ph k = ph (session s))
  && (k_statsRef k =? statsRef (session s))%nat
  && same_time (k_startTime k) (startTime (session s)).

(** The cleanup of the effect "Cleanup on unmount", run when its
    dependencies have changed: it reads the phase of the render that
    installed it. *)
Definition cleanupEffect (now : Z) (s : t) : option (t -> t) :=
  match committed s with
  | Some k =>
      if cleanupDeps k s then None
      else if bool_decide (k_ph k = active)
           then Some (endSession (k_startTime k) now)
           else None
  | None => None
  end.

(** The effect "Auto-start session when ready". *)
Definition autoStartEffect (now : Z) (s : t) : option (t -> t) :=
  let runs := match committed s with
              | Some k => negb (autoStartDeps k s)
              | None => true
              end in
  if runs && autoStart s && negb (capabilitiesLoading s)
     && bool_decide (ph (session s) = idle)
  then Some (startSession now)
  else None.

(** The effect "Update AR ready state". *)
Definition arReadyEffect (s : t) : option (t -> t) :=
  let runs := match committed s with
              | Some k => negb (arReadyDeps k s)
              | None => true
              end in
  if runs && cameraReady (session s)
     && bool_decide (ph (session s) = initializing)
  then Some arReadyUpdate
  else None.

(** The commits that follow a state update: the children are reconciled
    and the effects whose dependencies changed run, the cleanups before
    the bodies; the updates they queue are applied in that order and
    rendered in turn. *)
Fixpoint settle (fuel : nat) (now : Z) (s : t) : list t :=
  match fuel with
  | O => []
  | S f =>
      let s1 := reconcile s in
      let queued :=
        omap Datatypes.id
          [cleanupEffect now s1; autoStartEffect now s1; arReadyEffect s1] in
      let s2 := setCommitted (capture s1) s1 in
      match queued with
      | [] => [s2]
      | _ => s2 :: settle f now (fold_left (fun x u => u x) queued s2)
      end
  end.

(** The classification of [startCamera]'s [catch] block. *)
Definition errorType (name : string) : string :=
  if CameraUtils.named (ErrorHandler.PlainError name "")
       "NotAllowedError" "PermissionDeniedError" then "permission_denied"
  else if CameraUtils.named (ErrorHandler.PlainError name "")
       "NotFoundError" "DevicesNotFoundError" then "no_camera"
  else if CameraUtils.named (ErrorHandler.PlainError name "")
       "NotReadableError" "TrackStartError" then "camera_busy"
  else if String.eqb name "NotSupportedError" then "not_supported"
  else "unknown".

(** What happens to the tree: the capabilities arrive, the page calls
    [start] or [end] (the retry and the end-session buttons do too), the
    browser or MindAR answers a mounted child. *)
Inductive event :=
| CapabilitiesLoaded (supported : bool)
| Start
| End
| CameraGranted (c : stream)
| CameraRefused (name message : string)
| MindARInitialized
| MindARInitFailed (message : string)
| MindARStarted
| MindARStartFailed (message : string)
| MarkerFound
| MarkerLost.

(** The state updates an event makes at time [now]; an answer for a
    child that is not mounted, or that the child does not wait for,
    changes nothing. *)
Definition handle (now : Z) (e : event) (s : t) : t :=
  match e with
  | CapabilitiesLoaded supported => setCapabilities supported s
  | Start => startSession now s
  | End => endSession (startTime (session s)) now s
  | CameraGranted c =>
      match camera s with
      | Some h =>
          handleCameraReady c
            (setCamera (Some {| status := cam_active;
                                streamRef := Some c |}) s)
      | None => s
      end
  | CameraRefused name message =>
      match camera s with
      | Some h =>
          let ty := errorType name in
          let denied := String.eqb ty "permission_denied" in
          handleCameraError message
            (if denied then None else Some ty)
            (setCamera (Some {| status := if denied then cam_denied
                                          else cam_error;
                                streamRef := streamRef h |}) s)
      | None => s
      end
  | MindARInitialized =>
      match scene s, cameraStream s with
      | Some a, Some _ =>
          if initialized a then s
          else setScene (Some {| initialized := true; running := running a;
                                 markerVisible := markerVisible a;
                                 ar_error := ar_error a |}) s
      | _, _ => s
      end
  | MindARInitFailed message =>
      match scene s, cameraStream s with
      | Some a, Some _ =>
          if initialized a then s
          else handleARError message
                 (setScene (Some {| initialized := initialized a;
                                    running := running a;
                                    markerVisible := markerVisible a;
                                    ar_error := Some message |}) s)
      | _, _ => s
      end
  | MindARStarted =>
      match scene s with
      | Some a =>
          if initialized a && negb (running a) && negb (failed a)
          then setScene (Some {| initialized := initialized a;
                                 running := true;
                                 markerVisible := markerVisible a;
                                 ar_error := None |}) s
          else s
      | None => s
      end
  | MindARStartFailed message =>
      match scene s with
      | Some a =>
          if initialized a && negb (running a) && negb (failed a)
          then handleARError message
                 (setScene (Some {| initialized := initialized a;
                                    running := false;
                                    markerVisible := markerVisible a;
                                    ar_error := Some message |}) s)
          else s
      | None => s
      end
  | MarkerFound =>
      match scene s with
      | Some a =>
          handleMarkerFound
            (setScene (Some {| initialized := initialized a;
                               running := running a; markerVisible := true;
                               ar_error := ar_error a |}) s)
      | None => s
      end
  | MarkerLost =>
      match scene s with
      | Some a =>
          handleMarkerLost
            (setScene (Some {| initialized := initialized a;
                               running := running a;
                               markerVisible := false;
                               ar_error := ar_error a |}) s)
      | None => s
      end
  end.

(** Renders enough for every chain of effects of the component. *)
Definition renders : nat := 8.

(** The commits an event leads to, and the tree after the last one. *)
Definition step (s : t) (e : Z * event) : list t :=
  settle renders (fst e) (handle (fst e) (snd e) s).

Definition after (s : t) (e : Z * event) : t := List.last (step s e) s.

Definition run (es : list (Z * event)) (s : t) : t := fold_left after es s.

(** A tree as a commit leaves it: its children reconciled and its
    effects installed on its own values. *)
Definition rested (s : t) : Prop :=
  committed s = Some (capture s) /\ reconcile s = s.

(** The tree once mounted at time [now]. *)
Definition mounted (auto : bool) (now : Z) : t :=
  List.last (settle renders now (initial auto)) (initial auto).

(** The events that bring a mounted tree to the camera request: the
    capabilities arrive, and the page calls [start] unless the component
    starts by itself. *)
Definition starting (auto : bool) (loaded started : Z) : list (Z * event) :=
  (loaded, CapabilitiesLoaded true)
  :: (if auto then [] else [(started, Start)]).

End ARSession.

(* ===================================================================== *)
(** ** lib/errorHandler.js: the queries on the error log                 *)
(* ===================================================================== *)

Module ErrorLog.
Import JS ErrorHandler.

#[global] Instance ErrorTypes_eq_dec : EqDecision ErrorTypes.
Proof. solve_decision. Defined.

#[global] Instance ErrorSeverity_eq_dec : EqDecision ErrorSeverity.
Proof. solve_decision. Defined.

(** [ErrorHandler.getRecentErrors]; [count] is absent when the caller
    gives none, and is then 10. *)
Definition getRecentErrors (count : option num) (h : t)
  : list processedError :=
  SessionApi.slice_neg (default (Int 10) count) (errorLog h).

(** [ErrorHandler.getErrorsByType]. *)
Definition getErrorsByType (type : ErrorTypes) (h : t)
  : list processedError :=
  filter (fun e => pe_type e = type) (errorLog h).

(** [ErrorHandler.clearLog]. *)
Definition clearLog (h : t) : t := {| errorLog := [] |}.

(** [tally[k] = (tally[k] || 0) + 1] on an object used as a table of
    counters, its keys in insertion order. *)
Fixpoint bump {K} `{EqDecision K} (k : K) (tally : list (K * nat))
  : list (K * nat) :=
  match tally with
  | [] => [(k, 1%nat)]
  | (k', n) :: r =>
      if bool_decide (k' = k) then (k', S n) :: r else (k', n) :: bump k r
  end.

(** [tally[k] || 0]. *)
Fixpoint counted {K} `{EqDecision K} (k : K) (tally : list (K * nat)) : nat :=
  match tally with
  | [] => 0
  | (k', n) :: r => if bool_decide (k' = k) then n else counted k r
  end.

(** [ErrorHandler.getStats]. *)
Record errorStats := {
  total : nat;
  byType : list (ErrorTypes * nat);
  bySeverity : list (ErrorSeverity * nat);
  recent : list processedError
}.

Definition getStats (h : t) : errorStats :=
  {| total := length (errorLog h);
     byType := fold_left (fun tally e => bump (pe_type e) tally)
                         (errorLog h) [];
     bySeverity := fold_left (fun tally e => bump (pe_severity e) tally)
                             (errorLog h) [];
     recent := getRecentErrors (Some (Int 5)) h |}.

(** A series of calls of [handleError], each with the identifier and the
    clock reading it draws. *)
Fixpoint handleAll (calls : list (env * error * obj)) (h : t) : t :=
  match calls with
  | [] => h
  | (v, e, context) :: r => handleAll r (snd (handleError v e context h))
  end.

Definition processed (c : env * error * obj) : processedError :=
  let '(v, e, context) := c in processError v e context.

End ErrorLog.

(* ===================================================================== *)
(** ** lib/cameraUtils.js: switching the camera                          *)
(* ===================================================================== *)

Module CameraSwitch.
Import JS CameraUtils.

(** [CameraUtils.switchCamera]; [facingMode] is absent when the caller
    gives none, and is then [environment].  The request made by
    [requestCameraAccess] draws the identifier and clock reading [v1] for
    the error it logs, the [catch] block of [switchCamera] draws [v2]. *)
Definition switchCamera (b : browser) (v1 v2 : ErrorHandler.env)
    (facingMode : option string) (c : t) (h : ErrorHandler.t)
  : result stream * t * ErrorHandler.t :=
  let facingMode := default "environment" facingMode in
  let catch (e : ErrorHandler.error) (c' : t) (h' : ErrorHandler.t) :=
    let '(_, h1) :=
      ErrorHandler.handleCameraError v2 e
        [("context", ErrorHandler.Str "camera_switch");
         ("facingMode", ErrorHandler.Str facingMode)] h' in
    (Throws e, c', h1) in
  if negb (s_facingMode (supportedConstraints c)) then
    catch (ErrorHandler.PlainError "Error"
             "Camera switching not supported on this device") c h
  else
    let current (side : video -> range) (otherwise : Z) : Z :=
      match currentConstraints c with
      | Some k => default otherwise (given_num (ideal (side (c_video k))))
      | None => otherwise
      end in
    let options :=
      {| o_facingMode := Some facingMode;
         o_width := Some (current width 1280);
         o_height := Some (current height 720);
         o_frameRate := None;
         o_arOptimized := true |} in
    match requestCameraAccess b v1 options c h with
    | (Returns s, c', h') => (Returns s, c', h')
    | (Throws e, c', h') => catch e c' h'
    end.

End CameraSwitch.

(* ===================================================================== *)
(** ** lib/sessionManager.js: the queries on the interactions            *)
(* ===================================================================== *)

Module SessionQueries.
Import JS SessionManager.

(** [SessionManager.getRecentInteractions]; [count] is absent when the
    caller gives none, and is then 10. *)
Definition getRecentInteractions (count : option num) (s : t)
  : list interaction :=
  SessionApi.slice_neg (default (Int 10) count) (interactions s).

(** [SessionManager.getInteractionsByType]. *)
Definition getInteractionsByType (type : string) (s : t) : list interaction :=
  filter (fun i => i_type i = type) (interactions s).

(** The record of the page visit that [startSession] tracks. *)
Definition pageVisit (sid id : string) (pg : page) (now : Z) : interaction :=
  {| i_id := id; i_sessionId := sid; i_type := PAGE_VISIT;
     i_timestamp := now;
     i_data := [("sessionStart", ErrorHandler.Opaque);
                ("url", ErrorHandler.Str (p_url pg))] |}.

(** The number a counter of the statistics holds, 0 for a counter that
    is not a number. *)
Definition numeric (c : counter) : nat :=
  match c with
  | Count n => n
  | Text _ _ => 0
  end.

(** The counter that [n] interactions of one type leave: none for 0. *)
Definition counterAfter (made : nat -> counter) (n : nat) : option counter :=
  match n with
  | O => None
  | S _ => Some (made n)
  end.

(** The type and the data of a call of [trackInteraction]. *)
Definition typeOf (c : string * string * obj * Z) : string :=
  let '(_, type, _, _) := c in type.

Definition dataOf (c : string * string * obj * Z) : obj :=
  let '(_, _, d, _) := c in d.

End SessionQueries.

(* ===================================================================== *)
(** ** lib/services/qrService.js: clearing and measuring the cache       *)
(* ===================================================================== *)

Module QRServiceCache.
Import JS QRService.

Section Service.

Variable QR : Type.

(** [QRService.clearCache]. *)
Definition clearCache (s : QRService.t QR) : QRService.t QR :=
  with_cache QR [] s.

(** [QRService.getCacheStats]. *)
Record cacheStats := {
  cs_size : nat;
  cs_maxSize : nat;
  cs_expired : nat;
  cs_active : nat;
  cs_timeout : Z
}.

Definition getCacheStats (now : Z) (s : QRService.t QR) : cacheStats :=
  let expired :=
    length (filter (fun e => cacheTimeout <? now - timestamp QR (snd e))
                   (cache QR s)) in
  {| cs_size := JSMap.size (cache QR s); cs_maxSize := cacheMaxSize;
     cs_expired := expired;
     cs_active := (JSMap.size (cache QR s) - expired)%nat;
     cs_timeout := cacheTimeout |}.

(** The invariant of the cache: keys all different, at most
    [cacheMaxSize] entries. *)
Definition withinLimit (s : QRService.t QR) : Prop :=
  NoDup (map fst (cache QR s))
  /\ (JSMap.size (cache QR s) <= cacheMaxSize)%nat.

End Service.

End QRServiceCache.

(* ===================================================================== *)
(** ** pages/api/qr-code.js: the checks, the encoder call, getQRCodeInfo *)
(* ===================================================================== *)

Module QrCodeRequests.
Import JS QrCodeApi.

(** The request passes every check that [handler] makes before it
    calls the encoder. *)
Definition passesChecks (r : request) : bool :=
  content_ok (content_of r)
  && negb (truthy (width (config_of r))
           && (lt (width (config_of r)) (Int 64)
               || gt (width (config_of r)) (Int 2048)))
  && level_ok (config_of r).

(** The call of the encoder that [handler] makes for a request that
    passes the checks. *)
Definition encoderCall (r : request) : call :=
  if String.eqb (type (config_of r)) "svg"
  then toString (content_of r) (config_of r)
  else toBuffer (content_of r) (config_of r).

Section Handler.

Variable QRCode_toString : string -> config -> encoded.
Variable QRCode_toBuffer : string -> config -> encoded.

(** What the encoder answers to that call. *)
Definition encoderAnswer (r : request) : encoded :=
  if String.eqb (type (config_of r)) "svg"
  then QRCode_toString (content_of r) (config_of r)
  else QRCode_toBuffer (content_of r) (config_of r).

End Handler.

(** [getQRCodeInfo]: the capacity the loop gives to a version,
    [Math.floor(version * version * 0.6)]; for the versions 2 to 40 the
    product in floating point is within 1e-13 of 3 * version^2 / 5, so
    that its floor is the integer quotient. *)
Definition capacityOf (version : nat) : nat := (3 * version * version / 5)%nat.

(** The [while] loop: [version] and [capacity] are the loop variables,
    [fuel] bounds the number of iterations (39 are possible). *)
Fixpoint estimate (fuel dataLength version capacity : nat) : nat :=
  match fuel with
  | O => version
  | S f =>
      if (capacity <? dataLength)%nat && (version <? 40)%nat
      then estimate f dataLength (S version) (capacityOf (S version))
      else version
  end.

Record info := {
  dataLength : nat;
  estimatedVersion : nat;
  recommendedErrorLevel : string;
  recommendedSize : nat;
  canGenerate : bool
}.

(** [getQRCodeInfo], on a string. *)
Definition getQRCodeInfo (data : string) : info :=
  let dataLength := String.length data in
  let version := estimate 40 dataLength 1 25 in
  {| dataLength := dataLength;
     estimatedVersion := Nat.min version 40;
     recommendedErrorLevel := if (100 <? dataLength)%nat then "M" else "H";
     recommendedSize := if (200 <? dataLength)%nat then 768 else 512;
     canGenerate := (version <=? 40)%nat |}.

End QrCodeRequests.

(* ===================================================================== *)
(** ** components/ARSessionManager.js: a session in full course          *)
(* ===================================================================== *)

Module ARSessionTraces.
Import ARSession.

(** The tree of a session in full course: mounted, started, the camera
    granted, MindAR initialised and started. *)
Definition tracking (auto : bool)
    (mount loaded started granted ready began : Z) (c : stream) : t :=
  after
    (after
       (after (run (starting auto loaded started) (mounted auto mount))
              (granted, CameraGranted c))
       (ready, MindARInitialized))
    (began, MindARStarted).

(** The time at which that session started: when the capabilities
    arrived if the component starts by itself, else when the page called
    [start]. *)
Definition startedAt (auto : bool) (loaded started : Z) : Z :=
  if auto then loaded else started.

End ARSessionTraces.

(* ===================================================================== *)
(** ** pages/api/session.js: the handler, the bodies it reads, its catch  *)
(* ===================================================================== *)

Module SessionEndpoint.
Import JS SessionApi.

(** A value read from the JSON body of a request, where the code tells
    three cases apart: missing ([undefined]), [null], or given. *)
Inductive field (A : Type) :=
| Missing
| Null
| Given (a : A).
Arguments Missing {A}.
Arguments Null {A}.
Arguments Given {A} a.

(** The object read by [const { type, data = {} } = interactionData]:
    its [type] when it is a string, and its [data]. *)
Record interactionBody := {
  ib_type : option string;
  ib_data : field interactionData
}.

(** The fields of a session record that the object of a request may
    carry besides [state]; a date is given by its time. *)
Record sessionFields := {
  f_sessionId : option string;
  f_startTime : option Z;
  f_lastActivity : option Z;
  f_userAgent : option string;
  f_rest : obj
}.

(** The object read by [const { state, ...updateData } = stateData], which
    is also the shape of the [sessionData] of a create request. *)
Record stateData := {
  state : option string;
  updateData : sessionFields
}.

(** The body of a POST: [sessionData] is absent when the body has none
    or [null], in which case nothing is spread; [initialInteraction] is
    absent when the body has none or a falsy one. *)
Record createBody := {
  sessionData : option stateData;
  initialInteraction : option interactionBody
}.

(** The body of a PUT, as [handleUpdateSession] and the function it
    calls for the [action] read it. *)
Inductive updateBody :=
| add_interaction (data : field interactionBody)
| update_state (data : field stateData)
| heartbeat
| other (action : option string).

(** A request; the body is absent when it is [null] or [undefined].
    [sid] and [id] are the identifiers the request draws, [now] the
    clock reading. *)
Inductive request :=
| OPTIONS
| POST (userAgent : option string) (body : option createBody)
       (sid id : string) (now : Z)
| PUT (sessionId : option string) (body : option updateBody)
      (id : string) (now : Z)
| GET (sessionId includeInteractions limit : option string)
| DELETE (sessionId : option string)
| Another (method : string).

(** What a function called inside the [try] of [handler] does: it
    sends a response, or throws; either way the maps are as it leaves
    them. *)
Inductive outcome :=
| Responds (r : response) (st : store)
| Throws (st : store).

Definition VALID_SESSION_STATES : list string :=
  ["inactive"; "active"; "ar_active"; "completed"; "error"].

(** [{...base, ...fields}]. *)
Definition spreadOver (base : session) (o : sessionFields) : session :=
  {| s_sessionId := default (s_sessionId base) (f_sessionId o);
     s_state := s_state base;
     s_startTime := default (s_startTime base) (f_startTime o);
     s_lastActivity := default (s_lastActivity base) (f_lastActivity o);
     s_userAgent := default (s_userAgent base) (f_userAgent o);
     s_extra := ErrorHandler.spread (s_extra base) (f_rest o) |}.

Definition with_state (st : string) (s : session) : session :=
  {| s_sessionId := s_sessionId s; s_state := st;
     s_startTime := s_startTime s; s_lastActivity := s_lastActivity s;
     s_userAgent := s_userAgent s; s_extra := s_extra s |}.

(** The [data] that [addInteractionToSession] reads after
    [const { type, data = {} } = interactionData]: the default applies
    to a missing [data] only, and [data.userAgent] throws a TypeError on
    [null]. *)
Definition dataRead (d : field interactionData) : option interactionData :=
  match d with
  | Missing => Some {| d_userAgent := None; d_url := None; d_rest := [] |}
  | Null => None
  | Given d => Some d
  end.

(** [handleCreateSession].  A body that is [null] throws in the
    destructuring; an [initialInteraction] whose [data] is [null]
    throws in [addInteractionToSession], after the session was stored
    and before [cleanupOldSessions]. *)
Definition handleCreateSession (userAgent : option string)
    (body : option createBody) (sid id : string) (now : Z) (st : store)
  : outcome :=
  match body with
  | None => Throws st
  | Some b =>
      let base := {| s_sessionId := sid; s_state := "active";
                     s_startTime := now; s_lastActivity := now;
                     s_userAgent := or_unknown userAgent; s_extra := [] |} in
      let session :=
        match sessionData b with
        | Some o =>
            let spread := spreadOver base (updateData o) in
            match state o with
            | Some st' => with_state st' spread
            | None => spread
            end
        | None => base
        end in
      let st1 := {| sessions := JSMap.set sid session (sessions st);
                    interactions := JSMap.set sid [] (interactions st) |} in
      match initialInteraction b with
      | Some i =>
          match dataRead (ib_data i) with
          | Some d =>
              let st2 :=
                snd (addInteractionToSession sid
                       (default SessionManager.PAGE_VISIT (ib_type i))
                       d id now st1) in
              Responds {| status := 201; content := Created sid |}
                       (cleanupOldSessions now st2)
          | None => Throws st1
          end
      | None =>
          Responds {| status := 201; content := Created sid |}
                   (cleanupOldSessions now st1)
      end
  end.

(** [handleAddInteraction], for a session that is stored. *)
Definition handleAddInteraction (sessionId : string)
    (interactionData : field interactionBody) (id : string) (now : Z)
    (st : store) : outcome :=
  match interactionData with
  | Missing | Null => Throws st
  | Given i =>
      let invalid :=
        Responds {| status := 400;
                    content := Error "Invalid interaction type" |} st in
      match ib_type i with
      | Some type =>
          if existsb (String.eqb type) VALID_INTERACTION_TYPES then
            match dataRead (ib_data i) with
            | Some d =>
                let '(interaction, st1) :=
                  addInteractionToSession sessionId type d id now st in
                Responds {| status := 200; content := Recorded interaction |}
                         st1
            | None => Throws st
            end
          else invalid
      | None => invalid
      end
  end.

(** [handleUpdateSessionState], for the session stored under
    [sessionId]. *)
Definition handleUpdateSessionState (sessionId : string) (session : session)
    (stateData : field stateData) (now : Z) (st : store) : outcome :=
  match stateData with
  | Missing | Null => Throws st
  | Given d =>
      let updatedSession := touch now (spreadOver session (updateData d)) in
      match given_str (state d) with
      | Some st' =>
          if existsb (String.eqb st') VALID_SESSION_STATES then
            let updatedSession := with_state st' updatedSession in
            Responds {| status := 200; content := Updated updatedSession |}
                     {| sessions := JSMap.set sessionId updatedSession
                                              (sessions st);
                        interactions := interactions st |}
          else
            Responds {| status := 400;
                        content := Error "Invalid session state" |} st
      | None =>
          Responds {| status := 200; content := Updated updatedSession |}
                   {| sessions := JSMap.set sessionId updatedSession
                                            (sessions st);
                      interactions := interactions st |}
      end
  end.

(** [handleHeartbeat]. *)
Definition handleHeartbeat (sessionId : string) (session : session)
    (now : Z) (st : store) : outcome :=
  Responds {| status := 200; content := Heartbeat now |}
           {| sessions := JSMap.set sessionId (touch now session)
                                    (sessions st);
              interactions := interactions st |}.

(** [handleUpdateSession]: the body is destructured first, then the
    session is looked up, then the action is served. *)
Definition handleUpdateSession (sessionId : option string)
    (body : option updateBody) (id : string) (now : Z) (st : store)
  : outcome :=
  match body with
  | None => Throws st
  | Some b =>
      match given_str sessionId with
      | None =>
          Responds {| status := 400; content := Error "Session ID required" |}
                   st
      | Some sid =>
          match JSMap.get sid (sessions st) with
          | None =>
              Responds {| status := 404;
                          content := Error "Session not found" |} st
          | Some session =>
              match b with
              | add_interaction data =>
                  handleAddInteraction sid data id now st
              | update_state data =>
                  handleUpdateSessionState sid session data now st
              | heartbeat => handleHeartbeat sid session now st
              | other _ =>
                  Responds {| status := 400;
                              content := Error "Invalid action" |} st
              end
          end
      end
  end.

(** [handler]: the routing by method and the [catch], which answers
    500 and leaves the maps as the function that threw left them. *)
Definition handler (r : request) (st : store) : response * store :=
  let served :=
    match r with
    | OPTIONS => Responds {| status := 200; content := Ended |} st
    | POST userAgent body sid id now =>
        handleCreateSession userAgent body sid id now st
    | PUT sessionId body id now =>
        handleUpdateSession sessionId body id now st
    | GET sessionId includeInteractions limit =>
        Responds (handleGetSession sessionId includeInteractions limit st) st
    | DELETE sessionId =>
        let '(response, st') := handleDeleteSession sessionId st in
        Responds response st'
    | Another _ =>
        Responds {| status := 405; content := Error "Method not allowed" |}
                 st
    end in
  match served with
  | Responds response st' => (response, st')
  | Throws st' =>
      ({| status := 500; content := Error "Internal server error" |}, st')
  end.

(** What happens to the maps of the process: a request is served, or
    the timer set by [setInterval] runs [cleanupOldSessions]. *)
Inductive event :=
| Request (r : request)
| CleanupTimer (now : Z).

Definition step (st : store) (e : event) : store :=
  match e with
  | Request r => snd (handler r st)
  | CleanupTimer now => cleanupOldSessions now st
  end.

Definition run (events : list event) (st : store) : store :=
  fold_left step events st.

(** The event stores a session and throws before the cleanup: a POST
    whose [initialInteraction] has [null] as [data]. *)
Definition storesAndThrows (e : event) : bool :=
  match e with
  | Request (POST _ (Some b) _ _ _) =>
      match initialInteraction b with
      | Some i => match ib_data i with
                  | Null => true
                  | _ => false
                  end
      | None => false
      end
  | _ => false
  end.

(** The event runs [cleanupOldSessions]: the timer, or a POST that is
    served to its end. *)
Definition cleansUp (e : event) : bool :=
  match e with
  | CleanupTimer _ => true
  | Request (POST _ (Some _) _ _ _) => negb (storesAndThrows e)
  | _ => false
  end.

(** The number of events that stored a session and threw since the
    last event that ran the cleanup. *)
Definition uncleaned (events : list event) : nat :=
  fold_left (fun k e => if cleansUp e then 0%nat
                        else if storesAndThrows e then S k else k)
            events 0%nat.

(** A POST whose [initialInteraction] has [null] as [data]. *)
Definition throwingCreate (n : nat) : event :=
  Request (POST None
                (Some {| sessionData := None;
                         initialInteraction :=
                           Some {| ib_type := None; ib_data := Null |} |})
                (String.append "sess_" (pretty n)) "int_0_a" 0).

End SessionEndpoint.


(* ===================================================================== *)
(** ** Sample inputs                                                      *)
(* ===================================================================== *)

Module Samples.

Definition someEnv : ErrorHandler.env :=
  {| ErrorHandler.userAgent := "Mozilla/5.0";
     ErrorHandler.url := "http://localhost:3000/ar";
     ErrorHandler.errorId := "err_1_abc"; ErrorHandler.now := 1 |}.

Definition deniedBrowser (message : string) : CameraUtils.browser :=
  {| CameraUtils.hasGetUserMedia := true;
     CameraUtils.getUserMedia :=
       CameraUtils.Rejects (ErrorHandler.PlainError "NotAllowedError" message);
     CameraUtils.query := CameraUtils.NoPermissionsAPI |}.

Definition idleCamera : CameraUtils.t :=
  {| CameraUtils.currentStream := None;
     CameraUtils.streamState := CameraUtils.INACTIVE;
     CameraUtils.permissionState := CameraUtils.UNKNOWN;
     CameraUtils.currentConstraints := None;
     CameraUtils.supportedConstraints :=
       {| CameraUtils.s_facingMode := true;
          CameraUtils.s_focusMode := false;
          CameraUtils.s_exposureMode := false |};
     CameraUtils.stopped := []; CameraUtils.notified := [] |}.

Definition stubEncoder : string -> QrCodeApi.config -> QrCodeApi.encoded :=
  fun _ _ => QrCodeApi.Encoded "image".

Definition stubETag : string -> QrCodeApi.config -> string := fun _ _ => "etag".

Definition getRequest (q : QrCodeApi.query) : QrCodeApi.request :=
  {| QrCodeApi.method := "GET"; QrCodeApi.rq_query := q;
     QrCodeApi.rq_body := QrCodeApi.noBody |}.

Definition sampleStorage : SessionManager.storage :=
  {| SessionManager.present := true; SessionManager.writable := true;
     SessionManager.item := None |}.

Definition samplePage : SessionManager.page :=
  {| SessionManager.p_userAgent := "Mozilla/5.0";
     SessionManager.p_url := "http://localhost:3000/" |}.

(** A manager as the module creates it at time 0. *)
Definition sampleManager : SessionManager.t :=
  SessionManager.create sampleStorage samplePage "halloween_ar_0_abc"
    "int_0_a" 0.

(** [n] scans, one per millisecond. *)
Definition sampleCalls (n : nat)
  : list (string * string * SessionManager.obj * Z) :=
  map (fun i => (String.append "int_" (pretty i), SessionManager.QR_SCAN,
                 [], Z.of_nat i)) (seq 1 n).

Definition sampleData : SessionApi.interactionData :=
  {| SessionApi.d_userAgent := None; SessionApi.d_url := None;
     SessionApi.d_rest := [] |}.

Definition sampleAdds (n : nat)
  : list (string * SessionApi.interactionData * string * Z) :=
  map (fun i => (SessionManager.QR_SCAN, sampleData,
                 String.append "int_" (pretty i), Z.of_nat i)) (seq 1 n).

(** A store with one session just created. *)
Definition sampleStore : SessionApi.store :=
  snd (SessionApi.handleCreateSession None [] None "sess_0_abc" "int_0_a" 0
         SessionApi.empty).

(** A stand-in for the entity class: the entity is its content, valid
    when it is not empty. *)
Definition urlEntity (url : string) (_ : unit) : string := url.

Definition nonEmpty (q : string) : bool * list string :=
  if String.eqb q "" then (false, ["Content is required"]) else (true, []).

Definition apiAddress (q : string) : string :=
  String.append "/api/qr-code?data=" q.

End Samples.


(* ===================================================================== *)
(** * Properties                                                          *)
(* ===================================================================== *)

(** ** Error categorisation *)

Module ErrorHandlerFacts.
Import JS ErrorHandler.

(** Splits a goal on every keyword of a list given as a hypothesis
    [In k keywords]. *)
Ltac each_keyword H :=
  simpl in H;
  repeat (destruct H as [H | H]; [subst; try reflexivity |]);
  try contradiction.

(** The primitives on the values a JavaScript console prints. *)
Example parseInt_values :
  parseInt "512" = Int 512 /\ parseInt "12px" = Int 12
  /\ parseInt " -7" = Int (-7) /\ parseInt "abc" = NaN /\ parseInt "" = NaN.
Proof. repeat split. Qed.

Example includes_values :
  includes "parse failed" "ar" = true /\ includes "device busy" "ar" = false
  /\ toLowerCase "Camera BUSY" = "camera busy".
Proof. repeat split. Qed.

Example simpleHash_abc : QRService.simpleHash "abc" = "22ci".
Proof. reflexivity. Qed.

Example categorizeError_values :
  categorizeError (PlainError "Error" "Camera not found") = CAMERA_ERROR
  /\ categorizeError (PlainError "Error" "Failed to parse") = AR_ERROR
  /\ determineSeverity (PlainError "Error" "Request denied") = LOW
  /\ categorizeError (PlainError "Error" "Request denied") = PERMISSION_ERROR.
Proof. repeat split. Qed.

Lemma categorizeError_default (e : error) :
  mentionsNone categoryKeywords e -> categorizeError e = VALIDATION_ERROR.
Proof.
  intros H. unfold categorizeError.
  rewrite !H by (simpl; tauto). reflexivity.
Qed.

Lemma determineSeverity_default (e : error) :
  mentionsNone severityKeywords e -> determineSeverity e = LOW.
Proof.
  intros H. unfold determineSeverity.
  rewrite !H by (simpl; tauto). reflexivity.
Qed.

(** The log never holds more than [maxLogSize] errors. *)
Lemma logError_bounded (p : processedError) (h : t) :
  (length (errorLog h) <= maxLogSize)%nat ->
  (length (errorLog (logError p h)) <= maxLogSize)%nat.
Proof.
  intros H. unfold logError. cbn [errorLog].
  destruct (Nat.ltb_spec maxLogSize (length (errorLog h ++ [p]))) as [Hlt | Hge].
  - rewrite length_drop, length_app. cbn [length]. lia.
  - exact Hge.
Qed.

(** The error just handled is the last of the log. *)
Lemma logError_last (p : processedError) (h : t) :
  last (errorLog (logError p h)) = Some p.
Proof.
  unfold logError. cbn [errorLog].
  destruct (Nat.ltb_spec maxLogSize (length (errorLog h ++ [p]))) as [Hlt | Hge].
  - destruct (errorLog h) as [| q l] eqn:E.
    + cbn in Hlt. unfold maxLogSize in Hlt. lia.
    + cbn [app drop]. rewrite drop_0. apply last_snoc.
  - apply last_snoc.
Qed.

(** C8, as amended: for every error that is not an instance of ARError and
    whose lowercased message contains none of the categorisation keywords
    and none of the severity keywords, processError assigns the type
    VALIDATION_ERROR and the severity LOW; and for every ARError, whatever
    its message, processError assigns the type and the severity that the
    error was constructed with. *)
Theorem processError_plain_default (v : env) (context : obj) :
  (forall name message,
      mentionsNone categoryKeywords (PlainError name message) ->
      mentionsNone severityKeywords (PlainError name message) ->
      pe_type (processError v (PlainError name message) context)
        = VALIDATION_ERROR
      /\ pe_severity (processError v (PlainError name message) context)
         = LOW)
  /\ (forall message type severity details,
        pe_type (processError v (ARError message type severity details)
                              context) = type
        /\ pe_severity (processError v (ARError message type severity details)
                                     context) = severity).
Proof.
  split.
  - intros name message Hc Hs. cbn [processError pe_type pe_severity]. split.
    + apply categorizeError_default, Hc.
    + apply determineSeverity_default, Hs.
  - intros message type severity details. split; reflexivity.
Qed.

(** C8, witness: a message without any keyword, and an ARError built as
    a camera error of high severity around a message full of other
    keywords. *)
Lemma processError_plain_default_witness :
  (pe_type (processError Samples.someEnv (PlainError "Error" "Something odd") [])
     = VALIDATION_ERROR
   /\ pe_severity (processError Samples.someEnv (PlainError "Error" "Something odd") [])
      = LOW)
  /\ pe_type (processError Samples.someEnv
                (ARError "network permission denied" CAMERA_ERROR HIGH []) [])
     = CAMERA_ERROR
  /\ pe_severity (processError Samples.someEnv
                    (ARError "network permission denied" CAMERA_ERROR HIGH []) [])
     = HIGH.
Proof.
  destruct (processError_plain_default Samples.someEnv []) as [Hplain Har].
  split.
  - apply (Hplain "Error" "Something odd").
    + intros k Hk. each_keyword Hk.
    + intros k Hk. each_keyword Hk.
  - apply (Har "network permission denied" CAMERA_ERROR HIGH []).
Defined.

(** C8, as stated, fails: the error that handleCameraError hands to
    processError is an ARError; its message "device busy" contains no
    keyword, and it keeps the type CAMERA_ERROR and the severity HIGH. *)
Lemma processError_ARError_keeps_type :
  let e := wrap CAMERA_ERROR HIGH
             (PlainError "NotReadableError" "device busy") [] in
  mentionsNone categoryKeywords e
  /\ mentionsNone severityKeywords e
  /\ pe_type (processError Samples.someEnv e []) = CAMERA_ERROR
  /\ pe_severity (processError Samples.someEnv e []) = HIGH
  /\ ~ (pe_type (processError Samples.someEnv e []) = VALIDATION_ERROR
        /\ pe_severity (processError Samples.someEnv e []) = LOW).
Proof.
  cbv zeta. repeat split.
  - intros k Hk. each_keyword Hk.
  - intros k Hk. each_keyword Hk.
  - intros [H _]. discriminate H.
Qed.

End ErrorHandlerFacts.

(** ** Camera access *)

Module CameraUtilsFacts.
Import ErrorHandler CameraUtils.

(** The [catch] block leaves the stream fields alone. *)
Lemma requestCameraAccess_catch_stream (v : env) (e : error) (c : t)
    (h : ErrorHandler.t) :
  let '(_, c', _) := requestCameraAccess_catch v e c h in
  streamState c' = ERROR
  /\ currentStream c' = currentStream c
  /\ stopped c' = stopped c.
Proof.
  unfold requestCameraAccess_catch.
  repeat match goal with
         | |- context [if ?b then _ else _] => destruct b
         end; cbn; auto.
Qed.

(** C5: when getUserMedia exists and rejects with an error named
    NotAllowedError, requestCameraAccess throws to its caller, the error
    handler has logged, as its last entry, an error of type
    PERMISSION_ERROR and severity CRITICAL carrying the browser's message,
    the stream state is ERROR (so not ACTIVE), and no stream was stored
    or stopped: the current stream is the one from before the call. *)
Theorem requestCameraAccess_denied
    (b : browser) (v : env) (o : options) (c : t) (h : ErrorHandler.t)
    (e : error) :
  hasGetUserMedia b = true ->
  getUserMedia b = Rejects e ->
  ErrorHandler.name e = "NotAllowedError" ->
  let '(r, c', h') := requestCameraAccess b v o c h in
  r = Throws (PlainError "Error"
        "Camera permission denied. Please allow camera access to use AR features.")
  /\ (exists p, last (errorLog h') = Some p
                /\ pe_type p = PERMISSION_ERROR
                /\ pe_severity p = CRITICAL
                /\ pe_message p = ErrorHandler.message e)
  /\ streamState c' = ERROR
  /\ streamState c' <> ACTIVE
  /\ currentStream c' = currentStream c
  /\ stopped c' = stopped c.
Proof.
  intros Hgum Hrej Hname. unfold requestCameraAccess.
  rewrite Hgum, Hrej. cbn [negb].
  unfold requestCameraAccess_catch, named. rewrite Hname.
  cbn [String.eqb Ascii.eqb Bool.eqb orb].
  unfold handlePermissionError, handleError.
  split; [reflexivity |].
  split.
  - eexists. split; [apply ErrorHandlerFacts.logError_last |].
    cbn. auto.
  - cbn. repeat split; congruence.
Qed.

(** C5, witness: a browser that refuses the permission. *)
Lemma requestCameraAccess_denied_witness :
  let '(r, c', h') :=
    requestCameraAccess (Samples.deniedBrowser "Permission denied")
      Samples.someEnv noOptions Samples.idleCamera ErrorHandler.empty in
  r = Throws (PlainError "Error"
        "Camera permission denied. Please allow camera access to use AR features.")
  /\ (exists p, last (errorLog h') = Some p
                /\ pe_type p = PERMISSION_ERROR
                /\ pe_severity p = CRITICAL
                /\ pe_message p = "Permission denied")
  /\ streamState c' = ERROR
  /\ streamState c' <> ACTIVE
  /\ currentStream c' = None
  /\ stopped c' = [].
Proof.
  exact (requestCameraAccess_denied (Samples.deniedBrowser "Permission denied")
           Samples.someEnv noOptions Samples.idleCamera ErrorHandler.empty
           (PlainError "NotAllowedError" "Permission denied")
           eq_refl eq_refl eq_refl).
Defined.

End CameraUtilsFacts.

(** ** The QR code entity *)

Module QRCodeFacts.
Import QRCode.

(** C7: toJSON followed by fromJSON gives back the entity, field by
    field; the array of unique users has exactly the members of the set,
    and so has the set rebuilt from it. *)
Theorem fromJSON_toJSON (q : QRCode.t) :
  fromJSON (toJSON q) = q
  /\ (forall u, u ∈ j_uniqueUsers (toJSON q) <-> u ∈ uniqueUsers q)
  /\ (forall u, u ∈ uniqueUsers (fromJSON (toJSON q)) <-> u ∈ uniqueUsers q).
Proof.
  assert (E : fromJSON (toJSON q) = q).
  { destruct q. unfold fromJSON, toJSON. cbn. f_equal.
    apply list_to_set_elements_L. }
  split; [exact E |]. split.
  - intros u. cbn. apply elem_of_elements.
  - intros u. rewrite E. reflexivity.
Qed.

End QRCodeFacts.

(** ** The AR phase state machine *)

Module ARSessionFacts.
Import ARSession.

Lemma same_time_refl (a : option Z) : same_time a a = true.
Proof. destruct a; cbn; [apply Z.eqb_refl | reflexivity]. Qed.

Lemma reconcile_keeps (s : t) :
  session (reconcile s) = session s
  /\ committed (reconcile s) = committed s
  /\ capabilitiesLoading (reconcile s) = capabilitiesLoading s
  /\ isSupported (reconcile s) = isSupported s
  /\ autoStart (reconcile s) = autoStart s.
Proof.
  destruct s as [[p er cr ar md stt sts sr] cs cam sc st rp au cl isu cm].
  destruct p, cr, cam as [[stat [r |]] |], sc; repeat split.
Qed.

(** Every commit leaves the children mounted exactly as rendered. *)
Lemma reconcile_mounts (s : t) :
  (rendersCamera s = false -> camera (reconcile s) = None)
  /\ (rendersScene s = false -> scene (reconcile s) = None).
Proof.
  destruct s as [[p er cr ar md stt sts sr] cs cam sc st rp au cl isu cm].
  destruct p, cr, cam as [[stat [r |]] |], sc; cbn;
    split; intros H; try reflexivity; discriminate H.
Qed.

(** No effect runs when nothing that the effects depend on has changed
    since the last commit. *)
Lemma settle_quiet (fuel : nat) (now : Z) (s : t) :
  committed s = Some (capture (reconcile s)) ->
  settle (S fuel) now s = [setCommitted (capture (reconcile s)) (reconcile s)].
Proof.
  intros Hc. cbn [settle].
  destruct (reconcile_keeps s) as (Hs & Hk & Hl & Hi & Ha).
  assert (E1 : cleanupEffect now (reconcile s) = None).
  { unfold cleanupEffect. rewrite Hk, Hc. unfold cleanupDeps, capture.
    cbn [k_ph k_statsRef k_startTime].
    rewrite bool_decide_true by reflexivity.
    rewrite Nat.eqb_refl, same_time_refl. reflexivity. }
  assert (E2 : autoStartEffect now (reconcile s) = None).
  { unfold autoStartEffect. rewrite Hk, Hc. unfold autoStartDeps, capture.
    cbn [k_ph k_loading k_supported].
    rewrite bool_decide_true by reflexivity.
    rewrite !Bool.eqb_reflx. reflexivity. }
  assert (E3 : arReadyEffect (reconcile s) = None).
  { unfold arReadyEffect. rewrite Hk, Hc. unfold arReadyDeps, capture.
    cbn [k_ph k_cameraReady].
    rewrite bool_decide_true by reflexivity.
    rewrite Bool.eqb_reflx. reflexivity. }
  rewrite E1, E2, E3. reflexivity.
Qed.

(** An update of the scene's own state of a rested tree is rendered
    once and changes nothing else. *)
Lemma scene_update_quiet (now : Z) (s : t) (a a' : arState) :
  rested s -> scene s = Some a ->
  settle renders now (setScene (Some a') s) = [setScene (Some a') s].
Proof.
  intros [Hc Hr] Hsc.
  assert (E : reconcile (setScene (Some a') s) = setScene (Some a') s).
  { destruct s as [[p er cr ar md stt sts sr] cs cam sc st rp au cl isu cm].
    cbn in Hsc. subst sc. clear Hc.
    destruct p, cr, cam as [[stat [r |]] |];
      cbn in Hr; try discriminate Hr; try reflexivity;
      injection Hr; intros; try discriminate;
      exfalso; eapply (f_equal (@length stream)) in H;
      rewrite ?length_app in H; cbn in H; lia. }
  unfold renders. rewrite settle_quiet; rewrite E.
  - f_equal. destruct s as [ss cs cam sc st rp au cl isu cm].
    unfold setCommitted, setScene, capture in *. cbn in *.
    rewrite Hc. reflexivity.
  - exact Hc.
Qed.

(** The tree after the camera was granted: active, rested, with a scene
    that waits for MindAR. *)
Lemma camera_granted (auto : bool) (mount loaded started granted : Z)
    (c : stream) :
  let s2 := after (run (starting auto loaded started) (mounted auto mount))
                  (granted, CameraGranted c) in
  ph (session s2) = active
  /\ rested s2
  /\ scene s2 = Some {| initialized := false; running := false;
                        markerVisible := false; ar_error := None |}
  /\ cameraStream s2 = Some c
  /\ camera s2 = Some {| status := cam_active; streamRef := Some c |}
  /\ stoppedTracks s2 = [].
Proof.
  destruct auto; vm_compute; repeat split.
Qed.

Lemma mindar_initialized (now : Z) (s : t) (c : stream) :
  rested s ->
  scene s = Some {| initialized := false; running := false;
                    markerVisible := false; ar_error := None |} ->
  cameraStream s = Some c ->
  after s (now, MindARInitialized)
  = setScene (Some {| initialized := true; running := false;
                      markerVisible := false; ar_error := None |}) s.
Proof.
  intros Hr Hsc Hcs. unfold after, step. cbn [fst snd handle].
  rewrite Hsc, Hcs. cbn [initialized running markerVisible ar_error].
  rewrite (scene_update_quiet now s _ _ Hr Hsc). reflexivity.
Qed.

Lemma mindar_started (now : Z) (s : t) :
  rested s ->
  scene s = Some {| initialized := true; running := false;
                    markerVisible := false; ar_error := None |} ->
  after s (now, MindARStarted)
  = setScene (Some {| initialized := true; running := true;
                      markerVisible := false; ar_error := None |}) s.
Proof.
  intros Hr Hsc. unfold after, step. cbn [fst snd handle].
  rewrite Hsc. cbn [initialized running markerVisible ar_error failed andb negb].
  rewrite (scene_update_quiet now s _ _ Hr Hsc). reflexivity.
Qed.

Lemma setScene_rested (s : t) (a a' : arState) :
  rested s -> scene s = Some a -> rested (setScene (Some a') s).
Proof.
  intros [Hc Hr] Hsc. split; [exact Hc |].
  destruct s as [[p er cr ar md stt sts sr] cs cam sc st rp au cl isu cm].
  cbn in Hsc. subst sc. clear Hc.
  destruct p, cr, cam as [[stat [r |]] |];
    cbn in Hr; try discriminate Hr; try reflexivity;
    injection Hr; intros; try discriminate;
    exfalso; eapply (f_equal (@length stream)) in H;
    rewrite ?length_app in H; cbn in H; lia.
Qed.

(** The transitions of the phase up to the first commit after a failure:
    a tree mounted in phase idle, once the capabilities are loaded
    and AR is supported (and the page has called start, unless the
    component starts by itself), is in phase requesting_camera; when the
    camera is granted it is in phase active, and it stays there when
    MindAR is initialised and started. When instead the initialisation of
    MindAR, or its start, fails, the next commit is in phase error, with
    the camera handler unmounted and the tracks of the granted stream
    stopped. *)
Theorem phase_transitions
    (auto : bool) (mount loaded started granted ready began failure : Z)
    (c : stream) (message : string) :
  let s0 := mounted auto mount in
  let s1 := run (starting auto loaded started) s0 in
  let s2 := after s1 (granted, CameraGranted c) in
  let s3 := after s2 (ready, MindARInitialized) in
  ph (session s0) = idle
  /\ ph (session s1) = requesting_camera
  /\ ph (session s2) = active
  /\ ph (session s3) = active
  /\ ph (session (after s3 (began, MindARStarted))) = active
  /\ (exists s rest,
        step s2 (failure, MindARInitFailed message) = s :: rest
        /\ ph (session s) = error
        /\ camera s = None
        /\ stoppedTracks s = [c])
  /\ (exists s rest,
        step s3 (failure, MindARStartFailed message) = s :: rest
        /\ ph (session s) = error
        /\ camera s = None
        /\ stoppedTracks s = [c]).
Proof.
  intros s0 s1 s2 s3.
  pose proof (camera_granted auto mount loaded started granted c) as H2.
  cbv zeta in H2. fold s0 s1 s2 in H2.
  destruct H2 as (Hph & Hr & Hsc & Hcs & Hcam & Hst).
  assert (E3 : s3 = setScene (Some {| initialized := true; running := false;
                                      markerVisible := false;
                                      ar_error := None |}) s2).
  { apply (mindar_initialized ready s2 c Hr Hsc Hcs). }
  split; [destruct auto; vm_compute; reflexivity |].
  split; [destruct auto; vm_compute; reflexivity |].
  split; [exact Hph |].
  split; [rewrite E3; exact Hph |].
  split.
  { rewrite E3, mindar_started;
      [exact Hph | exact (setScene_rested s2 _ _ Hr Hsc) | reflexivity]. }
  split.
  - unfold step. cbn [fst snd handle]. rewrite Hsc, Hcs.
    cbn [initialized]. subst s0 s1 s2.
    destruct auto; vm_compute; eexists; eexists;
      (split; [reflexivity | repeat split]).
  - rewrite E3. unfold step. cbn [fst snd handle scene setScene].
    cbn [initialized running failed ar_error andb negb].
    subst s0 s1 s2.
    destruct auto; vm_compute; eexists; eexists;
      (split; [reflexivity | repeat split]).
Qed.

(** The phase error does not last: the cleanup of the effect "Cleanup on
    unmount" runs as soon as the phase changes, with the phase active of
    the render that installed it, and calls endSession; the tree goes
    back to idle and, when it starts by itself, requests the camera
    again. *)
Lemma error_phase_is_left
    (auto : bool) (mount loaded started granted failure : Z)
    (c : stream) (message : string) :
  let s2 := after (run (starting auto loaded started) (mounted auto mount))
                  (granted, CameraGranted c) in
  map (fun s => ph (session s))
      (step s2 (failure, MindARInitFailed message))
  = error :: idle :: (if auto then [requesting_camera] else []).
Proof.
  destruct auto; vm_compute; reflexivity.
Qed.

(** C9, at the failing input: a tree with autoStart is mounted at time 0
    on a device that supports AR, the capabilities arrive at 1, the
    camera is granted at 3 and the tree is in phase active; at 10 the
    AR scene reports that the initialisation of MindAR failed.  The
    first commit is in phase error, with the camera handler unmounted and
    the tracks of the stream stopped, but the phase error is not kept:
    with no retry by the user, the commits that follow at once are idle
    and requesting_camera, the error text is erased and a camera handler
    is mounted again.  Without autoStart the commits are error, then
    idle; and a failure of the start of MindAR goes the same way. *)
Theorem mindar_failure_leaves_error :
  let granted (auto : bool) :=
    after (run (starting auto 1 2) (mounted auto 0))
          (3, CameraGranted 7%nat) in
  let failed := step (granted true) (10, MindARInitFailed "init failed") in
  let final := after (granted true) (10, MindARInitFailed "init failed") in
  ph (session (granted true)) = active
  /\ map (fun s => (ph (session s), err (session s))) failed
     = [(error, Some "init failed"); (idle, Some "init failed");
        (requesting_camera, None)]
  /\ map camera failed
     = [None; None; Some {| status := cam_idle; streamRef := None |}]
  /\ map stoppedTracks failed = [[7%nat]; [7%nat]; [7%nat]]
  /\ ph (session final) = requesting_camera
  /\ err (session final) = None
  /\ reported final = ["init failed"]
  /\ map (fun s => ph (session s))
         (step (granted false) (10, MindARInitFailed "init failed"))
     = [error; idle]
  /\ map (fun s => ph (session s))
         (step (after (granted true) (4, MindARInitialized))
               (10, MindARStartFailed "start failed"))
     = [error; idle; requesting_camera].
Proof.
  vm_compute. repeat split.
Qed.

End ARSessionFacts.

(** ** The QR generation endpoint *)

Module QrCodeApiFacts.
Import JS QrCodeApi.

Section Handler.

Variable QRCode_toString QRCode_toBuffer : string -> config -> encoded.
Variable generateETag : string -> config -> string.
Variable development : bool.
Variable generationTime : Z.

Local Abbreviation handler :=
  (handler QRCode_toString QRCode_toBuffer generateETag development
           generationTime).
Local Abbreviation generate :=
  (generate QRCode_toString QRCode_toBuffer generateETag development
            generationTime).

Lemma long_not_empty (qrData : string) :
  (MAX_URL_LENGTH < String.length qrData)%nat -> String.eqb qrData "" = false.
Proof. destruct qrData; cbn; [unfold MAX_URL_LENGTH; lia | reflexivity]. Qed.

Lemma generate_long (qrData : string) (k : custom) :
  (MAX_URL_LENGTH < String.length qrData)%nat ->
  status (generate qrData k) = 400%nat /\ encoderCalls (generate qrData k) = [].
Proof.
  intros Hlen. unfold QrCodeApi.generate.
  rewrite (long_not_empty _ Hlen).
  destruct (startsWith qrData "http" && negb (URL_PATTERN_test qrData));
    [split; reflexivity |].
  destruct (Nat.ltb_spec MAX_URL_LENGTH (String.length qrData));
    [split; reflexivity | lia].
Qed.

(** C4: a request whose content string, the data or else the url that the
    handler reads, is longer than 2048 characters is answered with status
    400, and no call of the encoder is made. *)
Theorem long_content_rejected (r : request) :
  (2048 < String.length (content_of r))%nat ->
  status (handler r) = 400%nat /\ encoderCalls (handler r) = [].
Proof.
  unfold content_of, QrCodeApi.handler.
  destruct (String.eqb (method r) "OPTIONS"); [cbn; lia |].
  destruct (String.eqb (method r) "GET").
  - destruct (get_input (rq_query r)) as [qrData k]. cbn [fst].
    apply generate_long.
  - destruct (String.eqb (method r) "POST"); [| cbn; lia].
    destruct (post_input (rq_body r)) as [qrData k]. cbn [fst].
    apply generate_long.
Qed.

Lemma generate_invalid_size (qrData : string) (k : custom) (z : Z) :
  content_ok qrData = true ->
  width (merge k) = Int z -> z <> 0 -> z < 64 \/ 2048 < z ->
  invalid_size (generate qrData k) /\ encoderCalls (generate qrData k) = [].
Proof.
  unfold content_ok. intros Hok Hw Hz Hrange.
  apply andb_prop in Hok as [Hok Hlen]. apply andb_prop in Hok as [Hne Hurl].
  apply negb_true_iff in Hne, Hurl, Hlen.
  unfold QrCodeApi.generate. rewrite Hne, Hurl, Hlen, Hw. cbn [truthy lt gt].
  assert (Ht : negb (z =? 0) && ((z <? 64) || (2048 <? z)) = true).
  { apply andb_true_intro. split.
    - apply negb_true_iff, Z.eqb_neq, Hz.
    - apply orb_true_iff. destruct Hrange; [left | right]; lia. }
  rewrite Ht. split; [| reflexivity].
  split; [reflexivity |]. eexists. split; [reflexivity |].
  cbn. auto.
Qed.

(** C3, as amended: a GET or POST request whose content passes the earlier
    checks (present, well formed when it starts with http, at most 2048
    characters) and whose effective size is a number other than zero,
    below 64 or above 2048, is answered with status 400 and the body
    "Invalid size" naming the range "64-2048 pixels", and no call of the
    encoder is made. *)
Theorem invalid_size_rejected (r : request) (z : Z) :
  method r = "GET" \/ method r = "POST" ->
  content_ok (content_of r) = true ->
  size_of r = Int z -> z <> 0 -> z < 64 \/ 2048 < z ->
  invalid_size (handler r) /\ encoderCalls (handler r) = [].
Proof.
  unfold content_of, size_of, QrCodeApi.handler.
  intros [Hm | Hm]; rewrite Hm; cbn [String.eqb Ascii.eqb Bool.eqb].
  - destruct (get_input (rq_query r)) as [qrData k]. cbn [fst snd].
    apply generate_invalid_size.
  - destruct (post_input (rq_body r)) as [qrData k]. cbn [fst snd].
    apply generate_invalid_size.
Qed.

Lemma not_invalid_size_other (st : nat) (msg : string)
    (rest : list (string * json)) (hs : list (string * string))
    (cs : list call) :
  msg <> "Invalid size" ->
  (forall v, ~ In ("error", v) rest) ->
  ~ invalid_size {| status := st; sent := Json (("error", JStr msg) :: rest);
                    headers := hs; encoderCalls := cs |}.
Proof.
  intros Hmsg Hrest (_ & fields & Hsent & Hin & _).
  cbn in Hsent. injection Hsent as <-.
  destruct Hin as [Heq | Hin].
  - injection Heq as Heq. contradiction.
  - exact (Hrest _ Hin).
Qed.

Lemma generate_check_skipped (qrData : string) (k : custom) :
  truthy (width (merge k))
  && (lt (width (merge k)) (Int 64) || gt (width (merge k)) (Int 2048))
  = false ->
  ~ invalid_size (generate qrData k).
Proof.
  intros Hw. unfold QrCodeApi.generate, handler_catch, reply.
  rewrite Hw.
  repeat match goal with
         | |- context [if ?b then _ else _] => destruct b
         | |- context [match ?a with Encoded _ => _ | Failed _ => _ end] =>
             destruct a
         end;
    try (apply not_invalid_size_other;
         [discriminate
         | intros v Hin; cbn in Hin;
           repeat (destruct Hin as [Hin | Hin]; [discriminate Hin |]);
           exact Hin]);
    intros (Hst & fields & Hsent & _); discriminate.
Qed.

Lemma generate_proceeds (qrData : string) (k : custom) :
  content_ok qrData = true ->
  truthy (width (merge k)) = false ->
  level_ok (merge k) = true ->
  exists c, encoderCalls (generate qrData k) = [c]
            /\ call_config c = merge k
            /\ (forall bytes,
                   (if String.eqb (type (merge k)) "svg"
                    then QRCode_toString qrData (merge k)
                    else QRCode_toBuffer qrData (merge k)) = Encoded bytes ->
                   status (generate qrData k) = 200%nat
                   /\ sent (generate qrData k) = Image bytes).
Proof.
  unfold content_ok, level_ok. intros Hok Hw Hl.
  apply andb_prop in Hok as [Hok Hlen]. apply andb_prop in Hok as [Hne Hurl].
  apply negb_true_iff in Hne, Hurl, Hlen.
  unfold QrCodeApi.generate. rewrite Hne, Hurl, Hlen, Hw. cbn [andb].
  assert (Hlv : negb (String.eqb (errorCorrectionLevel (merge k)) "")
                && negb (existsb (String.eqb (errorCorrectionLevel (merge k)))
                                 ["L"; "M"; "Q"; "H"]) = false).
  { apply orb_true_iff in Hl as [Hl | Hl]; rewrite Hl; cbn;
      [reflexivity | apply andb_false_r]. }
  rewrite Hlv.
  destruct (String.eqb (type (merge k)) "svg").
  - eexists. split; [| split].
    + destruct (QRCode_toString qrData (merge k)); unfold handler_catch;
        repeat match goal with
               | |- context [if ?b then _ else _] => destruct b
               end; reflexivity.
    + reflexivity.
    + intros bytes ->. split; reflexivity.
  - eexists. split; [| split].
    + destruct (QRCode_toBuffer qrData (merge k)); unfold handler_catch;
        repeat match goal with
               | |- context [if ?b then _ else _] => destruct b
               end; reflexivity.
    + reflexivity.
    + intros bytes ->. split; reflexivity.
Qed.

(** C10: for a GET request whose size parameter parseInt turns into NaN,
    both range comparisons against NaN are false and the response is never
    the invalid-size one; when the parameter is not the empty string and
    the content and the error-correction level pass their checks, the
    encoder is called, once, with a configuration whose width is NaN, and
    what it encodes is sent with status 200. *)
Theorem nan_size_not_rejected (r : request) (size : string) :
  method r = "GET" ->
  q_size (rq_query r) = Some size ->
  parseInt size = NaN ->
  lt NaN (Int 64) = false
  /\ gt NaN (Int 2048) = false
  /\ ~ invalid_size (handler r)
  /\ (size <> "" ->
      content_ok (content_of r) = true ->
      level_ok (config_of r) = true ->
      exists c, encoderCalls (handler r) = [c]
                /\ width (call_config c) = NaN
                /\ (forall bytes,
                      (if String.eqb (type (config_of r)) "svg"
                       then QRCode_toString (content_of r) (config_of r)
                       else QRCode_toBuffer (content_of r) (config_of r))
                      = Encoded bytes ->
                      status (handler r) = 200%nat
                      /\ sent (handler r) = Image bytes)).
Proof.
  intros Hm Hsize Hnan.
  split; [reflexivity |]. split; [reflexivity |].
  unfold content_of, config_of, QrCodeApi.handler. rewrite Hm.
  cbn [String.eqb Ascii.eqb Bool.eqb].
  unfold get_input. rewrite Hsize. cbn [fst snd].
  destruct size as [| a size'].
  - split; [| intros H; contradiction H; reflexivity].
    apply generate_check_skipped. reflexivity.
  - cbn [JS.given_str String.eqb option_map].
    set (k := {| c_errorCorrectionLevel := _ |}).
    assert (Hw : width (merge k) = NaN).
    { unfold merge, k. cbn. exact Hnan. }
    split.
    + apply generate_check_skipped. rewrite Hw. reflexivity.
    + intros _ Hok Hl.
      destruct (generate_proceeds _ k Hok) as (c & Hc & Hcfg & Hsent); auto.
      * rewrite Hw. reflexivity.
      * exists c. split; [exact Hc |]. split; [| exact Hsent].
        rewrite Hcfg. exact Hw.
Qed.

End Handler.

(** The handler with an encoder that always answers. *)
Local Abbreviation served :=
  (handler Samples.stubEncoder Samples.stubEncoder Samples.stubETag false 0).

(** C4, witness: a content of 2049 characters. *)
Lemma long_content_rejected_witness :
  let r := Samples.getRequest
             {| q_data := Some (String.concat "" (replicate 2049 "a"));
                q_url := None; q_size := None; q_format := None;
                q_errorLevel := None |} in
  status (served r) = 400%nat /\ encoderCalls (served r) = [].
Proof.
  apply (long_content_rejected Samples.stubEncoder Samples.stubEncoder
           Samples.stubETag false 0).
  vm_compute. lia.
Defined.

(** C3, witness: a size of 5000 pixels. *)
Lemma invalid_size_rejected_witness :
  let r := Samples.getRequest
             {| q_data := Some "https://example.org/ar"; q_url := None;
                q_size := Some "5000"; q_format := None;
                q_errorLevel := None |} in
  invalid_size (served r) /\ encoderCalls (served r) = [].
Proof.
  apply (invalid_size_rejected Samples.stubEncoder Samples.stubEncoder
           Samples.stubETag false 0 _ 5000).
  - left. reflexivity.
  - reflexivity.
  - reflexivity.
  - lia.
  - lia.
Defined.

(** C3, as stated, fails: with the size 0, which is below 64, the handler
    skips the range check, calls the encoder and answers 200; and with a
    size of 10 but no content, the answer is a 400 whose body does not
    name the range. *)
Lemma zero_size_not_rejected :
  let r0 := Samples.getRequest
              {| q_data := Some "hello"; q_url := None; q_size := Some "0";
                 q_format := None; q_errorLevel := None |} in
  let r1 := Samples.getRequest
              {| q_data := None; q_url := None; q_size := Some "10";
                 q_format := None; q_errorLevel := None |} in
  (size_of r0 = Int 0
   /\ lt (size_of r0) (Int 64) = true
   /\ status (served r0) = 200%nat
   /\ encoderCalls (served r0) = [toBuffer "hello" (config_of r0)]
   /\ ~ invalid_size (served r0))
  /\ (size_of r1 = Int 10
      /\ status (served r1) = 400%nat
      /\ ~ invalid_size (served r1)).
Proof.
  cbv zeta. repeat split.
  - intros (Hst & _). vm_compute in Hst. discriminate Hst.
  - intros (_ & fields & Hsent & Hin & _).
    vm_compute in Hsent. injection Hsent as <-.
    cbn in Hin. destruct Hin as [Hin | [Hin | []]]; discriminate Hin.
Qed.

(** C10, witness: the size "abc". *)
Lemma nan_size_not_rejected_witness :
  let r := Samples.getRequest
             {| q_data := Some "hello"; q_url := None; q_size := Some "abc";
                q_format := None; q_errorLevel := None |} in
  let answer := served r in
  ~ invalid_size answer
  /\ status answer = 200%nat
  /\ exists c, encoderCalls answer = [c] /\ width (call_config c) = NaN.
Proof.
  destruct (nan_size_not_rejected Samples.stubEncoder Samples.stubEncoder
              Samples.stubETag false 0
              (Samples.getRequest
                 {| q_data := Some "hello"; q_url := None;
                    q_size := Some "abc"; q_format := None;
                    q_errorLevel := None |}) "abc")
    as (_ & _ & Hnot & Hgen); [reflexivity | reflexivity | reflexivity |].
  destruct Hgen as (c & Hc & Hw & Hsent);
    [discriminate | reflexivity | reflexivity |].
  destruct (Hsent "image" eq_refl) as [Hst _].
  cbv zeta. split; [exact Hnot |]. split; [exact Hst |].
  exists c. split; assumption.
Defined.

End QrCodeApiFacts.

(** ** Arrays cut to their last elements *)

Module SliceFacts.
Import JS.

Lemma slice_last_length {A} (n : nat) (l : list A) :
  length (slice_last n l) = Nat.min n (length l).
Proof. unfold slice_last. rewrite length_drop. lia. Qed.

Lemma slice_last_short {A} (n : nat) (l : list A) :
  (length l <= n)%nat -> slice_last n l = l.
Proof.
  intros H. unfold slice_last.
  replace (length l - n)%nat with 0%nat by lia. apply drop_0.
Qed.

(** The conditional cut of the session endpoint is the plain cut. *)
Lemma slice_last_capped {A} (n : nat) (l : list A) :
  (if (n <? length l)%nat then slice_last n l else l) = slice_last n l.
Proof.
  destruct (Nat.ltb_spec n (length l)); [reflexivity |].
  symmetry. apply slice_last_short. lia.
Qed.

(** Cutting after every push keeps what one cut at the end keeps. *)
Lemma slice_last_snoc {A} (n : nat) (l : list A) (x : A) :
  (0 < n)%nat -> slice_last n (slice_last n l ++ [x]) = slice_last n (l ++ [x]).
Proof.
  intros Hn. destruct (Nat.le_gt_cases (length l) n) as [Hle | Hgt].
  - rewrite (slice_last_short n l Hle). reflexivity.
  - unfold slice_last at 1 3. rewrite !length_app, slice_last_length.
    cbn [length]. unfold slice_last.
    rewrite (drop_app_le l [x]) by lia.
    rewrite (drop_app_le (drop _ l) [x]) by (rewrite length_drop; lia).
    rewrite drop_drop. f_equal. f_equal. lia.
Qed.

Lemma slice_last_app {A} (n : nat) (l k : list A) :
  (0 < n)%nat ->
  slice_last n (slice_last n l ++ k) = slice_last n (l ++ k).
Proof.
  intros Hn. revert l. induction k as [| x k IH]; intros l.
  - rewrite !app_nil_r. apply slice_last_short.
    rewrite slice_last_length. lia.
  - replace (slice_last n l ++ x :: k)
      with ((slice_last n l ++ [x]) ++ k) by (rewrite <- app_assoc; reflexivity).
    replace (l ++ x :: k) with ((l ++ [x]) ++ k)
      by (rewrite <- app_assoc; reflexivity).
    rewrite <- (IH (slice_last n l ++ [x])), <- (IH (l ++ [x])).
    rewrite slice_last_snoc by exact Hn. reflexivity.
Qed.

(** The cut is a suffix: only the oldest elements are dropped. *)
Lemma slice_last_suffix {A} (n : nat) (l : list A) :
  exists dropped, l = dropped ++ slice_last n l.
Proof.
  exists (take (length l - n) l). unfold slice_last.
  symmetry. apply take_drop.
Qed.

End SliceFacts.

(** ** The session manager *)

Module SessionManagerFacts.
Import JS SessionManager SliceFacts.

Lemma handleSpecialInteractions_keeps (type : string) (d : obj) (now : Z)
    (s : t) :
  let s' := handleSpecialInteractions type d now s in
  interactions s' = interactions s
  /\ localStorage s' = localStorage s
  /\ sessionId s' = sessionId s
  /\ timeoutId s' = timeoutId s
  /\ (sessionState s <> INACTIVE -> sessionState s' <> INACTIVE).
Proof.
  unfold handleSpecialInteractions.
  destruct (String.eqb type AR_START); [cbn; repeat split; try reflexivity; try congruence |].
  destruct (String.eqb type AR_END).
  - destruct (sessionState s) eqn:E; cbn; rewrite ?E;
      repeat split; try reflexivity; try congruence.
  - destruct (String.eqb type ERROR_OCCURRED); cbn; repeat split; try reflexivity; try congruence.
Qed.

Lemma saveSessionData_keeps (now : Z) (s : t) :
  let s' := saveSessionData now s in
  interactions s' = interactions s
  /\ sessionState s' = sessionState s
  /\ sessionId s' = sessionId s
  /\ timeoutId s' = timeoutId s
  /\ data s' = data s
  /\ present (localStorage s') = present (localStorage s)
  /\ writable (localStorage s') = writable (localStorage s).
Proof.
  unfold saveSessionData.
  destruct (present (localStorage s)) eqn:Hp; cbn; [| rewrite Hp; auto 10].
  destruct (writable (localStorage s)) eqn:Hw; cbn; rewrite ?Hp, ?Hw; auto 10.
Qed.

Lemma saveSessionData_item (now : Z) (s : t) :
  present (localStorage s) = true -> writable (localStorage s) = true ->
  item (localStorage (saveSessionData now s))
  = Some {| si_sessionData := data s;
            si_interactions := slice_last 50 (interactions s);
            si_sessionState := sessionState s;
            si_lastSaved := now |}.
Proof.
  intros Hp Hw. unfold saveSessionData. rewrite Hp, Hw. reflexivity.
Qed.

(** What one call of [trackInteraction] does to a started session. *)
Lemma trackInteraction_spec (id type : string) (d : obj) (now : Z) (s : t) :
  sessionState s <> INACTIVE ->
  let s' := trackInteraction id type d now s in
  interactions s' = interactions s ++ [newInteraction s id type d now]
  /\ sessionState s' <> INACTIVE
  /\ sessionId s' = sessionId s
  /\ timeoutId s' = Some (now + sessionTimeout)
  /\ present (localStorage s') = present (localStorage s)
  /\ writable (localStorage s') = writable (localStorage s)
  /\ (present (localStorage s) = true -> writable (localStorage s) = true ->
      exists info, item (localStorage s') = Some info
                   /\ si_interactions info = slice_last 50 (interactions s')).
Proof.
  intros Hst. unfold trackInteraction.
  destruct (sessionState s) eqn:E; [contradiction | | | |];
    match goal with
    | |- context [handleSpecialInteractions ?ty ?d ?n ?x] =>
        pose proof (handleSpecialInteractions_keeps ty d n x) as Hk;
        cbv zeta in Hk; destruct Hk as (Hi & Hl & Hs & Ht & Hn);
        rewrite Hi, Hl, Hs, Ht;
        match x with
        | notifyListeners _ (saveSessionData ?n' ?y) =>
            pose proof (saveSessionData_keeps n' y) as Hv;
            pose proof (saveSessionData_item n' y) as Hitem;
            cbv zeta in Hv; destruct Hv as (Hi' & Hs' & Hsid & Ht' & _ & Hp & Hw)
        end
    end;
    cbn in *; rewrite ?Hi', ?Hsid, ?Ht', ?Hp, ?Hw; cbn;
    (repeat split; auto;
     [ apply Hn; rewrite Hs'; cbn; rewrite E; discriminate
     | intros Hp' Hw'; eexists; split; [apply Hitem; assumption | reflexivity] ]).
Qed.

Lemma trackAll_app (a b : list (string * string * obj * Z)) (s : t) :
  trackAll (a ++ b) s = trackAll b (trackAll a s).
Proof.
  revert s. induction a as [| [[[id ty] d] now] a IH]; intros s;
    [reflexivity |]. cbn. apply IH.
Qed.

Lemma trackAll_spec (calls : list (string * string * obj * Z)) (s : t) :
  sessionState s <> INACTIVE ->
  let s' := trackAll calls s in
  interactions s' = interactions s ++ map (recorded s) calls
  /\ sessionState s' <> INACTIVE
  /\ sessionId s' = sessionId s
  /\ present (localStorage s') = present (localStorage s)
  /\ writable (localStorage s') = writable (localStorage s).
Proof.
  revert s. induction calls as [| [[[id ty] d] now] calls IH]; intros s Hst.
  - cbn. rewrite app_nil_r. auto.
  - cbn [trackAll map].
    pose proof (trackInteraction_spec id ty d now s Hst) as Hk.
    cbv zeta in Hk. destruct Hk as (Hi & Hn & Hsid & _ & Hp & Hw & _).
    specialize (IH _ Hn). cbv zeta in IH.
    destruct IH as (Hi2 & Hn2 & Hsid2 & Hp2 & Hw2).
    rewrite Hi2, Hi, Hsid2, Hsid, Hp2, Hp, Hw2, Hw, <- app_assoc.
    repeat split; auto. do 2 f_equal.
    apply map_ext. intros [[[id' ty'] d'] now']. unfold recorded, newInteraction.
    rewrite Hsid. reflexivity.
Qed.

(** After at least one call, the snapshot in local storage holds the last
    fifty of the interactions in memory. *)
Lemma trackAll_snapshot (calls : list (string * string * obj * Z)) (s : t) :
  sessionState s <> INACTIVE ->
  present (localStorage s) = true -> writable (localStorage s) = true ->
  calls <> [] ->
  exists info, item (localStorage (trackAll calls s)) = Some info
               /\ si_interactions info
                  = slice_last 50 (interactions (trackAll calls s)).
Proof.
  intros Hst Hp Hw Hne.
  destruct (exists_last Hne) as (front & [[[id ty] d] now] & ->).
  rewrite trackAll_app. cbn [trackAll].
  pose proof (trackAll_spec front s Hst) as Hk. cbv zeta in Hk.
  destruct Hk as (_ & Hn & _ & Hp' & Hw').
  pose proof (trackInteraction_spec id ty d now _ Hn) as Ht. cbv zeta in Ht.
  destruct Ht as (_ & _ & _ & _ & _ & _ & Hitem).
  apply Hitem; congruence.
Qed.

End SessionManagerFacts.

(** ** Maps in insertion order *)

Module JSMapFacts.
Import JSMap.

Lemma get_set_eq {V} (k : string) (v : V) (m : JSMap.t V) :
  get k (set k v m) = Some v.
Proof.
  induction m as [| [k' v'] m IH]; cbn.
  - rewrite String.eqb_refl. reflexivity.
  - destruct (String.eqb k k') eqn:E; cbn; rewrite E; [reflexivity | exact IH].
Qed.

Lemma get_set_ne {V} (k k' : string) (v : V) (m : JSMap.t V) :
  k <> k' -> get k' (set k v m) = get k' m.
Proof.
  intros Hne. induction m as [| [k0 v0] m IH]; cbn.
  - destruct (String.eqb_spec k' k); [congruence | reflexivity].
  - destruct (String.eqb_spec k k0) as [-> | Hk]; cbn.
    + destruct (String.eqb_spec k' k0); [congruence | reflexivity].
    + rewrite IH. reflexivity.
Qed.

(** A deletion only removes: what is still found was there before. *)
Lemma get_delete {V} (k k' : string) (m : JSMap.t V) (v : V) :
  get k' (delete k m) = Some v -> get k' m = Some v.
Proof.
  induction m as [| [k0 v0] m IH]; cbn; [auto |].
  destruct (String.eqb_spec k k0) as [-> | Hk]; cbn.
  - intros H. destruct (String.eqb_spec k' k0) as [-> | Hk'].
    + clear IH. exfalso. revert H.
      induction m as [| [k1 v1] m IH]; cbn; [discriminate |].
      destruct (String.eqb_spec k0 k1) as [-> | Hk1]; cbn; [exact IH |].
      destruct (String.eqb_spec k0 k1); [contradiction | exact IH].
    + auto.
  - destruct (String.eqb k' k0); auto.
Qed.

Lemma get_delete_eq {V} (k : string) (m : JSMap.t V) :
  get k (delete k m) = None.
Proof.
  induction m as [| [k0 v0] m IH]; cbn; [reflexivity |].
  destruct (String.eqb_spec k k0) as [-> | Hk]; cbn; [exact IH |].
  destruct (String.eqb_spec k k0); [contradiction | exact IH].
Qed.

End JSMapFacts.

(** ** The session endpoint *)

Module SessionApiFacts.
Import JS SessionApi SliceFacts JSMapFacts.

Lemma addInteractionToSession_get (sid type : string) (d : interactionData)
    (id : string) (now : Z) (st : store) :
  JSMap.get sid (interactions (snd (addInteractionToSession sid type d id now st)))
  = Some (slice_last maxInteractionsPerSession
            (default [] (JSMap.get sid (interactions st))
             ++ [newInteraction sid type d id now])).
Proof.
  unfold addInteractionToSession. cbn [snd interactions].
  rewrite slice_last_capped. apply get_set_eq.
Qed.

Lemma addInteractionToSession_other (sid sid' type : string)
    (d : interactionData) (id : string) (now : Z) (st : store) :
  sid <> sid' ->
  JSMap.get sid' (interactions (snd (addInteractionToSession sid type d id now st)))
  = JSMap.get sid' (interactions st).
Proof.
  intros Hne. unfold addInteractionToSession. cbn [snd interactions].
  apply get_set_ne, Hne.
Qed.

Lemma addInteractionToSession_bounded (sid type : string)
    (d : interactionData) (id : string) (now : Z) (st : store) :
  bounded st -> bounded (snd (addInteractionToSession sid type d id now st)).
Proof.
  intros Hb sid' l. destruct (String.eqb_spec sid sid') as [<- | Hne].
  - rewrite addInteractionToSession_get. intros [= <-].
    rewrite slice_last_length. lia.
  - rewrite addInteractionToSession_other by exact Hne. apply Hb.
Qed.

Lemma delete_session_bounded (st : store) (sid : string) :
  bounded st -> bounded (delete_session st sid).
Proof.
  intros Hb sid' l H. cbn in H. apply get_delete in H. exact (Hb _ _ H).
Qed.

Lemma delete_sessions_bounded (sids : list string) (st : store) :
  bounded st -> bounded (fold_left delete_session sids st).
Proof.
  revert st. induction sids as [| sid sids IH]; intros st Hb; [exact Hb |].
  cbn. apply IH, delete_session_bounded, Hb.
Qed.

Lemma cleanupOldSessions_bounded (now : Z) (st : store) :
  bounded st -> bounded (cleanupOldSessions now st).
Proof.
  intros Hb. unfold cleanupOldSessions.
  match goal with
  | |- context [if ?b then _ else _] => destruct b
  end; repeat apply delete_sessions_bounded; exact Hb.
Qed.

Lemma serve_bounded (r : request) (st : store) :
  bounded st -> bounded (serve r st).
Proof.
  intros Hb. destruct r as [ua extra initial sid id now
                           | sid type d id now | sid | now]; cbn [serve].
  - unfold handleCreateSession. cbn [snd].
    apply cleanupOldSessions_bounded.
    assert (Hb1 : bounded {| sessions := JSMap.set sid
                               {| s_sessionId := sid; s_state := "active";
                                  s_startTime := now; s_lastActivity := now;
                                  s_userAgent := or_unknown ua;
                                  s_extra := extra |} (sessions st);
                             interactions := JSMap.set sid [] (interactions st) |}).
    { intros sid' l. cbn [interactions].
      destruct (String.eqb_spec sid sid') as [<- | Hne].
      - rewrite get_set_eq. intros [= <-]. cbn. lia.
      - rewrite get_set_ne by exact Hne. apply Hb. }
    destruct initial as [[ty d] |]; [| exact Hb1].
    apply addInteractionToSession_bounded, Hb1.
  - unfold handleAddInteraction.
    destruct (JS.given_str sid) as [s |]; [| exact Hb].
    destruct (JSMap.get s (sessions st)); [| exact Hb].
    destruct (existsb _ _); [| exact Hb].
    pose proof (addInteractionToSession_bounded s type d id now st Hb) as H.
    destruct (addInteractionToSession s type d id now st). exact H.
  - unfold handleDeleteSession.
    destruct (JS.given_str sid) as [s |]; [| exact Hb].
    destruct (JSMap.get s (sessions st)); cbn [snd];
      apply delete_session_bounded, Hb.
  - apply cleanupOldSessions_bounded, Hb.
Qed.

(** Whatever requests the endpoint has served since the process started,
    no session has more than a hundred interactions stored. *)
Lemma store_bounded (rs : list request) :
  bounded (fold_left (fun st r => serve r st) rs empty).
Proof.
  assert (H : forall st, bounded st ->
                         bounded (fold_left (fun st r => serve r st) rs st)).
  { induction rs as [| r rs IH]; intros st Hb; [exact Hb |].
    cbn. apply IH, serve_bounded, Hb. }
  apply H. intros sid l. cbn. discriminate.
Qed.

(** After at least one more interaction, the store holds the last hundred
    of the session's interactions, old and new. *)
Lemma addAll_get (sid : string) (c : string * interactionData * string * Z)
    (calls : list (string * interactionData * string * Z)) (st : store) :
  JSMap.get sid (interactions (addAll sid (c :: calls) st))
  = Some (slice_last maxInteractionsPerSession
            (default [] (JSMap.get sid (interactions st))
             ++ map (recorded sid) (c :: calls))).
Proof.
  revert c st. induction calls as [| c' calls IH]; intros [[[ty d] id] now] st.
  - cbn [addAll map recorded]. apply addInteractionToSession_get.
  - change (addAll sid ((ty, d, id, now) :: c' :: calls) st)
      with (addAll sid (c' :: calls)
              (snd (addInteractionToSession sid ty d id now st))).
    rewrite IH, addInteractionToSession_get. cbn [from_option Datatypes.id].
    f_equal. rewrite slice_last_app by (unfold maxInteractionsPerSession; lia).
    rewrite <- app_assoc. reflexivity.
Qed.

End SessionApiFacts.

(** ** Bounded interaction records and session expiry *)

Module SessionFacts.
Import JS SliceFacts.

Section Bounded.
Import SessionManager.

(** C1: while a started manager tracks interactions, with local storage
    available, the snapshot in local storage holds the last 50 of the
    interactions in memory, nothing is dropped in memory, and the count
    of the statistics is the number in memory; the list that the session
    endpoint stores for a session is the last 100 of the interactions
    recorded for it, and its count is that length. After exactly 100
    interactions these lengths are 50 and 100, and the manager's count is
    100 more than before. No list stored by the endpoint is ever longer
    than 100. *)
Theorem interaction_lists_bounded
    (s : SessionManager.t) (calls : list (string * string * obj * Z))
    (now : Z) (st : SessionApi.store) (sid : string)
    (add : string * SessionApi.interactionData * string * Z)
    (adds : list (string * SessionApi.interactionData * string * Z)) :
  sessionState s <> INACTIVE ->
  present (localStorage s) = true ->
  writable (localStorage s) = true ->
  calls <> [] ->
  let s' := trackAll calls s in
  let st' := SessionApi.addAll sid (add :: adds) st in
  let before := default [] (JSMap.get sid (SessionApi.interactions st)) in
  (exists info,
      item (localStorage s') = Some info
      /\ si_interactions info = slice_last 50 (interactions s')
      /\ (exists dropped, interactions s' = dropped ++ si_interactions info)
      /\ length (si_interactions info)
         = Nat.min 50 (length (interactions s) + length calls))
  /\ interactions s'
     = interactions s ++ map (SessionManager.recorded s) calls
  /\ st_interactionCount (getSessionStats now s')
     = (length (interactions s) + length calls)%nat
  /\ (exists stored,
        JSMap.get sid (SessionApi.interactions st') = Some stored
        /\ stored = slice_last 100
                      (before ++ map (SessionApi.recorded sid) (add :: adds))
        /\ (exists dropped,
              before ++ map (SessionApi.recorded sid) (add :: adds)
              = dropped ++ stored)
        /\ length stored
           = Nat.min 100 (length before + length (add :: adds))
        /\ SessionApi.calculateSessionStats sid st' = length stored)
  /\ (forall rs sid' l,
        JSMap.get sid' (SessionApi.interactions
                          (fold_left (fun st r => SessionApi.serve r st) rs
                                     SessionApi.empty)) = Some l ->
        (length l <= 100)%nat).
Proof.
  intros Hst Hp Hw Hne s' st' before.
  pose proof (SessionManagerFacts.trackAll_spec calls s Hst) as Hk.
  cbv zeta in Hk. destruct Hk as (Hi & _).
  destruct (SessionManagerFacts.trackAll_snapshot calls s Hst Hp Hw Hne)
    as (info & Hitem & Hsi).
  subst s' st' before.
  split; [| split; [| split; [| split]]].
  - exists info. split; [exact Hitem |]. split; [exact Hsi |]. split.
    + rewrite Hsi. apply slice_last_suffix.
    + rewrite Hsi, slice_last_length, Hi, length_app, length_map.
      reflexivity.
  - exact Hi.
  - cbn [getSessionStats st_interactionCount].
    rewrite Hi, length_app, length_map. reflexivity.
  - pose proof (SessionApiFacts.addAll_get sid add adds st) as Hget.
    eexists. split; [exact Hget |]. split; [reflexivity |]. split; [| split].
    + apply slice_last_suffix.
    + rewrite slice_last_length, length_app, length_map. reflexivity.
    + unfold SessionApi.calculateSessionStats. rewrite Hget. reflexivity.
  - intros rs sid' l. apply SessionApiFacts.store_bounded.
Qed.

End Bounded.

(** C1, witness: exactly one hundred interactions tracked by a manager
    that holds its page visit, and exactly one hundred recorded for a new
    session of the endpoint. *)
Lemma interaction_lists_bounded_witness :
  let s' := SessionManager.trackAll (Samples.sampleCalls 100) Samples.sampleManager in
  let st' := SessionApi.addAll "sess_0_abc"
               ((SessionManager.QR_SCAN, Samples.sampleData, "int_0_b", 0)
                :: Samples.sampleAdds 99) Samples.sampleStore in
  (exists info,
      SessionManager.item (SessionManager.localStorage s') = Some info
      /\ length (SessionManager.si_interactions info) = 50%nat)
  /\ length (SessionManager.interactions s') = 101%nat
  /\ SessionManager.st_interactionCount
       (SessionManager.getSessionStats 1000 s') = 101%nat
  /\ (exists stored,
        JSMap.get "sess_0_abc" (SessionApi.interactions st') = Some stored
        /\ length stored = 100%nat
        /\ SessionApi.calculateSessionStats "sess_0_abc" st' = 100%nat).
Proof.
  destruct (interaction_lists_bounded Samples.sampleManager (Samples.sampleCalls 100) 1000
              Samples.sampleStore "sess_0_abc"
              (SessionManager.QR_SCAN, Samples.sampleData, "int_0_b", 0)
              (Samples.sampleAdds 99))
    as ((info & Hitem & _ & _ & Hlen) & Hmem & Hcount
        & (stored & Hget & _ & _ & Hslen & Hstats) & _).
  - discriminate.
  - reflexivity.
  - reflexivity.
  - discriminate.
  - cbv zeta. split; [| split; [| split]].
    + exists info. split; [exact Hitem |]. rewrite Hlen. reflexivity.
    + rewrite Hmem. reflexivity.
    + rewrite Hcount. reflexivity.
    + exists stored. split; [exact Hget |]. split.
      * rewrite Hslen. reflexivity.
      * rewrite Hstats, Hslen. reflexivity.
Defined.

End SessionFacts.

(** ** Session expiry *)

Module ExpiryFacts.
Import JS SessionManager.

Lemma endSession_spec (now : Z) (s : t) :
  sessionState s <> INACTIVE ->
  present (localStorage s) = true -> writable (localStorage s) = true ->
  let s' := endSession now s in
  sessionState s' = COMPLETED
  /\ timeoutId s' = None
  /\ sd_endTime (data s') = Some now
  /\ interactions s' = interactions s
  /\ present (localStorage s') = true
  /\ writable (localStorage s') = true
  /\ exists info, item (localStorage s') = Some info
                  /\ si_sessionState info = COMPLETED
                  /\ si_interactions info = slice_last 50 (interactions s)
                  /\ si_lastSaved info = now.
Proof.
  intros Hst Hp Hw. unfold endSession.
  destruct (sessionState s) eqn:E; [contradiction | | | |];
    unfold saveSessionData; cbn; rewrite Hp, Hw; cbn;
    (repeat split; auto; eexists; repeat split).
Qed.

(** A user-activity event re-arms the timer and leaves the rest of the
    manager alone. *)
Lemma updateActivity_spec (now : Z) (s : t) :
  let s' := updateActivity now s in
  timeoutId s' = Some (now + sessionTimeout)
  /\ sessionState s' = sessionState s
  /\ interactions s' = interactions s
  /\ localStorage s' = localStorage s.
Proof. repeat split. Qed.

(** Saving never removes the entry of local storage. *)
Lemma saveSessionData_leaves_item (now : Z) (s : t) :
  item (localStorage s) <> None ->
  item (localStorage (saveSessionData now s)) <> None.
Proof.
  intros H. unfold saveSessionData.
  destruct (present (localStorage s)); cbn; [| exact H].
  destruct (writable (localStorage s)); cbn; [discriminate | exact H].
Qed.

Lemma trackInteraction_leaves_item (id type : string) (d : obj) (now : Z)
    (s : t) :
  item (localStorage s) <> None ->
  item (localStorage (trackInteraction id type d now s)) <> None.
Proof.
  intros H. unfold trackInteraction.
  destruct (sessionState s); [exact H | | | |];
    match goal with
    | |- context [handleSpecialInteractions ?ty ?d ?n ?x] =>
        pose proof (SessionManagerFacts.handleSpecialInteractions_keeps
                      ty d n x) as Hk;
        cbv zeta in Hk; destruct Hk as (_ & Hl & _); rewrite Hl
    end;
    cbn [notifyListeners localStorage];
    apply saveSessionData_leaves_item; exact H.
Qed.

Lemma endSession_leaves_item (now : Z) (s : t) :
  item (localStorage s) <> None ->
  item (localStorage (endSession now s)) <> None.
Proof.
  intros H. unfold endSession.
  destruct (sessionState s); [exact H | | | |];
    cbn [notifyListeners localStorage];
    apply saveSessionData_leaves_item; exact H.
Qed.

Lemma elapse_leaves_item (now : Z) (s : t) :
  item (localStorage s) <> None ->
  item (localStorage (elapse now s)) <> None.
Proof.
  intros H. unfold elapse. destruct (timeoutId s) as [due |]; [| exact H].
  destruct (due <=? now); [apply endSession_leaves_item |]; exact H.
Qed.

(** C2, as amended: after a call of track() on a started session, the
    inactivity timer is due 30 minutes later; it does not fire before, and
    a user-activity event re-arms it for 30 minutes from that event: it
    does not fire before then, and it fires then. When the timer fires,
    30 minutes after the last call of track() or user-activity event,
    endSession runs: the session state becomes completed, the timer is
    cleared and, with local storage available, the final snapshot is
    written to local storage. A later end() keeps the state completed and
    writes the snapshot again: local storage is not cleared. Only
    clearSessionData removes the entry: it does so for every manager
    whose local storage exists, whereas track(), end(), a user-activity
    event and the timer never leave local storage without an entry when
    it held one. *)
Theorem inactivity_expiry
    (s : t) (id type : string) (d : obj) (tracked now later : Z) :
  sessionState s <> INACTIVE ->
  present (localStorage s) = true ->
  writable (localStorage s) = true ->
  tracked + sessionTimeout <= now ->
  let s1 := trackInteraction id type d tracked s in
  let s2 := elapse now s1 in
  let s3 := endSession later s2 in
  timeoutId s1 = Some (tracked + 30 * 60 * 1000)
  /\ (forall n, n < tracked + sessionTimeout -> elapse n s1 = s1)
  /\ (forall a n, n < a + sessionTimeout ->
                  elapse n (updateActivity a s1) = updateActivity a s1)
  /\ sessionState s2 = COMPLETED
  /\ timeoutId s2 = None
  /\ sd_endTime (data s2) = Some (tracked + sessionTimeout)
  /\ (exists info, item (localStorage s2) = Some info
                   /\ si_sessionState info = COMPLETED
                   /\ si_interactions info = slice_last 50 (interactions s1)
                   /\ si_lastSaved info = tracked + sessionTimeout)
  /\ sessionState s3 = COMPLETED
  /\ (exists info, item (localStorage s3) = Some info
                   /\ si_sessionState info = COMPLETED
                   /\ si_lastSaved info = later)
  /\ (forall a n, a + sessionTimeout <= n ->
        let sa := elapse n (updateActivity a s1) in
        sessionState sa = COMPLETED
        /\ timeoutId sa = None
        /\ sd_endTime (data sa) = Some (a + 30 * 60 * 1000)
        /\ exists info, item (localStorage sa) = Some info
                        /\ si_sessionState info = COMPLETED
                        /\ si_interactions info
                           = slice_last 50 (interactions s1)
                        /\ si_lastSaved info = a + 30 * 60 * 1000)
  /\ item (localStorage (clearSessionData s3)) = None
  /\ (forall m : t, present (localStorage m) = true ->
                    item (localStorage (clearSessionData m)) = None)
  /\ (forall (m : t) (id' type' : string) (d' : obj) (n : Z),
        item (localStorage m) <> None ->
        item (localStorage (trackInteraction id' type' d' n m)) <> None
        /\ item (localStorage (endSession n m)) <> None
        /\ item (localStorage (updateActivity n m)) <> None
        /\ item (localStorage (elapse n m)) <> None).
Proof.
  intros Hst Hp Hw Hdue s1 s2 s3.
  pose proof (SessionManagerFacts.trackInteraction_spec id type d tracked s Hst)
    as Hk.
  cbv zeta in Hk. fold s1 in Hk.
  destruct Hk as (_ & Hst1 & _ & Ht1 & Hp1 & Hw1 & _).
  rewrite Hp in Hp1. rewrite Hw in Hw1.
  assert (E2 : s2 = endSession (tracked + sessionTimeout) s1).
  { unfold s2, elapse. rewrite Ht1.
    destruct (Z.leb_spec (tracked + sessionTimeout) now); [reflexivity | lia]. }
  pose proof (endSession_spec (tracked + sessionTimeout) s1 Hst1 Hp1 Hw1)
    as H2.
  cbv zeta in H2. rewrite <- E2 in H2.
  destruct H2 as (Hc2 & Ht2 & He2 & Hi2 & Hp2 & Hw2 & info2 & Hitem2).
  assert (Hst2 : sessionState s2 <> INACTIVE) by (rewrite Hc2; discriminate).
  pose proof (endSession_spec later s2 Hst2 Hp2 Hw2) as H3.
  cbv zeta in H3. fold s3 in H3.
  destruct H3 as (Hc3 & _ & _ & _ & Hp3 & _ & info3 & Hitem3 & Hs3 & _ & Hl3).
  assert (Hclear : forall m : t, present (localStorage m) = true ->
                     item (localStorage (clearSessionData m)) = None).
  { intros m Hm. unfold clearSessionData.
    cbn [with_interactions with_data localStorage]. rewrite Hm. reflexivity. }
  split; [exact Ht1 |]. split; [| split].
  - intros n Hn. unfold elapse. rewrite Ht1.
    destruct (Z.leb_spec (tracked + sessionTimeout) n); [lia | reflexivity].
  - intros a n Hn. unfold elapse, updateActivity, resetSessionTimeout.
    cbn [timeoutId with_timeoutId].
    destruct (Z.leb_spec (a + sessionTimeout) n); [lia | reflexivity].
  - split; [exact Hc2 |]. split; [exact Ht2 |]. split; [exact He2 |].
    split; [exists info2; exact Hitem2 |]. split; [exact Hc3 |].
    split; [exists info3; auto |].
    split; [| split; [apply Hclear, Hp3 | split; [exact Hclear |]]].
    + intros a n Hn sa.
      destruct (updateActivity_spec a s1) as (Hta & Hsa & Hia & Hla).
      assert (Ea : sa = endSession (a + sessionTimeout) (updateActivity a s1)).
      { unfold sa, elapse. rewrite Hta.
        destruct (Z.leb_spec (a + sessionTimeout) n); [reflexivity | lia]. }
      assert (Hsta : sessionState (updateActivity a s1) <> INACTIVE)
        by (rewrite Hsa; exact Hst1).
      assert (Hpa : present (localStorage (updateActivity a s1)) = true)
        by (rewrite Hla; exact Hp1).
      assert (Hwa : writable (localStorage (updateActivity a s1)) = true)
        by (rewrite Hla; exact Hw1).
      pose proof (endSession_spec (a + sessionTimeout) _ Hsta Hpa Hwa) as Ha.
      cbv zeta in Ha. rewrite <- Ea in Ha.
      destruct Ha as (Hca & Htoa & Hea & _ & _ & _ & infoa & Hitema & Hssa
                      & Hsia & Hlsa).
      rewrite Hia in Hsia.
      split; [exact Hca |]. split; [exact Htoa |]. split; [exact Hea |].
      exists infoa. auto.
    + intros m id' type' d' n Hm.
      split; [apply trackInteraction_leaves_item, Hm |].
      split; [apply endSession_leaves_item, Hm |].
      split; [exact Hm | apply elapse_leaves_item, Hm].
Qed.

(** C2, witness: a scan tracked one minute after the start, and nothing
    for the next half hour; or else a mouse move 10 minutes after the
    scan, and nothing for the half hour after it. *)
Lemma inactivity_expiry_witness :
  let s1 := trackInteraction "int_60000_b" QR_SCAN [] 60000
              Samples.sampleManager in
  let s2 := elapse 1860000 s1 in
  let s3 := endSession 1900000 s2 in
  let moved := updateActivity 660000 s1 in
  sessionState s2 = COMPLETED
  /\ timeoutId s2 = None
  /\ (exists info, item (localStorage s2) = Some info
                   /\ si_sessionState info = COMPLETED)
  /\ sessionState s3 = COMPLETED
  /\ (exists info, item (localStorage s3) = Some info
                   /\ si_lastSaved info = 1900000)
  /\ elapse 2459999 moved = moved
  /\ sessionState (elapse 2460000 moved) = COMPLETED
  /\ item (localStorage (clearSessionData s3)) = None.
Proof.
  destruct (inactivity_expiry Samples.sampleManager "int_60000_b"
              QR_SCAN [] 60000 1860000 1900000)
    as (_ & _ & Hquiet & Hc2 & Ht2 & _ & (i2 & Hi2 & Hs2 & _) & Hc3
        & (i3 & Hi3 & _ & Hl3) & Hfires & Hclear & _).
  - discriminate.
  - reflexivity.
  - reflexivity.
  - vm_compute. discriminate.
  - cbv zeta. split; [exact Hc2 |]. split; [exact Ht2 |].
    split; [exists i2; split; assumption |]. split; [exact Hc3 |].
    split; [exists i3; split; assumption |].
    split; [apply Hquiet; vm_compute; reflexivity |].
    split; [| exact Hclear].
    apply (Hfires 660000 2460000). vm_compute. discriminate.
Defined.

(** C2, as stated, fails: the timer of a manager created at time 0 fires
    half an hour later and completes the session, yet after the next
    end() the session key of local storage still holds a snapshot; and
    with one user-activity event after 15 minutes, the session is still
    active at the half hour although track() was never called. *)
Lemma expiry_keeps_local_storage :
  let s0 := Samples.sampleManager in
  let s1 := elapse 1800000 s0 in
  let s2 := endSession 1800001 s1 in
  sessionState s1 = COMPLETED
  /\ item (localStorage s2) <> None
  /\ option_map si_sessionState (item (localStorage s2)) = Some COMPLETED
  /\ option_map (fun info => length (si_interactions info))
                (item (localStorage s2)) = Some 1%nat
  /\ sessionState (elapse 1800000 (updateActivity 900000 s0)) = ACTIVE.
Proof.
  cbv zeta. split; [vm_compute; reflexivity |].
  split; [vm_compute; discriminate |].
  split; [vm_compute; reflexivity |].
  split; vm_compute; reflexivity.
Qed.

End ExpiryFacts.

(** ** The QR service cache *)

Module QRServiceFacts.
Import JS QRService JSMapFacts.

Section Service.

Variable QR : Type.
Variable options : Type.
Variable forUrl : string -> options -> QR.
Variable validate : QR -> bool * list string.
Variable getContent : QR -> string.
Variable stringify : QR -> string.
Variable requestUrl : QR -> string.

Local Abbreviation generateForUrl :=
  (generateForUrl QR options forUrl validate getContent stringify requestUrl).
Local Abbreviation getCacheKey := (getCacheKey QR stringify).
Local Abbreviation state := (QRService.t QR).

Lemma cleanCache_requests (now : Z) (s : state) :
  requests QR (cleanCache QR now s) = requests QR s.
Proof.
  unfold cleanCache.
  match goal with
  | |- context [if ?b then _ else _] => destruct b
  end; reflexivity.
Qed.

Lemma addToCache_spec (key : string) (d : result QR) (now : Z) (s : state) :
  JSMap.get key (cache QR (addToCache QR key d now s))
  = Some {| data := d; timestamp := now |}
  /\ requests QR (addToCache QR key d now s) = requests QR s
  /\ errors QR (addToCache QR key d now s) = errors QR s.
Proof.
  unfold addToCache. cbn [cache with_cache requests errors].
  split; [apply get_set_eq |].
  destruct (cacheMaxSize <=? JSMap.size (cache QR s))%nat; [| auto].
  split; [apply cleanCache_requests |].
  unfold cleanCache.
  match goal with
  | |- context [if ?b then _ else _] => destruct b
  end; reflexivity.
Qed.

Lemma getFromCache_requests (key : string) (now : Z) (s : state) :
  requests QR (snd (getFromCache QR key now s)) = requests QR s.
Proof.
  unfold getFromCache. destruct (JSMap.get key (cache QR s)); [| reflexivity].
  destruct (cacheTimeout <? now - timestamp QR i); reflexivity.
Qed.

(** A call that finds an entry not older than the timeout returns it and
    changes nothing. *)
Lemma generateForUrl_hit (url : string) (o : options) (errs : list string)
    (res : result QR) (stamp : Z) (answer : fetched) (latency : Z)
    (v1 v2 : ErrorHandler.env) (now : Z) (s : state) :
  validate (forUrl url o) = (true, errs) ->
  JSMap.get (getCacheKey (forUrl url o)) (cache QR s)
  = Some {| data := res; timestamp := stamp |} ->
  now - stamp <= cacheTimeout ->
  generateForUrl url o answer latency v1 v2 now s = (Returns res, s).
Proof.
  intros Hv Hget Hfresh. unfold QRService.generateForUrl.
  rewrite Hv. cbn [negb]. unfold getFromCache. rewrite Hget.
  cbn [timestamp data].
  destruct (Z.ltb_spec cacheTimeout (now - stamp)); [lia | reflexivity].
Qed.

(** A call that finds no usable entry and is answered sends one request
    and stores what it returns under the time of the answer. *)
Lemma generateForUrl_miss (url : string) (o : options) (errs : list string)
    (gt dl : option string) (latency : Z) (v1 v2 : ErrorHandler.env)
    (now : Z) (s : state) :
  validate (forUrl url o) = (true, errs) ->
  fst (getFromCache QR (getCacheKey (forUrl url o)) now s) = None ->
  exists res s',
    generateForUrl url o (Ok gt dl) latency v1 v2 now s = (Returns res, s')
    /\ r_qrCode QR res = forUrl url o
    /\ r_createdAt QR res = now + latency
    /\ requests QR s' = requests QR s ++ [requestUrl (forUrl url o)]
    /\ JSMap.get (getCacheKey (forUrl url o)) (cache QR s')
       = Some {| data := res; timestamp := now + latency |}.
Proof.
  intros Hv Hmiss. unfold QRService.generateForUrl.
  rewrite Hv. cbn [negb].
  pose proof (getFromCache_requests (getCacheKey (forUrl url o)) now s) as Hr.
  destruct (getFromCache QR (getCacheKey (forUrl url o)) now s) as [c s0].
  cbn [fst snd] in Hmiss, Hr. subst c.
  cbn [generateQRCode].
  match goal with
  | |- context [addToCache QR ?k ?d ?n ?x] =>
      destruct (addToCache_spec k d n x) as (Hget & Hreq & _)
  end.
  eexists. eexists. split; [reflexivity |].
  split; [reflexivity |]. split; [reflexivity |].
  split; [| exact Hget].
  rewrite Hreq. cbn [requests]. rewrite Hr. reflexivity.
Qed.

(** C6: when generateForUrl, for a valid (content, config) pair that the
    cache does not hold, has generated a result, a second call for the
    same pair made no later than one hour after the result was cached
    returns that result and sends no request, whatever the API would
    answer; a call made after more than one hour sends a request again
    and returns the newly generated result. *)
Theorem cache_hit_then_expiry
    (url : string) (o : options) (errs : list string)
    (gt dl : option string) (latency : Z) (v1 v2 : ErrorHandler.env)
    (now : Z) (s : state) :
  validate (forUrl url o) = (true, errs) ->
  fst (getFromCache QR (getCacheKey (forUrl url o)) now s) = None ->
  exists res s1,
    generateForUrl url o (Ok gt dl) latency v1 v2 now s = (Returns res, s1)
    /\ requests QR s1 = requests QR s ++ [requestUrl (forUrl url o)]
    /\ (forall answer latency2 e1 e2 now2,
          now2 - (now + latency) <= 60 * 60 * 1000 ->
          generateForUrl url o answer latency2 e1 e2 now2 s1
          = (Returns res, s1))
    /\ (forall gt3 dl3 latency3 e1 e2 now3,
          60 * 60 * 1000 < now3 - (now + latency) ->
          exists res3 s3,
            generateForUrl url o (Ok gt3 dl3) latency3 e1 e2 now3 s1
            = (Returns res3, s3)
            /\ r_createdAt QR res3 = now3 + latency3
            /\ requests QR s3 = requests QR s1 ++ [requestUrl (forUrl url o)]).
Proof.
  intros Hv Hmiss.
  destruct (generateForUrl_miss url o errs gt dl latency v1 v2 now s Hv Hmiss)
    as (res & s1 & Hgen & _ & _ & Hreq & Hget).
  exists res, s1. split; [exact Hgen |]. split; [exact Hreq |]. split.
  - intros answer latency2 e1 e2 now2 Hfresh.
    apply (generateForUrl_hit url o errs res (now + latency)); auto.
  - intros gt3 dl3 latency3 e1 e2 now3 Hold.
    destruct (generateForUrl_miss url o errs gt3 dl3 latency3 e1 e2 now3 s1 Hv)
      as (res3 & s3 & Hgen3 & _ & Hc3 & Hreq3 & _).
    + unfold getFromCache. rewrite Hget. cbn [timestamp].
      destruct (Z.ltb_spec cacheTimeout (now3 - (now + latency)));
        [reflexivity | unfold cacheTimeout in *; lia].
    + exists res3, s3. auto.
Qed.

End Service.

(** C6, witness: a fresh service and the address of the experience. *)
Lemma cache_hit_then_expiry_witness :
  exists res s1,
    generateForUrl string unit Samples.urlEntity Samples.nonEmpty id id Samples.apiAddress
      "https://example.org/ar" tt (Ok (Some "12") (Some "22")) 40
      Samples.someEnv Samples.someEnv 1000
      (fresh string)
    = (Returns res, s1)
    /\ requests string s1
       = requests string (fresh string)
         ++ [Samples.apiAddress (Samples.urlEntity "https://example.org/ar" tt)]
    /\ (forall answer latency2 e1 e2 now2,
          now2 - (1000 + 40) <= 60 * 60 * 1000 ->
          generateForUrl string unit Samples.urlEntity Samples.nonEmpty id id Samples.apiAddress
            "https://example.org/ar" tt answer latency2 e1 e2 now2 s1
          = (Returns res, s1))
    /\ (forall gt3 dl3 latency3 e1 e2 now3,
          60 * 60 * 1000 < now3 - (1000 + 40) ->
          exists res3 s3,
            generateForUrl string unit Samples.urlEntity Samples.nonEmpty id id Samples.apiAddress
              "https://example.org/ar" tt (Ok gt3 dl3) latency3 e1 e2 now3 s1
            = (Returns res3, s3)
            /\ r_createdAt string res3 = now3 + latency3
            /\ requests string s3
               = requests string s1
                 ++ [Samples.apiAddress (Samples.urlEntity "https://example.org/ar" tt)]).
Proof.
  apply (cache_hit_then_expiry string unit Samples.urlEntity Samples.nonEmpty id id Samples.apiAddress
           "https://example.org/ar" tt [] (Some "12") (Some "22") 40
           Samples.someEnv Samples.someEnv 1000
           (fresh string)).
  - reflexivity.
  - reflexivity.
Defined.

End QRServiceFacts.

(** ** Maps in insertion order: deletions, sizes, sorting *)

Module JSMapMore.
Import JSMap JSMapFacts.

(** Deleting a list of keys, one [delete] for each. *)
Lemma get_delete_ne {V} (k k' : string) (m : JSMap.t V) :
  k <> k' -> get k' (delete k m) = get k' m.
Proof.
  intros Hne. induction m as [| [k0 v0] m IH]; cbn; [reflexivity |].
  destruct (String.eqb_spec k k0) as [-> | Hk]; cbn.
  - destruct (String.eqb_spec k' k0); [congruence | exact IH].
  - rewrite IH. reflexivity.
Qed.

Lemma get_In {V} (k : string) (m : JSMap.t V) (v : V) :
  get k m = Some v -> In (k, v) m.
Proof.
  induction m as [| [k0 v0] m IH]; cbn; [discriminate |].
  destruct (String.eqb_spec k k0) as [-> | Hk].
  - intros [= ->]. left. reflexivity.
  - intros H. right. exact (IH H).
Qed.

Lemma get_None {V} (k : string) (m : JSMap.t V) :
  get k m = None <-> ~ In k (map fst m).
Proof.
  induction m as [| [k0 v0] m IH]; cbn; [tauto |].
  destruct (String.eqb_spec k k0) as [-> | Hk].
  - split; [discriminate | intros H; exfalso; apply H; left; reflexivity].
  - rewrite IH. split; [intros H [E | E]; [congruence | exact (H E)] | tauto].
Qed.

Lemma In_delete {V} (k : string) (m : JSMap.t V) (e : string * V) :
  In e (delete k m) <-> In e m /\ fst e <> k.
Proof.
  induction m as [| [k0 v0] m IH]; cbn; [tauto |].
  destruct (String.eqb_spec k k0) as [-> | Hk]; cbn; rewrite IH.
  - split; [tauto |]. intros [[<- | H] Hne]; [cbn in Hne; congruence | tauto].
  - split; [| tauto]. intros [<- | H]; [| tauto]. cbn. split; [tauto | congruence].
Qed.

Lemma keys_delete {V} (k k' : string) (m : JSMap.t V) :
  In k' (map fst (delete k m)) <-> In k' (map fst m) /\ k' <> k.
Proof.
  rewrite !in_map_iff. split.
  - intros (e & <- & He). apply In_delete in He as [He Hne].
    split; [exists e; auto | exact Hne].
  - intros [(e & <- & He) Hne]. exists e. split; [reflexivity |].
    apply In_delete. auto.
Qed.

Lemma NoDup_delete {V} (k : string) (m : JSMap.t V) :
  NoDup (map fst m) -> NoDup (map fst (delete k m)).
Proof.
  induction m as [| [k0 v0] m IH]; cbn; [auto |].
  intros Hnd. apply NoDup_cons in Hnd as [Hnot Hnd].
  destruct (String.eqb_spec k k0) as [-> | Hk]; cbn; [auto |].
  apply NoDup_cons. split; [| auto].
  rewrite list_elem_of_In, keys_delete. rewrite list_elem_of_In in Hnot. tauto.
Qed.

Lemma length_delete_le {V} (k : string) (m : JSMap.t V) :
  (length (delete k m) <= length m)%nat.
Proof.
  induction m as [| [k0 v0] m IH]; cbn; [lia |].
  destruct (String.eqb k k0); cbn; lia.
Qed.

Lemma delete_absent {V} (k : string) (m : JSMap.t V) :
  ~ In k (map fst m) -> delete k m = m.
Proof.
  induction m as [| [k0 v0] m IH]; cbn; [reflexivity |].
  intros H. destruct (String.eqb_spec k k0) as [-> | Hk]; [tauto |].
  rewrite IH by tauto. reflexivity.
Qed.

Lemma length_delete_present {V} (k : string) (m : JSMap.t V) :
  NoDup (map fst m) -> In k (map fst m) ->
  S (length (delete k m)) = length m.
Proof.
  induction m as [| [k0 v0] m IH]; cbn; [tauto |].
  intros Hnd Hin. apply NoDup_cons in Hnd as [Hnot Hnd].
  rewrite list_elem_of_In in Hnot.
  destruct (String.eqb_spec k k0) as [-> | Hk]; cbn.
  - rewrite delete_absent by exact Hnot. reflexivity.
  - rewrite IH; [reflexivity | exact Hnd |]. destruct Hin; congruence.
Qed.

Local Abbreviation deletes ks m := (fold_left (fun c k => delete k c) ks m).

Lemma get_deletes {V} (ks : list string) (k : string) (m : JSMap.t V) :
  get k (deletes ks m) = if bool_decide (k ∈ ks) then None else get k m.
Proof.
  revert m. induction ks as [| k0 ks IH]; intros m; cbn; [reflexivity |].
  rewrite IH.
  destruct (decide (k0 = k)) as [-> | Hne].
  - rewrite (bool_decide_true (k ∈ k :: ks)) by apply list_elem_of_here.
    rewrite get_delete_eq. destruct (bool_decide (k ∈ ks)); reflexivity.
  - rewrite get_delete_ne by exact Hne.
    destruct (decide (k ∈ ks)) as [Hin | Hin].
    + rewrite !bool_decide_true; [reflexivity | | exact Hin].
      apply list_elem_of_further, Hin.
    + rewrite !bool_decide_false; [reflexivity | | exact Hin].
      intros H. apply elem_of_cons in H as [-> | H]; [congruence | tauto].
Qed.

Lemma In_deletes {V} (ks : list string) (m : JSMap.t V) (e : string * V) :
  In e (deletes ks m) <-> In e m /\ ~ In (fst e) ks.
Proof.
  revert m. induction ks as [| k0 ks IH]; intros m; cbn; [tauto |].
  rewrite IH, In_delete.
  split; [intros [[H1 H2] H3]; split; [exact H1 | intros [E | E]; [congruence | tauto]] |].
  intros [H1 H2]. split; [split; [exact H1 | intros E; apply H2; left; congruence] | tauto].
Qed.

Lemma NoDup_deletes {V} (ks : list string) (m : JSMap.t V) :
  NoDup (map fst m) -> NoDup (map fst (deletes ks m)).
Proof.
  revert m. induction ks as [| k0 ks IH]; intros m H; cbn; [exact H |].
  apply IH, NoDup_delete, H.
Qed.

Lemma length_deletes_le {V} (ks : list string) (m : JSMap.t V) :
  (length (deletes ks m) <= length m)%nat.
Proof.
  revert m. induction ks as [| k0 ks IH]; intros m; cbn; [lia |].
  pose proof (IH (delete k0 m)). pose proof (length_delete_le k0 m). lia.
Qed.

(** Deleting distinct keys that are all present removes one entry for
    each. *)
Lemma length_deletes {V} (ks : list string) (m : JSMap.t V) :
  NoDup (map fst m) -> NoDup ks -> (forall k, In k ks -> In k (map fst m)) ->
  (length (deletes ks m) + length ks = length m)%nat.
Proof.
  revert m. induction ks as [| k0 ks IH]; intros m Hm Hks Hsub; cbn; [lia |].
  apply NoDup_cons in Hks as [Hnot Hks]. rewrite list_elem_of_In in Hnot.
  rewrite <- (length_delete_present k0 m Hm) by (apply Hsub; left; reflexivity).
  rewrite <- (IH (delete k0 m)); [lia | apply NoDup_delete, Hm | exact Hks |].
  intros k Hk. apply keys_delete. split; [apply Hsub; right; exact Hk |].
  intros ->. contradiction.
Qed.

Lemma deletes_cons {V} (ks : list string) (e : string * V) (m : JSMap.t V) :
  deletes ks (e :: m)
  = if bool_decide (fst e ∈ ks) then deletes ks m else e :: deletes ks m.
Proof.
  revert m. induction ks as [| k ks IH]; intros m; [reflexivity |].
  destruct e as [k0 v0]. cbn [fold_left delete fst].
  destruct (String.eqb_spec k k0) as [-> | Hne].
  - rewrite (bool_decide_true (k0 ∈ k0 :: ks)) by apply list_elem_of_here.
    reflexivity.
  - rewrite IH. cbn [fst].
    destruct (decide (k0 ∈ ks)) as [Hin | Hin].
    + rewrite !bool_decide_true; [reflexivity | | exact Hin].
      apply list_elem_of_further, Hin.
    + rewrite !bool_decide_false; [reflexivity | | exact Hin].
      intros H. apply elem_of_cons in H as [E | H]; [congruence | tauto].
Qed.

(** Entries that are all deleted when they satisfy [P] leave at most
    the entries that do not. *)
Lemma length_deletes_filter {V} (P : string * V -> Prop)
    `{forall e, Decision (P e)} (ks : list string) (m : JSMap.t V) :
  (forall e, In e m -> P e -> fst e ∈ ks) ->
  (length (deletes ks m) <= length (filter (fun e => ~ P e) m))%nat.
Proof.
  induction m as [| e m IH]; intros Hall.
  - assert (E : deletes ks ([] : JSMap.t V) = []).
    { clear. induction ks as [| k ks IH]; [reflexivity | exact IH]. }
    rewrite E. cbn. lia.
  - assert (IH' := IH (fun e' He' => Hall e' (or_intror He'))).
    rewrite deletes_cons.
    destruct (decide (P e)) as [HP | HP].
    + rewrite bool_decide_true by (apply Hall; [left; reflexivity | exact HP]).
      rewrite (filter_cons_False (fun e => ~ P e)) by tauto. exact IH'.
    + rewrite (filter_cons_True (fun e => ~ P e)) by exact HP.
      destruct (bool_decide (fst e ∈ ks)); rewrite ?length_cons;
        [apply Nat.le_le_succ_r | apply le_n_S]; exact IH'.
Qed.

Lemma insert_by_Permutation {A} (key : A -> Z) (x : A) (l : list A) :
  Permutation (insert_by key x l) (x :: l).
Proof.
  induction l as [| y l IH]; cbn; [reflexivity |].
  destruct (key x <? key y); [reflexivity |].
  rewrite IH. apply perm_swap.
Qed.

Lemma sort_by_Permutation {A} (key : A -> Z) (l : list A) :
  Permutation (sort_by key l) l.
Proof.
  unfold sort_by.
  assert (H : forall acc, Permutation (fold_left (fun acc x => insert_by key x acc) l acc)
                                      (acc ++ l)).
  { induction l as [| x l IH]; intros acc; cbn; [rewrite app_nil_r; reflexivity |].
    rewrite IH, insert_by_Permutation.
    change (x :: acc ++ l) with ((x :: acc) ++ l).
    rewrite (Permutation_middle acc l x). reflexivity. }
  apply (H []).
Qed.

(** The first entries of the sorted array have distinct keys, all of the
    map. *)
Lemma take_sorted_keys {V} (key : string * V -> Z) (n : nat) (m : JSMap.t V) :
  NoDup (map fst m) ->
  NoDup (map fst (take n (sort_by key m)))
  /\ (forall k, In k (map fst (take n (sort_by key m))) -> In k (map fst m))
  /\ length (map fst (take n (sort_by key m))) = Nat.min n (length m).
Proof.
  intros Hm.
  assert (Hp : Permutation (map fst (sort_by key m)) (map fst m)).
  { apply Permutation_map, sort_by_Permutation. }
  split; [| split].
  - rewrite <- firstn_map. apply (sublist_NoDup _ (map fst (sort_by key m))).
    + rewrite Hp. exact Hm.
    + apply sublist_take.
  - intros k Hk. rewrite <- firstn_map in Hk.
    apply (Permutation_in _ Hp). revert Hk. rewrite <- !list_elem_of_In.
    intros Hk. apply elem_of_take in Hk. destruct Hk as (i & Hi & _).
    eapply list_elem_of_lookup_2, Hi.
  - rewrite length_map, length_take, (Permutation_length (sort_by_Permutation key m)).
    reflexivity.
Qed.

Lemma NoDup_set {V} (k : string) (v : V) (m : JSMap.t V) :
  NoDup (map fst m) -> NoDup (map fst (set k v m)).
Proof.
  induction m as [| [k0 v0] m IH]; cbn.
  - intros _. apply NoDup_singleton.
  - intros Hnd. apply NoDup_cons in Hnd as [Hnot Hnd].
    destruct (String.eqb_spec k k0) as [-> | Hk]; cbn.
    + apply NoDup_cons. auto.
    + apply NoDup_cons. split; [| auto].
      rewrite list_elem_of_In. rewrite list_elem_of_In in Hnot.
      intros Hin. apply get_None in Hnot. 
      assert (E : get k0 (set k v m) = get k0 m) by (apply get_set_ne, Hk).
      apply (proj1 (get_None k0 (set k v m))); [congruence | exact Hin].
Qed.

Lemma length_set {V} (k : string) (v : V) (m : JSMap.t V) :
  (length (set k v m) <= S (length m))%nat.
Proof.
  induction m as [| [k0 v0] m IH]; cbn; [lia |].
  destruct (String.eqb k k0); cbn; lia.
Qed.

Lemma length_set_present {V} (k : string) (v : V) (m : JSMap.t V) :
  In k (map fst m) -> length (set k v m) = length m.
Proof.
  induction m as [| [k0 v0] m IH]; cbn; [tauto |].
  intros Hin. destruct (String.eqb_spec k k0) as [-> | Hne]; cbn; [reflexivity |].
  f_equal. apply IH. destruct Hin; congruence.
Qed.

Lemma key_of_get {V} (k : string) (v : V) (m : JSMap.t V) :
  get k m = Some v -> In k (map fst m).
Proof.
  intros H. apply get_In in H. apply in_map_iff. exists (k, v). auto.
Qed.

End JSMapMore.

(** ** The session endpoint: the size of the store and the cleanup *)

Module SessionApiMore.
Import JS SessionApi JSMapFacts JSMapMore.

Local Abbreviation deletes ks m := (fold_left (fun c k => JSMap.delete k c) ks m).

Lemma sessions_deletes (ks : list string) (st : store) :
  sessions (fold_left delete_session ks st) = deletes ks (sessions st).
Proof.
  revert st. induction ks as [| k ks IH]; intros st; cbn; [reflexivity |].
  rewrite IH. reflexivity.
Qed.

Lemma interactions_deletes (ks : list string) (st : store) :
  interactions (fold_left delete_session ks st) = deletes ks (interactions st).
Proof.
  revert st. induction ks as [| k ks IH]; intros st; cbn; [reflexivity |].
  rewrite IH. reflexivity.
Qed.

Lemma get_unique {V} (k : string) (v : V) (m : JSMap.t V) :
  NoDup (map fst m) -> In (k, v) m -> JSMap.get k m = Some v.
Proof.
  induction m as [| [k0 v0] m IH]; cbn; [tauto |].
  intros Hnd Hin. apply NoDup_cons in Hnd as [Hnot Hnd].
  destruct (String.eqb_spec k k0) as [-> | Hk].
  - destruct Hin as [[= ->] | Hin]; [reflexivity |].
    exfalso. apply Hnot, list_elem_of_In, in_map_iff. exists (k0, v). auto.
  - destruct Hin as [[= -> ->] | Hin]; [congruence | auto].
Qed.

(** The keys deleted by the first loop of [cleanupOldSessions]. *)
Local Abbreviation expired now st :=
  (map fst (filter (fun e : string * session =>
                      s_lastActivity (snd e) <? now - sessionTimeout)
                   (sessions st))).

Lemma expired_spec (now : Z) (st : store) (k : string) :
  k ∈ expired now st
  <-> exists s, In (k, s) (sessions st)
                /\ s_lastActivity s < now - sessionTimeout.
Proof.
  rewrite list_elem_of_In, in_map_iff. split.
  - intros ([k' s] & <- & Hin). apply list_elem_of_In, list_elem_of_filter in Hin.
    destruct Hin as [Hp Hin]. exists s. split; [apply list_elem_of_In, Hin |].
    cbn in Hp. apply Is_true_true, Z.ltb_lt in Hp. exact Hp.
  - intros (s & Hin & Hlt). exists (k, s). split; [reflexivity |].
    apply list_elem_of_In, list_elem_of_filter. split; [| apply list_elem_of_In, Hin].
    cbn. apply Is_true_true, Z.ltb_lt, Hlt.
Qed.

(** The two maps after [cleanupOldSessions]: the same keys are deleted
    from both. *)
Lemma cleanupOldSessions_deletes (now : Z) (st : store) :
  exists ks,
    sessions (cleanupOldSessions now st) = deletes ks (sessions st)
    /\ interactions (cleanupOldSessions now st) = deletes ks (interactions st)
    /\ (forall k, k ∈ expired now st -> k ∈ ks).
Proof.
  unfold cleanupOldSessions.
  set (st1 := fold_left delete_session (expired now st) st).
  destruct (maxSessions <? JSMap.size (sessions st1))%nat.
  - set (more := map fst (take _ _)).
    exists (expired now st ++ more).
    rewrite sessions_deletes, interactions_deletes. unfold st1.
    rewrite sessions_deletes, interactions_deletes, !fold_left_app.
    repeat split. intros k Hk. apply elem_of_app. left. exact Hk.
  - exists (expired now st). unfold st1.
    rewrite sessions_deletes, interactions_deletes. auto.
Qed.

Lemma cleanupOldSessions_NoDup (now : Z) (st : store) :
  NoDup (map fst (sessions st)) ->
  NoDup (map fst (sessions (cleanupOldSessions now st))).
Proof.
  intros H. destruct (cleanupOldSessions_deletes now st) as (ks & -> & _).
  apply NoDup_deletes, H.
Qed.

Lemma cleanupOldSessions_size (now : Z) (st : store) :
  NoDup (map fst (sessions st)) ->
  (JSMap.size (sessions (cleanupOldSessions now st)) <= maxSessions)%nat.
Proof.
  intros Hnd. unfold cleanupOldSessions.
  set (st1 := fold_left delete_session (expired now st) st).
  assert (Hnd1 : NoDup (map fst (sessions st1))).
  { unfold st1. rewrite sessions_deletes. apply NoDup_deletes, Hnd. }
  destruct (Nat.ltb_spec maxSessions (JSMap.size (sessions st1))) as [Hlt | Hge];
    [| exact Hge].
  rewrite sessions_deletes.
  destruct (take_sorted_keys (fun e => s_lastActivity (snd e))
              (JSMap.size (sessions st1) - maxSessions) (sessions st1) Hnd1)
    as (Hk1 & Hk2 & Hk3).
  pose proof (length_deletes _ _ Hnd1 Hk1 Hk2) as Hlen.
  unfold JSMap.size in *. rewrite Hk3 in Hlen. lia.
Qed.

(** X2: after [cleanupOldSessions] no session is left whose last activity
    is more than 30 minutes old; a session that survives keeps its record
    and its interactions, and the interactions of a session that was
    removed are removed with it. *)
Theorem cleanupOldSessions_removes_idle (now : Z) (st : store) (sid : string) :
  let st' := cleanupOldSessions now st in
  (forall s, JSMap.get sid (sessions st') = Some s ->
             now - 30 * 60 * 1000 <= s_lastActivity s
             /\ JSMap.get sid (sessions st) = Some s
             /\ JSMap.get sid (interactions st') = JSMap.get sid (interactions st))
  /\ (JSMap.get sid (sessions st) <> None ->
      JSMap.get sid (sessions st') = None ->
      JSMap.get sid (interactions st') = None).
Proof.
  cbv zeta.
  destruct (cleanupOldSessions_deletes now st) as (ks & Hs & Hi & Hexp).
  rewrite Hs, Hi, !get_deletes. split.
  - intros s. destruct (bool_decide (sid ∈ ks)) eqn:E; [discriminate |].
    intros Hget. split; [| auto].
    destruct (Z.le_gt_cases (now - 30 * 60 * 1000) (s_lastActivity s))
      as [Hle | Hgt]; [exact Hle | exfalso].
    apply bool_decide_eq_false in E. apply E, Hexp, expired_spec.
    exists s. split; [apply get_In, Hget |]. unfold sessionTimeout. lia.
  - intros Hin. destruct (bool_decide (sid ∈ ks)); [reflexivity | contradiction].
Qed.

End SessionApiMore.

(** ** The session endpoint: the answers to the requests *)

Module SessionApiRequests.
Import JS SessionApi JSMapFacts JSMapMore SliceFacts.

(** X3: [handleGetSession] cuts the interactions with [slice(-limit)]:
    without a limit the last 50 are returned, but a limit of 0, or one
    that is not a number, returns every stored interaction, and a
    negative limit -k drops the k oldest; the count reported is always
    that of the stored list. *)
Theorem handleGetSession_limit
    (sid : string) (s : session) (limit : option string) (st : store) :
  sid <> "" ->
  JSMap.get sid (sessions st) = Some s ->
  let all := default [] (JSMap.get sid (interactions st)) in
  exists shown,
    handleGetSession (Some sid) None limit st
    = {| status := 200;
         content := SessionView (Some shown) (Some (length all)) (length all) |}
    /\ (limit = None -> shown = slice_last 50 all)
    /\ (forall l, limit = Some l ->
          (parseInt l = Int 0 \/ parseInt l = NaN -> shown = all)
          /\ (forall n, parseInt l = Int n -> 0 < n ->
                        shown = slice_last (Z.to_nat n) all)
          /\ (forall n, parseInt l = Int n -> n < 0 ->
                        shown = drop (Z.to_nat (- n)) all)).
Proof.
  intros Hne Hget all. unfold handleGetSession.
  assert (Hs : JS.given_str (Some sid) = Some sid).
  { cbn. destruct (String.eqb_spec sid ""); [contradiction | reflexivity]. }
  rewrite Hs, Hget. cbn [from_option String.eqb Ascii.eqb Bool.eqb].
  fold all. exists (slice_neg (parseInt (default "50" limit)) all).
  split; [reflexivity |]. split.
  - intros ->. reflexivity.
  - intros l ->. change (default "50" (Some l)) with l. split; [| split].
    + intros [-> | ->]; cbn; [apply drop_0 | reflexivity].
    + intros n -> Hn. cbn. destruct (Z.ltb_spec 0 n); [reflexivity | lia].
    + intros n -> Hn. cbn. destruct (Z.ltb_spec 0 n); [lia | reflexivity].
Qed.

(** X3, witness: a limit of 0 on a session of sixty interactions. *)
Lemma handleGetSession_limit_witness :
  exists shown,
    handleGetSession (Some "sess_0_abc") None (Some "0")
      (addAll "sess_0_abc" (Samples.sampleAdds 60) Samples.sampleStore)
    = {| status := 200;
         content := SessionView (Some shown) (Some 60%nat) 60%nat |}
    /\ length shown = 60%nat.
Proof.
  destruct (handleGetSession_limit "sess_0_abc"
              {| s_sessionId := "sess_0_abc"; s_state := "active";
                 s_startTime := 0; s_lastActivity := 60;
                 s_userAgent := "Unknown"; s_extra := [] |}
              (Some "0")
              (addAll "sess_0_abc" (Samples.sampleAdds 60) Samples.sampleStore))
    as (shown & Hresp & _ & Hl).
  - discriminate.
  - vm_compute. reflexivity.
  - destruct (Hl "0" eq_refl) as (Hall & _).
    exists shown. split; [exact Hresp |].
    rewrite Hall by (left; reflexivity). vm_compute. reflexivity.
Defined.

(** X5: the type of the [initialInteraction] of a create request is never
    validated: while fewer than 1000 sessions are stored, the session is
    created with that interaction as its only one, of whatever type the
    request gave it, although the same type sent through add_interaction
    is refused when it is not one of [InteractionTypes]. *)
Theorem initial_interaction_not_validated
    (ua : option string) (extra : obj) (ty : string) (d : interactionData)
    (sid id : string) (now : Z) (st : store) :
  NoDup (map fst (sessions st)) ->
  (JSMap.size (sessions st) < maxSessions)%nat ->
  sid <> "" ->
  let st' := snd (handleCreateSession ua extra (Some (Some ty, d)) sid id now st) in
  handleGetSession (Some sid) None None st'
  = {| status := 200;
       content := SessionView (Some [newInteraction sid ty d id now])
                              (Some 1%nat) 1%nat |}
  /\ (~ In ty SessionManager.InteractionTypes ->
      forall id' now',
        status (fst (handleAddInteraction (Some sid) ty d id' now' st'))
        = 400%nat).
Proof.
  intros Hnd Hsz Hne st'.
  set (s0 := {| s_sessionId := sid; s_state := "active"; s_startTime := now;
                s_lastActivity := now; s_userAgent := or_unknown ua;
                s_extra := extra |}).
  set (st2 := snd (addInteractionToSession sid ty d id now
                     {| sessions := JSMap.set sid s0 (sessions st);
                        interactions := JSMap.set sid [] (interactions st) |})).
  assert (E : st' = cleanupOldSessions now st2) by reflexivity.
  assert (Hs2 : sessions st2 = JSMap.set sid (touch now s0)
                                 (JSMap.set sid s0 (sessions st))).
  { unfold st2, addInteractionToSession. cbn [snd sessions].
    rewrite get_set_eq. reflexivity. }
  assert (Hi2 : JSMap.get sid (interactions st2)
                = Some [newInteraction sid ty d id now]).
  { unfold st2. rewrite SessionApiFacts.addInteractionToSession_get.
    cbn [interactions]. rewrite get_set_eq. reflexivity. }
  assert (Hg2 : JSMap.get sid (sessions st2) = Some (touch now s0)).
  { rewrite Hs2. apply get_set_eq. }
  assert (Hnd2 : NoDup (map fst (sessions st2))).
  { rewrite Hs2. repeat apply NoDup_set. exact Hnd. }
  assert (Hsz2 : (JSMap.size (sessions st2) <= maxSessions)%nat).
  { rewrite Hs2. unfold JSMap.size in *.
    pose proof (length_set sid s0 (sessions st)).
    rewrite length_set_present; [lia |].
    apply (key_of_get sid s0), get_set_eq. }
  (* nothing of the new session is cleaned up *)
  assert (Hkeep : JSMap.get sid (sessions st') = Some (touch now s0)
                  /\ JSMap.get sid (interactions st') = JSMap.get sid (interactions st2)).
  { rewrite E. unfold cleanupOldSessions.
    set (ks := map fst (filter _ (sessions st2))).
    set (st1 := fold_left delete_session ks st2).
    assert (Hnot : sid ∉ ks).
    { intros Hin. apply SessionApiMore.expired_spec in Hin as (s & Hin & Hlt).
      rewrite (SessionApiMore.get_unique sid s (sessions st2) Hnd2 Hin) in Hg2.
      injection Hg2 as ->. cbn in Hlt. unfold sessionTimeout in Hlt. lia. }
    assert (Hsz1 : (JSMap.size (sessions st1) <= maxSessions)%nat).
    { unfold st1. rewrite SessionApiMore.sessions_deletes.
      pose proof (length_deletes_le ks (sessions st2)).
      unfold JSMap.size in *. lia. }
    destruct (Nat.ltb_spec maxSessions (JSMap.size (sessions st1))); [lia |].
    unfold st1.
    rewrite SessionApiMore.sessions_deletes, SessionApiMore.interactions_deletes,
      !get_deletes, !bool_decide_false by exact Hnot. auto. }
  destruct Hkeep as [Hks Hki].
  assert (Hgs : JS.given_str (Some sid) = Some sid).
  { cbn. destruct (String.eqb_spec sid ""); [contradiction | reflexivity]. }
  split.
  - unfold handleGetSession, calculateSessionStats.
    rewrite Hgs, Hks, Hki, Hi2. reflexivity.
  - intros Hbad id' now'. unfold handleAddInteraction. rewrite Hgs, Hks.
    destruct (existsb (String.eqb ty) VALID_INTERACTION_TYPES) eqn:Hv;
      [| reflexivity].
    exfalso. apply Hbad. apply existsb_exists in Hv as (x & Hin & Heq).
    apply String.eqb_eq in Heq. subst. exact Hin.
Qed.

(** X5, witness: an initial interaction of the type anything. *)
Lemma initial_interaction_not_validated_witness :
  let st' := snd (handleCreateSession None [] (Some (Some "anything", Samples.sampleData))
                    "sess_1_abc" "int_1_a" 1 Samples.sampleStore) in
  handleGetSession (Some "sess_1_abc") None None st'
  = {| status := 200;
       content := SessionView
                    (Some [newInteraction "sess_1_abc" "anything"
                             Samples.sampleData "int_1_a" 1])
                    (Some 1%nat) 1%nat |}
  /\ (~ In "anything" SessionManager.InteractionTypes ->
      forall id' now',
        status (fst (handleAddInteraction (Some "sess_1_abc") "anything"
                       Samples.sampleData id' now' st'))
        = 400%nat).
Proof.
  apply (initial_interaction_not_validated None [] "anything" Samples.sampleData
           "sess_1_abc" "int_1_a" 1 Samples.sampleStore).
  - vm_compute. apply NoDup_cons. split; [apply not_elem_of_nil | apply NoDup_nil; exact I].
  - vm_compute. lia.
  - discriminate.
Defined.

(** X6: a DELETE answers 200 exactly when the session was stored, and
    afterwards the session is gone from both maps: a GET, an
    add_interaction and a second DELETE for it are all answered 404. *)
Theorem deleted_session_is_gone
    (sid : string) (st : store) (include limit : option string)
    (type : string) (d : interactionData) (id : string) (now : Z) :
  sid <> "" ->
  let r := fst (handleDeleteSession (Some sid) st) in
  let st' := snd (handleDeleteSession (Some sid) st) in
  (status r = 200%nat <-> JSMap.get sid (sessions st) <> None)
  /\ (status r = 404%nat <-> JSMap.get sid (sessions st) = None)
  /\ JSMap.get sid (sessions st') = None
  /\ JSMap.get sid (interactions st') = None
  /\ status (handleGetSession (Some sid) include limit st') = 404%nat
  /\ handleAddInteraction (Some sid) type d id now st'
     = ({| status := 404; content := Error "Session not found" |}, st')
  /\ status (fst (handleDeleteSession (Some sid) st')) = 404%nat.
Proof.
  intros Hne.
  assert (Hgs : JS.given_str (Some sid) = Some sid).
  { cbn. destruct (String.eqb_spec sid ""); [contradiction | reflexivity]. }
  assert (E : snd (handleDeleteSession (Some sid) st) = delete_session st sid).
  { unfold handleDeleteSession. rewrite Hgs.
    destruct (JSMap.get sid (sessions st)); reflexivity. }
  cbv zeta. rewrite E.
  assert (Hs : JSMap.get sid (sessions (delete_session st sid)) = None)
    by apply get_delete_eq.
  assert (Hi : JSMap.get sid (interactions (delete_session st sid)) = None)
    by apply get_delete_eq.
  assert (Hrest :
    status (handleGetSession (Some sid) include limit (delete_session st sid))
    = 404%nat
    /\ handleAddInteraction (Some sid) type d id now (delete_session st sid)
       = ({| status := 404; content := Error "Session not found" |},
          delete_session st sid)
    /\ status (fst (handleDeleteSession (Some sid) (delete_session st sid)))
       = 404%nat).
  { unfold handleGetSession, handleAddInteraction, handleDeleteSession.
    rewrite Hgs, Hs. auto. }
  unfold handleDeleteSession at 1 2. rewrite Hgs.
  destruct (JSMap.get sid (sessions st)) eqn:Hget; cbn [fst snd status].
  - split; [split; [discriminate | reflexivity] |].
    split; [split; discriminate |]. auto.
  - split; [split; [discriminate | intros H; contradiction] |].
    split; [split; reflexivity |]. auto.
Qed.

(** X6, witness: the session of the sample store. *)
Lemma deleted_session_is_gone_witness :
  let r := fst (handleDeleteSession (Some "sess_0_abc") Samples.sampleStore) in
  let st' := snd (handleDeleteSession (Some "sess_0_abc") Samples.sampleStore) in
  status r = 200%nat
  /\ status (handleGetSession (Some "sess_0_abc") None None st') = 404%nat
  /\ status (fst (handleDeleteSession (Some "sess_0_abc") st')) = 404%nat.
Proof.
  destruct (deleted_session_is_gone "sess_0_abc" Samples.sampleStore None None
              "qr_scan" Samples.sampleData "int_1_a" 1)
    as (H200 & _ & _ & _ & Hget & _ & Hdel); [discriminate |].
  cbv zeta. split; [apply H200; vm_compute; discriminate |].
  split; assumption.
Defined.

End SessionApiRequests.

(** ** The session endpoint: the handler with its catch *)

Module SessionEndpointFacts.
Import JS SessionApi SessionEndpoint JSMapFacts JSMapMore.

(** [addInteractionToSession] writes the session map under a key that is
    already there, or not at all. *)
Lemma addInteractionToSession_sessions (sid type : string)
    (d : interactionData) (id : string) (now : Z) (st : store) :
  let st' := snd (addInteractionToSession sid type d id now st) in
  (NoDup (map fst (sessions st)) -> NoDup (map fst (sessions st')))
  /\ JSMap.size (sessions st') = JSMap.size (sessions st).
Proof.
  unfold addInteractionToSession. cbn [snd sessions].
  destruct (JSMap.get sid (sessions st)) as [s |] eqn:E; [| auto].
  split; [apply NoDup_set |].
  unfold JSMap.size. apply length_set_present, (key_of_get sid s), E.
Qed.

(** The session map after a request, key by key: no key twice. *)
Lemma handler_NoDup (r : request) (st : store) :
  NoDup (map fst (sessions st)) ->
  NoDup (map fst (sessions (snd (handler r st)))).
Proof.
  intros H. unfold handler.
  destruct r as [| ua body sid id now | sessionId body id now
                 | sessionId inc lim | sessionId | m]; cbn [snd]; try exact H.
  - unfold handleCreateSession. destruct body as [b |]; [| exact H].
    destruct (initialInteraction b) as [i |].
    + destruct (dataRead (ib_data i)) as [d |]; cbn [snd sessions].
      * apply SessionApiMore.cleanupOldSessions_NoDup,
          addInteractionToSession_sessions.
        cbn [sessions]. apply NoDup_set, H.
      * apply NoDup_set, H.
    + cbn [snd]. apply SessionApiMore.cleanupOldSessions_NoDup.
      cbn [sessions]. apply NoDup_set, H.
  - unfold handleUpdateSession. destruct body as [b |]; [| exact H].
    destruct (given_str sessionId) as [sid |]; [| exact H].
    destruct (JSMap.get sid (sessions st)) as [s |]; [| exact H].
    destruct b as [data | data | | a]; try exact H.
    + unfold handleAddInteraction.
      destruct data as [| | i]; try exact H.
      destruct (ib_type i) as [type |]; [| exact H].
      destruct (existsb _ _); [| exact H].
      destruct (dataRead (ib_data i)) as [d |]; [| exact H].
      pose proof (addInteractionToSession_sessions sid type d id now st)
        as [Hn _].
      destruct (addInteractionToSession sid type d id now st) as [i' st1].
      cbn [snd] in *. exact (Hn H).
    + unfold handleUpdateSessionState.
      destruct data as [| | d]; try exact H.
      destruct (given_str (state d)) as [st' |];
        [destruct (existsb _ _); [| exact H] |];
        cbn [snd sessions]; apply NoDup_set, H.
    + cbn [handleHeartbeat snd sessions]. apply NoDup_set, H.
  - unfold handleDeleteSession.
    destruct (given_str sessionId) as [sid |]; [| exact H].
    destruct (JSMap.get sid (sessions st));
      cbn [snd delete_session sessions]; apply NoDup_delete, H.
Qed.

(** The size of the session map after a request: at most [maxSessions]
    when the request ran the cleanup, one more than before at most when
    it stored a session and threw, and no more than before
    otherwise. *)
Lemma handler_size (r : request) (st : store) :
  NoDup (map fst (sessions st)) ->
  let n := JSMap.size (sessions (snd (handler r st))) in
  if cleansUp (Request r) then (n <= maxSessions)%nat
  else if storesAndThrows (Request r)
       then (n <= S (JSMap.size (sessions st)))%nat
       else (n <= JSMap.size (sessions st))%nat.
Proof.
  intros H. unfold handler.
  destruct r as [| ua body sid id now | sessionId body id now
                 | sessionId inc lim | sessionId | m];
    cbn [snd cleansUp storesAndThrows negb]; try lia.
  - unfold handleCreateSession. destruct body as [b |]; [| cbn; lia].
    destruct (initialInteraction b) as [i |].
    + destruct (ib_data i) as [| | d];
        cbn [dataRead negb snd sessions].
      * apply SessionApiMore.cleanupOldSessions_size,
          addInteractionToSession_sessions.
        cbn [sessions]. apply NoDup_set, H.
      * unfold JSMap.size. apply length_set.
      * apply SessionApiMore.cleanupOldSessions_size,
          addInteractionToSession_sessions.
        cbn [sessions]. apply NoDup_set, H.
    + cbn [negb snd]. apply SessionApiMore.cleanupOldSessions_size.
      cbn [sessions]. apply NoDup_set, H.
  - unfold handleUpdateSession. destruct body as [b |]; [| cbn; lia].
    destruct (given_str sessionId) as [sid |]; [| cbn; lia].
    destruct (JSMap.get sid (sessions st)) as [s |] eqn:E; [| cbn; lia].
    assert (Hset : forall v, JSMap.size (JSMap.set sid v (sessions st))
                             = JSMap.size (sessions st)).
    { intros v. unfold JSMap.size.
      apply length_set_present, (key_of_get sid s), E. }
    destruct b as [data | data | | a]; try (cbn; lia).
    + unfold handleAddInteraction.
      destruct data as [| | i]; try (cbn; lia).
      destruct (ib_type i) as [type |]; [| cbn; lia].
      destruct (existsb _ _); [| cbn; lia].
      destruct (dataRead (ib_data i)) as [d |]; [| cbn; lia].
      pose proof (addInteractionToSession_sessions sid type d id now st)
        as [_ Hn].
      destruct (addInteractionToSession sid type d id now st) as [i' st1].
      cbn [snd] in *. lia.
    + unfold handleUpdateSessionState.
      destruct data as [| | d]; try (cbn; lia).
      destruct (given_str (state d)) as [st' |];
        [destruct (existsb _ _); [| cbn; lia] |];
        cbn [snd sessions]; rewrite Hset; lia.
    + cbn [handleHeartbeat snd sessions]. rewrite Hset. lia.
  - unfold handleDeleteSession.
    destruct (given_str sessionId) as [sid |]; [| cbn; lia].
    pose proof (length_delete_le sid (sessions st)).
    unfold JSMap.size in *.
    destruct (JSMap.get sid (sessions st));
      cbn [snd delete_session sessions]; lia.
Qed.

Lemma step_NoDup (e : event) (st : store) :
  NoDup (map fst (sessions st)) -> NoDup (map fst (sessions (step st e))).
Proof.
  destruct e as [r | now]; cbn [step];
    [apply handler_NoDup | apply SessionApiMore.cleanupOldSessions_NoDup].
Qed.

Lemma step_size (e : event) (st : store) (k : nat) :
  NoDup (map fst (sessions st)) ->
  (JSMap.size (sessions st) <= maxSessions + k)%nat ->
  (JSMap.size (sessions (step st e))
   <= maxSessions + (if cleansUp e then 0
                     else if storesAndThrows e then S k else k))%nat.
Proof.
  intros H Hk. destruct e as [r | now].
  - pose proof (handler_size r st H) as Hs. cbv zeta in Hs. cbn [step].
    destruct (cleansUp (Request r)); [lia |].
    destruct (storesAndThrows (Request r)); lia.
  - cbn [step cleansUp].
    pose proof (SessionApiMore.cleanupOldSessions_size now st H). lia.
Qed.

Lemma run_bounded (events : list event) (st : store) (k : nat) :
  NoDup (map fst (sessions st)) ->
  (JSMap.size (sessions st) <= maxSessions + k)%nat ->
  NoDup (map fst (sessions (run events st)))
  /\ (JSMap.size (sessions (run events st))
      <= maxSessions
         + fold_left (fun k e => if cleansUp e then 0%nat
                                 else if storesAndThrows e then S k else k)
                     events k)%nat.
Proof.
  revert st k. induction events as [| e events IH]; intros st k H Hk;
    [split; assumption |].
  cbn [run fold_left]. apply IH; [apply step_NoDup, H |].
  apply step_size; assumption.
Qed.

Lemma uncleaned_last (front : list event) (e : event) :
  cleansUp e = true -> uncleaned (front ++ [e]) = 0%nat.
Proof.
  intros H. unfold uncleaned. rewrite fold_left_app. cbn [fold_left].
  rewrite H. reflexivity.
Qed.

(** How a POST is answered: 201 when it is served to its end, 500 when
    it throws. *)
Lemma create_status (ua : option string) (body : option createBody)
    (sid id : string) (now : Z) (st : store) :
  status (fst (handler (POST ua body sid id now) st))
  = if cleansUp (Request (POST ua body sid id now)) then 201%nat
    else 500%nat.
Proof.
  unfold handler, handleCreateSession. cbn [cleansUp storesAndThrows].
  destruct body as [b |]; [| reflexivity].
  destruct (initialInteraction b) as [i |]; [| reflexivity].
  destruct (ib_data i); reflexivity.
Qed.

(** The bound is not 1000 at every moment: a thousand and one create
    requests whose initial interaction has null as data are each
    answered 500 and leave a thousand and one sessions. *)
Lemma sessions_can_exceed_maximum :
  let events := map throwingCreate (seq 0 1001) in
  JSMap.size (sessions (run events empty)) = 1001%nat
  /\ uncleaned events = 1001%nat
  /\ Forall (fun e => match e with
                      | Request r => status (fst (handler r empty)) = 500%nat
                      | CleanupTimer _ => False
                      end) events.
Proof.
  cbv zeta. split; [vm_compute; reflexivity |].
  split; [vm_compute; reflexivity |].
  apply Forall_forall. intros e He. apply list_elem_of_In, in_map_iff in He.
  destruct He as (n & <- & _). reflexivity.
Qed.

(** X1: the session map is bounded by [maxSessions] = 1000 only up to the
    requests that throw.  After any requests and runs of the cleanup
    timer since the process started, the keys of the map are all
    different and their number is at most 1000 plus the number of create
    requests that stored a session and threw (their initial interaction
    has null as data, they are answered 500) since the last run of
    cleanupOldSessions, by the timer or by a create request answered
    201; right after such a run it is at most 1000.  A create request is
    answered 201 or 500, and one that throws on its initial interaction
    leaves its session stored. *)
Theorem sessions_bounded_between_cleanups (events : list event) :
  let st := run events empty in
  NoDup (map fst (sessions st))
  /\ (JSMap.size (sessions st) <= 1000 + uncleaned events)%nat
  /\ (forall front e, events = front ++ [e] -> cleansUp e = true ->
        (JSMap.size (sessions st) <= 1000)%nat)
  /\ (forall ua body sid id now st0,
        let r := POST ua body sid id now in
        (status (fst (handler r st0)) = 201%nat
         <-> cleansUp (Request r) = true)
        /\ (status (fst (handler r st0)) = 500%nat
            <-> body = None \/ storesAndThrows (Request r) = true)
        /\ (storesAndThrows (Request r) = true ->
            JSMap.get sid (sessions (snd (handler r st0))) <> None)).
Proof.
  cbv zeta.
  destruct (run_bounded events empty 0) as [Hn Hs];
    [apply NoDup_nil; exact I | cbn; lia |].
  split; [exact Hn |]. split; [exact Hs |]. split.
  - intros front e -> He.
    change (fold_left _ (front ++ [e]) 0%nat) with (uncleaned (front ++ [e]))
      in Hs.
    rewrite (uncleaned_last front e He) in Hs.
    change maxSessions with 1000%nat in Hs. lia.
  - intros ua body sid id now st0. rewrite create_status.
    cbn [cleansUp storesAndThrows].
    destruct body as [b |]; [| repeat split; intros; try discriminate; auto;
                               destruct H; discriminate || auto].
    destruct (initialInteraction b) as [i |] eqn:Ei.
    + destruct (ib_data i) eqn:Ed; cbn [negb];
        (split; [split; intros; discriminate || reflexivity |]);
        (split; [split; [intros; try discriminate; auto
                        | intros [? | ?]; discriminate || reflexivity] |]);
        try (intros; discriminate).
      intros _. unfold handler, handleCreateSession. rewrite Ei, Ed.
      cbn [dataRead snd sessions]. rewrite get_set_eq. discriminate.
    + cbn [negb].
      split; [split; intros; discriminate || reflexivity |].
      split; [split; [intros; discriminate
                     | intros [? | ?]; discriminate] |].
      intros; discriminate.
Qed.

(** X4: how a PUT with the action add_interaction is answered.  It is
    answered 200 exactly when the session id is not empty, the session
    is stored, the body's data is an object whose type is one of the
    seven InteractionTypes and whose own data is not null; 500, by the
    catch of the handler, exactly when the session is stored and the
    body's data is missing or null, or its type is valid and its own
    data is null; and 400 or 404 otherwise.  Every answer other than 200
    leaves both maps as they were.  The types page_hidden and
    page_visible, which the session manager tracks, are never answered
    200; and a PUT whose body is null is answered 500 whatever the
    session id. *)
Theorem add_interaction_answers
    (sessionId : option string) (data : field interactionBody)
    (id : string) (now : Z) (st : store) :
  let answer := handler (PUT sessionId (Some (add_interaction data)) id now)
                        st in
  (status (fst answer) = 200%nat
   <-> exists sid i type d,
         sessionId = Some sid /\ sid <> ""
         /\ JSMap.get sid (sessions st) <> None
         /\ data = Given i /\ ib_type i = Some type
         /\ In type SessionManager.InteractionTypes
         /\ dataRead (ib_data i) = Some d)
  /\ (status (fst answer) = 500%nat
      <-> exists sid,
            sessionId = Some sid /\ sid <> ""
            /\ JSMap.get sid (sessions st) <> None
            /\ (data = Missing \/ data = Null
                \/ exists i type,
                     data = Given i /\ ib_type i = Some type
                     /\ In type SessionManager.InteractionTypes
                     /\ ib_data i = Null))
  /\ (status (fst answer) <> 200%nat ->
      snd answer = st
      /\ (status (fst answer) = 400%nat \/ status (fst answer) = 404%nat
          \/ status (fst answer) = 500%nat))
  /\ (forall i, data = Given i ->
        ib_type i = Some "page_hidden" \/ ib_type i = Some "page_visible" ->
        status (fst answer) = 400%nat \/ status (fst answer) = 404%nat)
  /\ status (fst (handler (PUT sessionId None id now) st)) = 500%nat.
Proof.
  cbv zeta.
  assert (Hvalid : forall type,
            existsb (String.eqb type) VALID_INTERACTION_TYPES = true
            <-> In type SessionManager.InteractionTypes).
  { intros type. unfold VALID_INTERACTION_TYPES. rewrite existsb_exists.
    split.
    - intros (x & Hin & Heq). apply String.eqb_eq in Heq. subst. exact Hin.
    - intros Hin. exists type. split; [exact Hin | apply String.eqb_refl]. }
  assert (Hgiven : forall sid,
            given_str sessionId = Some sid
            <-> sessionId = Some sid /\ sid <> "").
  { intros sid. destruct sessionId as [s0 |]; cbn.
    - destruct (String.eqb_spec s0 "") as [-> | Hne].
      + split; [discriminate | intros [[= <-] H]; contradiction].
      + split; [intros [= ->]; auto | intros [[= ->] _]; reflexivity].
    - split; [discriminate | intros [[=] _]]. }
  unfold handler, handleUpdateSession.
  destruct (given_str sessionId) as [sid |] eqn:Eg.
  2:{ cbn [fst snd status].
      split; [split; [discriminate |] |].
      { intros (sid & i & type & d & Hs & Hne & _).
        discriminate (proj2 (Hgiven sid) (conj Hs Hne)). }
      split; [split; [discriminate |] |].
      { intros (sid & Hs & Hne & _).
        discriminate (proj2 (Hgiven sid) (conj Hs Hne)). }
      split; [auto |]. split; [auto | reflexivity]. }
  clear Eg. destruct (proj1 (Hgiven sid) eq_refl) as [-> Hne]. clear Hgiven.
  destruct (JSMap.get sid (sessions st)) as [s |] eqn:Es.
  2:{ cbn [fst snd status].
      split; [split; [discriminate |] |].
      { intros (sid' & i & type & d & [= <-] & _ & Hget & _). congruence. }
      split; [split; [discriminate |] |].
      { intros (sid' & [= <-] & _ & Hget & _). congruence. }
      split; [auto |]. split; [auto | reflexivity]. }
  unfold handleAddInteraction.
  destruct data as [| | i].
  - cbn [fst snd status].
    split; [split; [discriminate |] |].
    { intros (sid' & i & type & d & _ & _ & _ & [=] & _). }
    split; [split; [intros _ | reflexivity] |].
    { exists sid. repeat split; auto. congruence. }
    split; [auto |]. split; [intros i [=] | reflexivity].
  - cbn [fst snd status].
    split; [split; [discriminate |] |].
    { intros (sid' & i & type & d & _ & _ & _ & [=] & _). }
    split; [split; [intros _ | reflexivity] |].
    { exists sid. repeat split; auto. congruence. }
    split; [auto |]. split; [intros i [=] | reflexivity].
  - destruct (ib_type i) as [type |] eqn:Et.
    2:{ cbn [fst snd status].
        split; [split; [discriminate |] |].
        { intros (sid' & i' & type & d & _ & _ & _ & [= <-] & Ht & _).
          congruence. }
        split; [split; [discriminate |] |].
        { intros (sid' & _ & _ & _ & [[=] | [[=] | H]]).
          destruct H as (i' & type & [= <-] & Ht & _). congruence. }
        split; [auto |]. split; [| reflexivity].
        intros; auto. }
    destruct (existsb (String.eqb type) VALID_INTERACTION_TYPES) eqn:Ev.
    2:{ cbn [fst snd status].
        assert (Hnot : ~ In type SessionManager.InteractionTypes).
        { intros Hin. apply Hvalid in Hin. congruence. }
        split; [split; [discriminate |] |].
        { intros (sid' & i' & type' & d & _ & _ & _ & [= <-] & Ht & Hin & _).
          rewrite Et in Ht. injection Ht as <-. contradiction. }
        split; [split; [discriminate |] |].
        { intros (sid' & _ & _ & _ & [[=] | [[=] | H]]).
          destruct H as (i' & type' & [= <-] & Ht & Hin & _).
          rewrite Et in Ht. injection Ht as <-. contradiction. }
        split; [auto |]. split; [auto | reflexivity]. }
    apply Hvalid in Ev.
    destruct (ib_data i) as [| | d] eqn:Ed; cbn [dataRead].
    + destruct (addInteractionToSession sid type _ id now st) as [i' st1].
      cbn [fst snd status].
      split; [split; [intros _ | reflexivity] |].
      { exists sid, i, type. eexists. rewrite Ed. repeat split; eauto.
        congruence. }
      split; [split; [discriminate |] |].
      { intros (sid' & _ & _ & _ & [[=] | [[=] | H]]).
        destruct H as (i'' & type' & [= <-] & _ & _ & Hd). congruence. }
      split; [intros H; contradiction |]. split; [| reflexivity].
      intros i'' [= <-] [Ht | Ht]; rewrite Et in Ht; injection Ht as ->;
        cbn in Ev; intuition discriminate.
    + cbn [fst snd status].
      split; [split; [discriminate |] |].
      { intros (sid' & i' & type' & d & _ & _ & _ & [= <-] & _ & _ & Hd).
        rewrite Ed in Hd. discriminate Hd. }
      split; [split; [intros _ | reflexivity] |].
      { exists sid. repeat split; auto; [congruence |].
        right. right. exists i, type. auto. }
      split; [auto |]. split; [| reflexivity].
      intros i'' [= <-] [Ht | Ht]; rewrite Et in Ht; injection Ht as ->;
        cbn in Ev; intuition discriminate.
    + destruct (addInteractionToSession sid type d id now st) as [i' st1].
      cbn [fst snd status].
      split; [split; [intros _ | reflexivity] |].
      { exists sid, i, type, d. rewrite Ed. repeat split; eauto. congruence. }
      split; [split; [discriminate |] |].
      { intros (sid' & _ & _ & _ & [[=] | [[=] | H]]).
        destruct H as (i'' & type' & [= <-] & _ & _ & Hd). congruence. }
      split; [intros H; contradiction |]. split; [| reflexivity].
      intros i'' [= <-] [Ht | Ht]; rewrite Et in Ht; injection Ht as ->;
        cbn in Ev; intuition discriminate.
Qed.

(** On a request of the shape [SessionApi] takes, the handler answers
    as [SessionApi.handleCreateSession] and
    [SessionApi.handleAddInteraction] do. *)
Lemma handler_agrees (ua : option string) (extra : obj)
    (initial : option (option string * interactionData))
    (sessionId : option string) (type : string) (d : interactionData)
    (sid id : string) (now : Z) (st : store) :
  handler (POST ua
             (Some {| sessionData :=
                        Some {| state := None;
                                updateData :=
                                  {| f_sessionId := None; f_startTime := None;
                                     f_lastActivity := None;
                                     f_userAgent := None; f_rest := extra |} |};
                      initialInteraction :=
                        option_map (fun i => {| ib_type := fst i;
                                                ib_data := Given (snd i) |})
                                   initial |})
             sid id now) st
  = SessionApi.handleCreateSession ua extra initial sid id now st
  /\ handler (PUT sessionId
                (Some (add_interaction
                         (Given {| ib_type := Some type;
                                   ib_data := Given d |})))
                id now) st
     = SessionApi.handleAddInteraction sessionId type d id now st.
Proof.
  split.
  - unfold handler, handleCreateSession, SessionApi.handleCreateSession.
    cbn [sessionData initialInteraction state updateData spreadOver
         f_sessionId f_startTime f_lastActivity f_userAgent f_rest
         s_sessionId s_state s_startTime s_lastActivity s_userAgent s_extra
         from_option ErrorHandler.spread app].
    destruct initial as [[ty d0] |]; reflexivity.
  - unfold handler, handleUpdateSession, SessionApi.handleAddInteraction,
      handleAddInteraction.
    destruct (given_str sessionId) as [sid' |]; [| reflexivity].
    destruct (JSMap.get sid' (sessions st)); [| reflexivity].
    cbn [ib_type ib_data dataRead].
    destruct (existsb _ _); [| reflexivity].
    destruct (addInteractionToSession sid' type d id now st). reflexivity.
Qed.

End SessionEndpointFacts.

(** ** The QR service: the cache *)

Module QRServiceCacheFacts.
Import JS QRService QRServiceCache JSMapFacts JSMapMore.

Local Abbreviation deletes ks m := (fold_left (fun c k => JSMap.delete k c) ks m).

Lemma filter_none {A} (P : A -> Prop) `{forall x, Decision (P x)} (l : list A) :
  (forall x, In x l -> ~ P x) -> filter P l = [].
Proof.
  induction l as [| x l IH]; intros Hall; [reflexivity |].
  rewrite filter_cons_False by (apply Hall; left; reflexivity).
  apply IH. intros y Hy. apply Hall. right. exact Hy.
Qed.

Lemma toInt32_congruent (a b k : Z) :
  a = b + k * 2 ^ 32 -> toInt32 a = toInt32 b.
Proof.
  intros ->. unfold toInt32.
  replace (b + k * 2 ^ 32 + 2 ^ 31) with (b + 2 ^ 31 + k * 2 ^ 32) by ring.
  rewrite Z.mod_add by lia. reflexivity.
Qed.

Lemma toInt32_wraps (a : Z) : exists k, toInt32 a = a + k * 2 ^ 32.
Proof.
  unfold toInt32. exists (- ((a + 2 ^ 31) / 2 ^ 32)).
  pose proof (Z.div_mod (a + 2 ^ 31) (2 ^ 32)). lia.
Qed.

(** One round of the loop of [simpleHash] is multiplication by 31 and
    addition of the character code, modulo 2^32. *)
Lemma hash_round (hash char : Z) :
  exists k, toInt32 (toInt32 (Z.shiftl hash 5) - hash + char)
            = 31 * hash + char + k * 2 ^ 32.
Proof.
  rewrite Z.shiftl_mul_pow2 by lia.
  destruct (toInt32_wraps (hash * 2 ^ 5)) as [k1 E1].
  destruct (toInt32_wraps (toInt32 (hash * 2 ^ 5) - hash + char)) as [k2 E2].
  exists (k1 + k2). rewrite E2, E1. ring.
Qed.

Lemma hash_loop_app (a b : string) (hash : Z) :
  hash_loop (a +:+ b) hash = hash_loop b (hash_loop a hash).
Proof.
  revert hash. induction a as [| c a IH]; intros hash; [reflexivity |].
  cbn. apply IH.
Qed.

Lemma hash_loop_Aa_BB (hash : Z) :
  hash_loop "Aa" hash = hash_loop "BB" hash.
Proof.
  cbn [hash_loop].
  change (Z.of_nat (nat_of_ascii "A")) with 65.
  change (Z.of_nat (nat_of_ascii "a")) with 97.
  change (Z.of_nat (nat_of_ascii "B")) with 66.
  destruct (hash_round hash 65) as [k1 E1].
  destruct (hash_round hash 66) as [k2 E2].
  rewrite E1, E2.
  set (x := 31 * hash + 65 + k1 * 2 ^ 32).
  set (y := 31 * hash + 66 + k2 * 2 ^ 32).
  rewrite !Z.shiftl_mul_pow2 by lia.
  destruct (toInt32_wraps (x * 2 ^ 5)) as [j1 F1].
  destruct (toInt32_wraps (y * 2 ^ 5)) as [j2 F2].
  rewrite F1, F2.
  apply (toInt32_congruent _ _ (j1 - j2 + 31 * (k1 - k2))).
  unfold x, y. ring.
Qed.

(** The strings that differ only in one occurrence of Aa against BB have
    the same hash. *)
Lemma simpleHash_collision (before after : string) :
  simpleHash (before +:+ "Aa" +:+ after)
  = simpleHash (before +:+ "BB" +:+ after).
Proof.
  unfold simpleHash. rewrite !hash_loop_app, hash_loop_Aa_BB. reflexivity.
Qed.

Section Service.

Variable QR : Type.
Variable options : Type.
Variable forUrl : string -> options -> QR.
Variable validate : QR -> bool * list string.
Variable getContent : QR -> string.
Variable stringify : QR -> string.
Variable requestUrl : QR -> string.

Local Abbreviation generateForUrl :=
  (generateForUrl QR options forUrl validate getContent stringify requestUrl).
Local Abbreviation getCacheKey := (getCacheKey QR stringify).
Local Abbreviation state := (QRService.t QR).

Local Abbreviation bounded := (QRServiceCache.withinLimit QR).

Lemma cleanCache_cache (now : Z) (s : state) :
  exists ks, cache QR (cleanCache QR now s) = deletes ks (cache QR s)
    /\ (forall e, In e (cache QR s) ->
                  cacheTimeout < now - timestamp QR (snd e) -> fst e ∈ ks).
Proof.
  unfold cleanCache.
  set (expired := map fst (filter _ (cache QR s))).
  assert (Hexp : forall e, In e (cache QR s) ->
                   cacheTimeout < now - timestamp QR (snd e) -> fst e ∈ expired).
  { intros e Hin Hlt. apply list_elem_of_In, in_map. 
    apply list_elem_of_In, list_elem_of_filter. split; [| apply list_elem_of_In, Hin].
    apply Is_true_true, Z.ltb_lt, Hlt. }
  destruct (cacheMaxSize <=? JSMap.size (deletes expired (cache QR s)))%nat.
  - set (more := map fst (take _ _)). exists (expired ++ more).
    cbn [cache with_cache]. rewrite fold_left_app. split; [reflexivity |].
    intros e Hin Hlt. apply elem_of_app. left. auto.
  - exists expired. cbn [cache with_cache]. auto.
Qed.

Lemma cleanCache_shrinks (now : Z) (s : state) :
  NoDup (map fst (cache QR s)) ->
  NoDup (map fst (cache QR (cleanCache QR now s)))
  /\ ((JSMap.size (cache QR (cleanCache QR now s)) < cacheMaxSize)%nat
      \/ (JSMap.size (cache QR (cleanCache QR now s)) + 20
          <= JSMap.size (cache QR s))%nat).
Proof.
  intros Hnd. unfold cleanCache.
  set (expired := map fst (filter _ (cache QR s))).
  set (c1 := deletes expired (cache QR s)).
  assert (Hnd1 : NoDup (map fst c1)) by apply NoDup_deletes, Hnd.
  assert (Hle1 : (length c1 <= length (cache QR s))%nat)
    by apply length_deletes_le.
  destruct (Nat.leb_spec cacheMaxSize (JSMap.size c1)) as [Hge | Hlt];
    cbn [cache with_cache].
  - destruct (take_sorted_keys (fun e => timestamp QR (snd e))
                (cacheMaxSize / 5) c1 Hnd1) as (Hk1 & Hk2 & Hk3).
    pose proof (length_deletes _ _ Hnd1 Hk1 Hk2) as Hlen.
    split; [apply NoDup_deletes, Hnd1 |]. right.
    rewrite Hk3 in Hlen.
    change (cacheMaxSize / 5)%nat with 20%nat in *.
    unfold JSMap.size, cacheMaxSize in *.
    set (c2 := deletes _ c1) in *. lia.
  - split; [exact Hnd1 |]. left. exact Hlt.
Qed.

Lemma addToCache_bounded (key : string) (d : result QR) (now : Z) (s : state) :
  bounded s -> bounded (addToCache QR key d now s).
Proof.
  intros [Hnd Hsz]. unfold QRServiceCache.withinLimit, addToCache.
  cbn [cache with_cache].
  destruct (Nat.leb_spec cacheMaxSize (JSMap.size (cache QR s))) as [Hge | Hlt].
  - destruct (cleanCache_shrinks now s Hnd) as [Hnd1 Hsz1].
    split; [apply NoDup_set, Hnd1 |].
    pose proof (length_set key {| data := d; timestamp := now |}
                  (cache QR (cleanCache QR now s))).
    unfold JSMap.size, cacheMaxSize in *. lia.
  - split; [apply NoDup_set, Hnd |].
    pose proof (length_set key {| data := d; timestamp := now |} (cache QR s)).
    unfold JSMap.size, cacheMaxSize in *. lia.
Qed.

Lemma getFromCache_bounded (key : string) (now : Z) (s : state) :
  bounded s -> bounded (snd (getFromCache QR key now s)).
Proof.
  intros [Hnd Hsz]. unfold QRServiceCache.withinLimit, getFromCache.
  destruct (JSMap.get key (cache QR s)); [| auto].
  destruct (cacheTimeout <? now - timestamp QR i); [| auto].
  cbn [snd cache with_cache]. split; [apply NoDup_delete, Hnd |].
  pose proof (length_delete_le key (cache QR s)). unfold JSMap.size in *. lia.
Qed.

(** X7: the cache of the service never holds more than [cacheMaxSize] =
    100 entries: a call of generateForUrl, whatever its arguments and
    whatever the API answers, keeps the keys of the cache distinct and
    their number at most 100. *)
Theorem cache_never_exceeds_maximum
    (url : string) (o : options) (answer : fetched) (latency : Z)
    (v1 v2 : ErrorHandler.env) (now : Z) (s : state) :
  NoDup (map fst (cache QR s)) ->
  (JSMap.size (cache QR s) <= 100)%nat ->
  let s' := snd (generateForUrl url o answer latency v1 v2 now s) in
  NoDup (map fst (cache QR s')) /\ (JSMap.size (cache QR s') <= 100)%nat.
Proof.
  intros Hnd Hsz. cbv zeta. unfold QRService.generateForUrl.
  destruct (validate (forUrl url o)) as [valid errs].
  destruct valid; cbn [negb]; [| cbn; auto].
  pose proof (getFromCache_bounded (getCacheKey (forUrl url o)) now s
                (conj Hnd Hsz)) as Hb.
  destruct (getFromCache QR (getCacheKey (forUrl url o)) now s) as [[c |] s0];
    cbn [snd] in Hb |- *; [exact Hb |].
  destruct answer as [gt dl | status error | message]; cbn [generateQRCode snd].
  - apply addToCache_bounded. exact Hb.
  - exact Hb.
  - exact Hb.
Qed.

(** X8: after [cleanCache] no entry of the cache is older than the
    timeout: [getCacheStats] at the same time counts no expired entry,
    and every entry as active; at any time the size it reports is the
    sum of the expired and the active entries. *)
Theorem cleanCache_leaves_no_expired (now : Z) (s : state) :
  let after := getCacheStats QR now (cleanCache QR now s) in
  let before := getCacheStats QR now s in
  cs_expired after = 0%nat
  /\ cs_active after = cs_size after
  /\ (cs_size after <= cs_active before)%nat
  /\ cs_size before = (cs_expired before + cs_active before)%nat.
Proof.
  cbv zeta. unfold getCacheStats. cbn [cs_expired cs_active cs_size].
  destruct (cleanCache_cache now s) as (ks & -> & Hexp).
  set (P := fun e : string * item QR => Is_true (cacheTimeout <? now - timestamp QR (snd e))).
  assert (Hnone : filter P (deletes ks (cache QR s)) = []).
  { apply filter_none. intros e Hin HP. apply In_deletes in Hin as [Hin Hnot].
    apply Hnot, list_elem_of_In, Hexp; [exact Hin |].
    apply Is_true_true, Z.ltb_lt in HP. exact HP. }
  change (filter _ (deletes ks (cache QR s)))
    with (filter P (deletes ks (cache QR s))).
  change (filter _ (cache QR s)) with (filter P (cache QR s)).
  rewrite Hnone. cbn [length].
  set (n := length (filter P (cache QR s))).
  assert (Hf : (n <= length (cache QR s))%nat) by apply length_filter.
  split; [reflexivity |]. split; [unfold JSMap.size; lia |].
  split; [| unfold JSMap.size; lia].
  subst n.
  (* the surviving entries are among the active ones *)
  unfold JSMap.size.
  pose proof (filter_app_complement P (cache QR s)) as Hperm.
  apply Permutation_length in Hperm. rewrite length_app in Hperm.
  assert (Hsub : (length (deletes ks (cache QR s))
                  <= length (filter (fun x => ~ P x) (cache QR s)))%nat).
  { apply length_deletes_filter. intros e Hin HP. apply Hexp; [exact Hin |].
    apply Is_true_true, Z.ltb_lt in HP. exact HP. }
  assert (aux : forall a c f n : nat,
             (a <= c)%nat -> (f + c)%nat = n -> (a <= n - f)%nat)
    by (intros; lia).
  exact (aux _ _ _ _ Hsub Hperm).
Qed.

(** The log after two errors ends with them. *)
Lemma logError_twice (p1 p2 : ErrorHandler.processedError)
    (h : ErrorHandler.t) :
  exists rest,
    ErrorHandler.errorLog (ErrorHandler.logError p2 (ErrorHandler.logError p1 h))
    = rest ++ [p1; p2].
Proof.
  unfold ErrorHandler.logError. cbn [ErrorHandler.errorLog].
  set (l := ErrorHandler.errorLog h).
  assert (H1 : exists r1, (if (ErrorHandler.maxLogSize <? length (l ++ [p1]))%nat
                           then drop 1 (l ++ [p1]) else l ++ [p1]) = r1 ++ [p1]).
  { destruct (Nat.ltb_spec ErrorHandler.maxLogSize (length (l ++ [p1]))) as [Hlt | _];
      [| exists l; reflexivity].
    destruct l as [| q l']; [cbn in Hlt; unfold ErrorHandler.maxLogSize in Hlt; lia |].
    exists l'. reflexivity. }
  destruct H1 as [r1 ->].
  destruct (Nat.ltb_spec ErrorHandler.maxLogSize (length ((r1 ++ [p1]) ++ [p2])))
    as [Hlt | _].
  - destruct r1 as [| q r1'].
    + cbn in Hlt. unfold ErrorHandler.maxLogSize in Hlt. lia.
    + exists r1'. cbn. rewrite <- app_assoc. reflexivity.
  - exists r1. rewrite <- app_assoc. reflexivity.
Qed.

(** X9: the key of the cache is a 32-bit hash, and two contents that
    hash alike share one entry: after a result was generated for one
    address, a call for another address with the same key, made within
    the hour, is answered with the first address's result, QR code and
    content, and sends no request. *)
Theorem colliding_keys_share_an_entry
    (url1 url2 : string) (o1 o2 : options) (errs1 errs2 : list string)
    (gt dl : option string) (latency : Z) (v1 v2 : ErrorHandler.env)
    (now : Z) (s : state) :
  validate (forUrl url1 o1) = (true, errs1) ->
  validate (forUrl url2 o2) = (true, errs2) ->
  getCacheKey (forUrl url1 o1) = getCacheKey (forUrl url2 o2) ->
  fst (getFromCache QR (getCacheKey (forUrl url1 o1)) now s) = None ->
  exists res s1,
    generateForUrl url1 o1 (Ok gt dl) latency v1 v2 now s = (Returns res, s1)
    /\ r_qrCode QR res = forUrl url1 o1
    /\ r_content QR res = getContent (forUrl url1 o1)
    /\ (forall answer latency2 e1 e2 now2,
          now2 - (now + latency) <= 60 * 60 * 1000 ->
          generateForUrl url2 o2 answer latency2 e1 e2 now2 s1
          = (Returns res, s1)).
Proof.
  intros Hv1 Hv2 Hkey Hmiss.
  assert (Hgen : exists res s1,
             generateForUrl url1 o1 (Ok gt dl) latency v1 v2 now s
             = (Returns res, s1)
             /\ r_qrCode QR res = forUrl url1 o1
             /\ r_content QR res = getContent (forUrl url1 o1)
             /\ JSMap.get (getCacheKey (forUrl url1 o1)) (cache QR s1)
                = Some {| data := res; timestamp := now + latency |}).
  { unfold QRService.generateForUrl. rewrite Hv1. cbn [negb].
    destruct (getFromCache QR (getCacheKey (forUrl url1 o1)) now s) as [c s0].
    cbn [fst] in Hmiss. subst c. cbn [generateQRCode].
    eexists. eexists. split; [reflexivity |].
    split; [reflexivity |]. split; [reflexivity |].
    unfold addToCache. cbn [cache with_cache]. apply get_set_eq. }
  destruct Hgen as (res & s1 & Hgen & Hq & Hc & Hget).
  exists res, s1. split; [exact Hgen |]. split; [exact Hq |].
  split; [exact Hc |].
  intros answer latency2 e1 e2 now2 Hfresh.
  apply (QRServiceFacts.generateForUrl_hit QR options forUrl validate getContent
           stringify requestUrl url2 o2 errs2 res (now + latency));
    [exact Hv2 | rewrite <- Hkey; exact Hget | exact Hfresh].
Qed.

(** X10: a generation that fails is not cached and is logged twice: when
    the request is rejected, or answered with a status that is not ok,
    generateForUrl throws the message of the failure, the cache keeps
    no entry under the key, the error log ends with two QR_ERROR entries
    of severity MEDIUM that carry this message (one written by
    generateQRCode, one by generateForUrl), and the next call sends a
    request again. *)
Theorem failed_generation_is_not_cached
    (url : string) (o : options) (errs : list string) (answer : fetched)
    (latency : Z) (v1 v2 : ErrorHandler.env) (now : Z) (s : state) :
  validate (forUrl url o) = (true, errs) ->
  fst (getFromCache QR (getCacheKey (forUrl url o)) now s) = None ->
  (forall gt dl, answer <> Ok gt dl) ->
  exists message s',
    generateForUrl url o answer latency v1 v2 now s = (Throws message, s')
    /\ message = match answer with
                 | Rejected m => m
                 | NotOk status error =>
                     default ("API request failed (" +:+ pretty status +:+ ")")
                             (JS.given_str error)
                 | Ok _ _ => ""
                 end
    /\ cache QR s' = cache QR (snd (getFromCache QR (getCacheKey (forUrl url o)) now s))
    /\ requests QR s' = requests QR s ++ [requestUrl (forUrl url o)]
    /\ (exists rest p1 p2,
          ErrorHandler.errorLog (errors QR s') = rest ++ [p1; p2]
          /\ ErrorHandler.pe_type p1 = ErrorHandler.QR_ERROR
          /\ ErrorHandler.pe_type p2 = ErrorHandler.QR_ERROR
          /\ ErrorHandler.pe_severity p1 = ErrorHandler.MEDIUM
          /\ ErrorHandler.pe_severity p2 = ErrorHandler.MEDIUM
          /\ ErrorHandler.pe_message p1 = message
          /\ ErrorHandler.pe_message p2 = message)
    /\ (forall gt dl latency2 e1 e2 now2,
          now <= now2 ->
          exists res s2,
            generateForUrl url o (Ok gt dl) latency2 e1 e2 now2 s'
            = (Returns res, s2)
            /\ requests QR s2
               = requests QR s ++ [requestUrl (forUrl url o);
                                   requestUrl (forUrl url o)]).
Proof.
  intros Hv Hmiss Hfail.
  pose proof (QRServiceFacts.getFromCache_requests QR
                (getCacheKey (forUrl url o)) now s) as Hreq.
  assert (Hgone : forall now2, now <= now2 ->
            fst (getFromCache QR (getCacheKey (forUrl url o)) now2
                   (snd (getFromCache QR (getCacheKey (forUrl url o)) now s)))
            = None).
  { intros now2 Hle. revert Hmiss. unfold getFromCache.
    destruct (JSMap.get (getCacheKey (forUrl url o)) (cache QR s)) as [it |] eqn:E.
    - destruct (Z.ltb_spec cacheTimeout (now - timestamp QR it)); [| discriminate].
      intros _. cbn [snd cache with_cache]. rewrite get_delete_eq. reflexivity.
    - intros _. cbn [snd]. rewrite E. reflexivity. }
  unfold QRService.generateForUrl at 1. rewrite Hv. cbn [negb].
  destruct (getFromCache QR (getCacheKey (forUrl url o)) now s) as [c s0] eqn:Eg.
  cbn [fst snd] in Hmiss, Hreq, Hgone. subst c.
  set (message := match answer with
                  | Rejected m => m
                  | NotOk status error =>
                      default ("API request failed (" +:+ pretty status +:+ ")")
                              (JS.given_str error)
                  | Ok _ _ => ""
                  end).
  assert (Hq : exists s1,
            generateQRCode QR getContent requestUrl (forUrl url o) answer
              latency v1 now s0 = (Throws message, s1)
            /\ cache QR s1 = cache QR s0
            /\ requests QR s1 = requests QR s0 ++ [requestUrl (forUrl url o)]
            /\ exists p1, ErrorHandler.pe_type p1 = ErrorHandler.QR_ERROR
                /\ ErrorHandler.pe_severity p1 = ErrorHandler.MEDIUM
                /\ ErrorHandler.pe_message p1 = message
                /\ errors QR s1 = ErrorHandler.logError p1 (errors QR s0)).
  { destruct answer as [gt dl | status error | m];
      [exfalso; exact (Hfail gt dl eq_refl) | |];
      cbn [generateQRCode]; eexists; (split; [reflexivity |]);
      cbn [cache requests errors logQRError];
      (split; [reflexivity |]); (split; [reflexivity |]);
      eexists; (split; [| split; [| split; [| reflexivity]]]); reflexivity. }
  destruct Hq as (s1 & -> & Hc1 & Hr1 & p1 & Ht1 & Hs1 & Hm1 & He1).
  eexists. eexists. split; [reflexivity |]. split; [reflexivity |].
  cbn [cache requests errors logQRError].
  split; [exact Hc1 |]. split; [rewrite Hr1, Hreq; reflexivity |]. split.
  - unfold ErrorHandler.handleQRError, ErrorHandler.handleError. cbn [snd].
    rewrite He1.
    destruct (logError_twice p1
                (ErrorHandler.processError v2
                   (ErrorHandler.wrap ErrorHandler.QR_ERROR ErrorHandler.MEDIUM
                      (ErrorHandler.PlainError "Error" message)
                      [("url", ErrorHandler.Str url);
                       ("options", ErrorHandler.Opaque)])
                   [("url", ErrorHandler.Str url);
                    ("options", ErrorHandler.Opaque)])
                (errors QR s0)) as [rest Hrest].
    exists rest, p1. eexists. split; [exact Hrest |]. repeat split; assumption.
  - intros gt dl latency2 e1 e2 now2 Hle.
    match goal with
    | |- context [generateForUrl url o (Ok gt dl) latency2 e1 e2 now2 ?x] =>
        set (s' := x);
        destruct (QRServiceFacts.generateForUrl_miss QR options forUrl validate
                    getContent stringify requestUrl url o errs gt dl latency2
                    e1 e2 now2 s' Hv)
          as (res & s2 & Hgen2 & _ & _ & Hreq2 & _)
    end.
    + specialize (Hgone now2 Hle). revert Hgone. unfold getFromCache.
      assert (Ec : cache QR s' = cache QR s0) by (rewrite <- Hc1; reflexivity).
      rewrite Ec.
      destruct (JSMap.get (getCacheKey (forUrl url o)) (cache QR s0));
        [| reflexivity].
      destruct (cacheTimeout <? now2 - timestamp QR i); [reflexivity | auto].
    + exists res, s2. split; [exact Hgen2 |]. rewrite Hreq2.
      assert (Er : requests QR s' = requests QR s1) by reflexivity.
      rewrite Er, Hr1, Hreq, <- app_assoc. reflexivity.
Qed.

End Service.

(** X7, witness: a fresh service. *)
Lemma cache_never_exceeds_maximum_witness :
  let s' := snd (generateForUrl string unit Samples.urlEntity Samples.nonEmpty
                   id id Samples.apiAddress "https://example.org/ar" tt
                   (Ok None None) 40 Samples.someEnv Samples.someEnv 1000
                   (fresh string)) in
  NoDup (map fst (cache string s')) /\ (JSMap.size (cache string s') <= 100)%nat.
Proof.
  apply (cache_never_exceeds_maximum string unit Samples.urlEntity
           Samples.nonEmpty id id Samples.apiAddress).
  - apply NoDup_nil. exact I.
  - cbn. lia.
Defined.

(** X9, witness: two addresses that differ in Aa against BB. *)
Lemma colliding_keys_share_an_entry_witness :
  exists res s1,
    generateForUrl string unit Samples.urlEntity Samples.nonEmpty id id
      Samples.apiAddress "https://example.org/Aa" tt (Ok None None) 40
      Samples.someEnv Samples.someEnv 1000 (fresh string)
    = (Returns res, s1)
    /\ r_qrCode string res = "https://example.org/Aa"
    /\ r_content string res = "https://example.org/Aa"
    /\ (forall answer latency2 e1 e2 now2,
          now2 - (1000 + 40) <= 60 * 60 * 1000 ->
          generateForUrl string unit Samples.urlEntity Samples.nonEmpty id id
            Samples.apiAddress "https://example.org/BB" tt answer latency2
            e1 e2 now2 s1
          = (Returns res, s1)).
Proof.
  apply (colliding_keys_share_an_entry string unit Samples.urlEntity
           Samples.nonEmpty id id Samples.apiAddress
           "https://example.org/Aa" "https://example.org/BB" tt tt [] []).
  - reflexivity.
  - reflexivity.
  - apply (simpleHash_collision "https://example.org/" "").
  - reflexivity.
Defined.

(** X10, witness: the API answers 500. *)
Lemma failed_generation_is_not_cached_witness :
  exists message s',
    generateForUrl string unit Samples.urlEntity Samples.nonEmpty id id
      Samples.apiAddress "https://example.org/ar" tt (NotOk 500 None) 40
      Samples.someEnv Samples.someEnv 1000 (fresh string)
    = (Throws message, s')
    /\ message = "API request failed (500)"
    /\ cache string s' = []
    /\ length (ErrorHandler.errorLog (errors string s')) = 2%nat.
Proof.
  destruct (failed_generation_is_not_cached string unit Samples.urlEntity
              Samples.nonEmpty id id Samples.apiAddress
              "https://example.org/ar" tt [] (NotOk 500 None) 40
              Samples.someEnv Samples.someEnv 1000 (fresh string))
    as (message & s' & Hgen & Hm & Hc & _ & _ & _).
  - reflexivity.
  - reflexivity.
  - discriminate.
  - exists message, s'. split; [exact Hgen |]. split; [exact Hm |].
    split; [exact Hc |].
    vm_compute in Hgen. injection Hgen as _ <-. reflexivity.
Defined.

End QRServiceCacheFacts.

(** ** The error log and its statistics *)

Module ErrorLogFacts.
Import JS ErrorHandler ErrorLog SliceFacts.

Lemma logError_window (p : processedError) (h : t) :
  (length (errorLog h) <= maxLogSize)%nat ->
  errorLog (logError p h) = slice_last maxLogSize (errorLog h ++ [p]).
Proof.
  intros Hle. unfold logError. cbn [errorLog].
  destruct (Nat.ltb_spec maxLogSize (length (errorLog h ++ [p]))) as [Hlt | Hge].
  - unfold slice_last. f_equal. rewrite length_app in *. cbn [length] in *. lia.
  - symmetry. apply slice_last_short. exact Hge.
Qed.

Lemma handleAll_window (calls : list (env * error * obj)) (h : t) :
  (length (errorLog h) <= maxLogSize)%nat ->
  errorLog (handleAll calls h)
  = slice_last maxLogSize (errorLog h ++ map processed calls).
Proof.
  revert h. induction calls as [| [[v e] context] calls IH]; intros h Hle.
  - cbn. rewrite app_nil_r. symmetry. apply slice_last_short, Hle.
  - cbn [handleAll map processed]. unfold handleError. cbn [snd].
    rewrite IH.
    + rewrite logError_window by exact Hle.
      rewrite slice_last_app by (unfold maxLogSize; lia).
      rewrite <- app_assoc. reflexivity.
    + apply ErrorHandlerFacts.logError_bounded, Hle.
Qed.

(** X11: the error log is a sliding window: after any series of calls of
    handleError (the convenience wrappers included) on a new handler, the
    log holds the last hundred of the processed errors, in the order of
    the calls, and never more. *)
Theorem errorLog_is_last_hundred (calls : list (env * error * obj)) :
  errorLog (handleAll calls empty) = slice_last 100 (map processed calls)
  /\ length (errorLog (handleAll calls empty)) = Nat.min 100 (length calls)
  /\ (forall v e context,
        last (errorLog (handleAll (calls ++ [(v, e, context)]) empty))
        = Some (processError v e context)).
Proof.
  assert (E : forall cs, errorLog (handleAll cs empty)
                         = slice_last 100 (map processed cs)).
  { intros cs. rewrite handleAll_window by (cbn; lia). reflexivity. }
  split; [apply E |]. split.
  - rewrite E, slice_last_length, length_map. reflexivity.
  - intros v e context. rewrite E, map_app. cbn [map processed].
    unfold slice_last. rewrite length_app. cbn [length].
    rewrite drop_app_le by (rewrite length_map; lia).
    apply last_snoc.
Qed.

Lemma counted_bump {K} `{EqDecision K} (k k' : K) (tally : list (K * nat)) :
  counted k' (bump k tally)
  = (counted k' tally + if bool_decide (k = k') then 1 else 0)%nat.
Proof.
  induction tally as [| [k0 n] tally IH]; cbn.
  - destruct (decide (k = k')) as [-> | Hne].
    + rewrite !bool_decide_true by reflexivity. reflexivity.
    + rewrite !bool_decide_false by exact Hne. reflexivity.
  - destruct (decide (k0 = k)) as [-> | Hne].
    + rewrite (bool_decide_true (k = k)) by reflexivity. cbn.
      destruct (bool_decide (k = k')); lia.
    + rewrite (bool_decide_false (k0 = k)) by exact Hne. cbn.
      destruct (decide (k0 = k')) as [-> | Hne'].
      * rewrite (bool_decide_true (k' = k')) by reflexivity.
        rewrite (bool_decide_false (k = k')) by congruence. lia.
      * rewrite (bool_decide_false (k0 = k')) by exact Hne'. exact IH.
Qed.

Lemma sum_bump {K} `{EqDecision K} (k : K) (tally : list (K * nat)) :
  sum_list (map snd (bump k tally)) = S (sum_list (map snd tally)).
Proof.
  induction tally as [| [k0 n] tally IH]; cbn; [reflexivity |].
  destruct (bool_decide (k0 = k)); cbn; [reflexivity |].
  rewrite IH. lia.
Qed.

(** The table built by counting the keys of a list. *)
Lemma tally_spec {A K} `{EqDecision K} (key : A -> K) (l : list A)
    (tally : list (K * nat)) :
  let t' := fold_left (fun tally e => bump (key e) tally) l tally in
  (forall k, counted k t'
             = (counted k tally + length (filter (fun e => key e = k) l))%nat)
  /\ sum_list (map snd t') = (sum_list (map snd tally) + length l)%nat.
Proof.
  revert tally. induction l as [| e l IH]; intros tally; cbn zeta.
  - cbn. split; [intros k |]; lia.
  - cbn [fold_left]. destruct (IH (bump (key e) tally)) as [IH1 IH2].
    split.
    + intros k. rewrite IH1, counted_bump.
      destruct (decide (key e = k)) as [Heq | Hne].
      * rewrite bool_decide_true by exact Heq.
        rewrite (filter_cons_True (fun e => key e = k)) by exact Heq.
        cbn [length]. lia.
      * rewrite bool_decide_false by exact Hne.
        rewrite (filter_cons_False (fun e => key e = k)) by exact Hne. lia.
    + rewrite IH2, sum_bump. cbn [length]. lia.
Qed.

(** X12: the statistics agree with the log and with getErrorsByType: the
    counter of a type is the number of logged errors of that type, the
    counters by type and those by severity each add up to the total, and
    the recent errors are the last five (all of them when fewer). *)
Theorem getStats_counts (h : t) :
  (forall type, counted type (byType (getStats h))
                = length (getErrorsByType type h))
  /\ (forall severity,
        counted severity (bySeverity (getStats h))
        = length (filter (fun e => pe_severity e = severity) (errorLog h)))
  /\ sum_list (map snd (byType (getStats h))) = total (getStats h)
  /\ sum_list (map snd (bySeverity (getStats h))) = total (getStats h)
  /\ total (getStats h) = length (errorLog h)
  /\ recent (getStats h) = slice_last 5 (errorLog h).
Proof.
  unfold getStats, getErrorsByType. cbn [byType bySeverity total recent].
  destruct (tally_spec pe_type (errorLog h) []) as [Ht1 Ht2].
  destruct (tally_spec pe_severity (errorLog h) []) as [Hs1 Hs2].
  cbn zeta in *.
  split; [intros type; rewrite Ht1; reflexivity |].
  split; [intros severity; rewrite Hs1; reflexivity |].
  split; [rewrite Ht2; reflexivity |].
  split; [rewrite Hs2; reflexivity |].
  split; reflexivity.
Qed.

End ErrorLogFacts.

(** ** The camera: granted requests and switching *)

Module CameraFacts.
Import JS ErrorHandler CameraUtils CameraSwitch.

(** The stream that [stopCamera] stops, if any. *)
Local Abbreviation held c :=
  (match currentStream c with Some old => [old] | None => [] end).

(** X13: a request that the browser grants replaces the stream: the
    tracks of the stream held before are stopped, the new stream is
    stored and not stopped, the state is ACTIVE, nothing is logged, and
    the listeners are told REQUESTING, the stop of the old stream,
    INACTIVE, the start of the new stream and ACTIVE, in this order. *)
Theorem requestCameraAccess_granted
    (b : browser) (v : env) (o : options) (c : t) (h : ErrorHandler.t)
    (s : stream) :
  hasGetUserMedia b = true ->
  getUserMedia b = Resolves s ->
  let '(r, c', h') := requestCameraAccess b v o c h in
  r = Returns s
  /\ currentStream c' = Some s
  /\ streamState c' = ACTIVE
  /\ stopped c' = stopped c ++ held c
  /\ currentConstraints c' = Some (buildConstraints o c)
  /\ permissionState c' = match query b with
                          | QueryResolves p => p
                          | _ => UNKNOWN
                          end
  /\ h' = h
  /\ notified c'
     = notified c ++ [stateChange REQUESTING]
       ++ map streamStop (held c)
       ++ [stateChange INACTIVE; streamStart s; stateChange ACTIVE].
Proof.
  intros Hgum Hres. unfold requestCameraAccess. rewrite Hgum, Hres.
  cbn [negb]. unfold stopCamera, checkPermissionState.
  destruct c as [cur st perm cons sup stp ntf].
  destruct cur as [old |], (query b) as [| p |]; cbn;
    rewrite <- ?app_assoc; repeat split; try reflexivity;
    rewrite ?app_nil_r; reflexivity.
Qed.

(** X13, witness: a browser that grants stream 2 while stream 1 is held. *)
Lemma requestCameraAccess_granted_witness :
  let b := {| hasGetUserMedia := true; getUserMedia := Resolves 2%nat;
              query := QueryResolves GRANTED |} in
  let c := set_currentStream (Some 1%nat) Samples.idleCamera in
  let '(r, c', h') :=
    requestCameraAccess b Samples.someEnv noOptions c ErrorHandler.empty in
  r = Returns 2%nat
  /\ currentStream c' = Some 2%nat
  /\ streamState c' = ACTIVE
  /\ stopped c' = [1%nat]
  /\ currentConstraints c' = Some (buildConstraints noOptions c)
  /\ permissionState c' = GRANTED
  /\ h' = ErrorHandler.empty
  /\ notified c'
     = [stateChange REQUESTING; streamStop 1%nat; stateChange INACTIVE;
        streamStart 2%nat; stateChange ACTIVE].
Proof.
  exact (requestCameraAccess_granted
           {| hasGetUserMedia := true; getUserMedia := Resolves 2%nat;
              query := QueryResolves GRANTED |}
           Samples.someEnv noOptions
           (set_currentStream (Some 1%nat) Samples.idleCamera)
           ErrorHandler.empty 2%nat eq_refl eq_refl).
Defined.

(** What the [catch] block of [requestCameraAccess] logs and throws. *)
Lemma requestCameraAccess_catch_spec (v : env) (e : error) (c : t)
    (h : ErrorHandler.t) :
  exists thrown p,
    requestCameraAccess_catch v e c h
    = (Throws thrown,
       notifyListeners (stateChange ERROR) (set_streamState ERROR c),
       logError p h)
    /\ ErrorHandler.name thrown = "Error"
    /\ pe_message p = ErrorHandler.message e
    /\ ((named e "NotAllowedError" "PermissionDeniedError" = true
         /\ pe_type p = PERMISSION_ERROR /\ pe_severity p = CRITICAL
         /\ ErrorHandler.message thrown
            = "Camera permission denied. Please allow camera access to use AR features.")
        \/ (named e "NotAllowedError" "PermissionDeniedError" = false
            /\ pe_type p = CAMERA_ERROR /\ pe_severity p = HIGH)).
Proof.
  unfold requestCameraAccess_catch.
  destruct (named e "NotAllowedError" "PermissionDeniedError") eqn:E1.
  { eexists. eexists. split; [reflexivity |]. cbn. auto 10. }
  repeat match goal with
         | |- context [if ?b then _ else _] => destruct b
         end;
    (eexists; eexists; split; [reflexivity |]; cbn; auto 10).
Qed.

(** X14: requestCameraAccess ends in exactly two ways.  It returns a
    stream only when the browser granted one, and then the state is
    ACTIVE, the stream is stored and nothing is logged; otherwise it
    throws a plain Error, the state is ERROR, the stream held before is
    neither dropped nor stopped, and exactly one error is logged, with
    the browser's message: as PERMISSION_ERROR of severity CRITICAL when
    the browser's error is named NotAllowedError or
    PermissionDeniedError, as CAMERA_ERROR of severity HIGH in every
    other case. *)
Theorem requestCameraAccess_outcome
    (b : browser) (v : env) (o : options) (c : t) (h : ErrorHandler.t) :
  let '(r, c', h') := requestCameraAccess b v o c h in
  match r with
  | Returns s =>
      hasGetUserMedia b = true /\ getUserMedia b = Resolves s
      /\ streamState c' = ACTIVE /\ currentStream c' = Some s /\ h' = h
  | Throws thrown =>
      ErrorHandler.name thrown = "Error"
      /\ streamState c' = ERROR
      /\ currentStream c' = currentStream c
      /\ stopped c' = stopped c
      /\ exists p,
           h' = logError p h
           /\ last (errorLog h') = Some p
           /\ ((pe_type p = PERMISSION_ERROR /\ pe_severity p = CRITICAL)
               \/ (pe_type p = CAMERA_ERROR /\ pe_severity p = HIGH))
           /\ (pe_type p = PERMISSION_ERROR
               <-> exists e, hasGetUserMedia b = true
                             /\ getUserMedia b = Rejects e
                             /\ pe_message p = ErrorHandler.message e
                             /\ (ErrorHandler.name e = "NotAllowedError"
                                 \/ ErrorHandler.name e = "PermissionDeniedError"))
  end.
Proof.
  assert (Hnamed : forall e a b',
            named e a b' = true
            <-> ErrorHandler.name e = a \/ ErrorHandler.name e = b').
  { intros e a b'. unfold named. rewrite orb_true_iff, !String.eqb_eq. tauto. }
  unfold requestCameraAccess.
  destruct (hasGetUserMedia b) eqn:Hgum; cbn [negb].
  - destruct (getUserMedia b) as [s | e] eqn:Hres.
    + unfold stopCamera, checkPermissionState.
      destruct c as [cur st perm cons sup stp ntf].
      destruct cur as [old |], (query b) as [| p |]; cbn; auto.
    + match goal with
      | |- context [requestCameraAccess_catch v e ?x h] =>
          destruct (requestCameraAccess_catch_spec v e x h)
            as (thrown & p & -> & Hname & Hmsg & Hty)
      end.
      cbn [streamState currentStream stopped notifyListeners set_streamState
           set_currentConstraints].
      repeat split; auto. exists p. split; [reflexivity |].
      split; [apply ErrorHandlerFacts.logError_last |].
      split; [destruct Hty as [(_ & ? & ? & _) | (_ & ? & ?)]; auto |].
      split.
      * intros Hp. destruct Hty as [(Hn & _) | (_ & Hc & _)];
          [| rewrite Hc in Hp; discriminate].
        exists e. repeat split; auto. apply Hnamed, Hn.
      * intros (e' & _ & [= <-] & _ & Hn).
        destruct Hty as [(_ & Hp & _) | (Hf & _)]; [exact Hp |].
        apply Hnamed in Hn. congruence.
  - match goal with
    | |- context [requestCameraAccess_catch v ?e ?x h] =>
        destruct (requestCameraAccess_catch_spec v e x h)
          as (thrown & p & -> & Hname & Hmsg & Hty)
    end.
    cbn [streamState currentStream stopped notifyListeners set_streamState].
    repeat split; auto. exists p. split; [reflexivity |].
    split; [apply ErrorHandlerFacts.logError_last |].
    split; [destruct Hty as [(_ & ? & ? & _) | (_ & ? & ?)]; auto |].
    split.
    + intros Hp. destruct Hty as [(Hn & _) | (_ & Hc & _)];
        [discriminate Hn | rewrite Hc in Hp; discriminate].
    + intros (e' & Hx & _). discriminate Hx.
Qed.

(** X15: where the facingMode constraint is not supported, switchCamera
    throws "Camera switching not supported on this device" and logs it
    as a CAMERA_ERROR under the context camera_switch; the browser is not
    asked for a stream and the camera state is left untouched: the
    stream held is kept, and no listener is told anything. *)
Theorem switchCamera_unsupported
    (b : browser) (v1 v2 : env) (facingMode : option string) (c : t)
    (h : ErrorHandler.t) :
  s_facingMode (supportedConstraints c) = false ->
  let '(r, c', h') := switchCamera b v1 v2 facingMode c h in
  r = Throws (PlainError "Error" "Camera switching not supported on this device")
  /\ c' = c
  /\ exists p, h' = logError p h
               /\ pe_type p = CAMERA_ERROR /\ pe_severity p = HIGH
               /\ pe_message p = "Camera switching not supported on this device"
               /\ In ("context", Str "camera_switch") (pe_context p).
Proof.
  intros Hsup. unfold switchCamera. rewrite Hsup. cbn [negb].
  cbn. repeat split. eexists. split; [reflexivity |]. cbn. auto 10.
Qed.

(** X15, witness: a camera whose browser does not support facingMode. *)
Lemma switchCamera_unsupported_witness :
  let c := {| currentStream := Some 1%nat; streamState := ACTIVE;
              permissionState := GRANTED; currentConstraints := None;
              supportedConstraints :=
                {| s_facingMode := false; s_focusMode := false;
                   s_exposureMode := false |};
              stopped := []; notified := [] |} in
  let '(r, c', h') :=
    switchCamera (Samples.deniedBrowser "no") Samples.someEnv Samples.someEnv
      (Some "user") c ErrorHandler.empty in
  r = Throws (PlainError "Error" "Camera switching not supported on this device")
  /\ c' = c
  /\ exists p, h' = logError p ErrorHandler.empty
               /\ pe_type p = CAMERA_ERROR /\ pe_severity p = HIGH
               /\ pe_message p = "Camera switching not supported on this device"
               /\ In ("context", Str "camera_switch") (pe_context p).
Proof.
  exact (switchCamera_unsupported (Samples.deniedBrowser "no") Samples.someEnv
           Samples.someEnv (Some "user")
           {| currentStream := Some 1%nat; streamState := ACTIVE;
              permissionState := GRANTED; currentConstraints := None;
              supportedConstraints :=
                {| s_facingMode := false; s_focusMode := false;
                   s_exposureMode := false |};
              stopped := []; notified := [] |}
           ErrorHandler.empty eq_refl).
Defined.

(** X16: the width and height that switchCamera copies from the current
    constraints have no effect: the option arOptimized it sets
    overrides them, so that where facingMode is supported the
    constraints it requests are always 640x480 ideal (at most 1280x720)
    at 30 frames per second with the facing mode asked for (environment
    by default, also for the empty string), whatever the current
    constraints are. *)
Theorem switchCamera_constraints
    (b : browser) (v1 v2 : env) (facingMode : option string) (c : t)
    (h : ErrorHandler.t) :
  s_facingMode (supportedConstraints c) = true ->
  hasGetUserMedia b = true ->
  let '(_, c', _) := switchCamera b v1 v2 facingMode c h in
  currentConstraints c'
  = Some {| c_video :=
              {| width := {| ideal := Some 640; max := Some 1280 |};
                 height := {| ideal := Some 480; max := Some 720 |};
                 frameRate := {| ideal := Some 30; max := None |};
                 facingMode :=
                   Some (match facingMode with
                         | Some f => if String.eqb f "" then "environment" else f
                         | None => "environment"
                         end);
                 focusMode := if s_focusMode (supportedConstraints c)
                              then Some "continuous" else None;
                 exposureMode := if s_exposureMode (supportedConstraints c)
                                 then Some "continuous" else None |};
            c_audio := false |}.
Proof.
  intros Hsup Hgum. unfold switchCamera. rewrite Hsup. cbn [negb].
  unfold requestCameraAccess. rewrite Hgum. cbn [negb].
  set (opts := {| o_facingMode := _ |}).
  assert (Hb : forall c0, supportedConstraints c0 = supportedConstraints c ->
            buildConstraints opts c0
            = {| c_video :=
              {| width := {| ideal := Some 640; max := Some 1280 |};
                 height := {| ideal := Some 480; max := Some 720 |};
                 frameRate := {| ideal := Some 30; max := None |};
                 facingMode :=
                   Some (match facingMode with
                         | Some f => if String.eqb f "" then "environment" else f
                         | None => "environment"
                         end);
                 focusMode := if s_focusMode (supportedConstraints c)
                              then Some "continuous" else None;
                 exposureMode := if s_exposureMode (supportedConstraints c)
                                 then Some "continuous" else None |};
            c_audio := false |}).
  { intros c0 E. unfold buildConstraints, opts. rewrite E, Hsup.
    cbn [o_facingMode o_arOptimized given_str].
    destruct facingMode as [f |]; cbn [from_option];
      [destruct (String.eqb f "") eqn:Ef; cbn; rewrite ?Ef |]; reflexivity. }
  rewrite Hb by reflexivity.
  destruct (getUserMedia b) as [s | e].
  - unfold stopCamera, checkPermissionState.
    destruct c as [cur st perm cons sup stp ntf].
    destruct cur as [old |], (query b) as [| p |]; reflexivity.
  - match goal with
    | |- context [requestCameraAccess_catch v1 e ?x h] =>
        destruct (requestCameraAccess_catch_spec v1 e x h)
          as (thrown & p & -> & _)
    end.
    reflexivity.
Qed.

(** X16, witness: current constraints of 1920x1080 at 60 frames per second. *)
Lemma switchCamera_constraints_witness :
  let b := {| hasGetUserMedia := true; getUserMedia := Resolves 2%nat;
              query := NoPermissionsAPI |} in
  let c := set_currentConstraints
             {| c_video :=
                  {| width := {| ideal := Some 1920; max := None |};
                     height := {| ideal := Some 1080; max := None |};
                     frameRate := {| ideal := Some 60; max := None |};
                     facingMode := Some "environment"; focusMode := None;
                     exposureMode := None |};
                c_audio := false |} Samples.idleCamera in
  let '(_, c', _) :=
    switchCamera b Samples.someEnv Samples.someEnv (Some "user") c
      ErrorHandler.empty in
  currentConstraints c'
  = Some {| c_video :=
              {| width := {| ideal := Some 640; max := Some 1280 |};
                 height := {| ideal := Some 480; max := Some 720 |};
                 frameRate := {| ideal := Some 30; max := None |};
                 facingMode := Some "user"; focusMode := None;
                 exposureMode := None |};
            c_audio := false |}.
Proof.
  exact (switchCamera_constraints
           {| hasGetUserMedia := true; getUserMedia := Resolves 2%nat;
              query := NoPermissionsAPI |}
           Samples.someEnv Samples.someEnv (Some "user")
           (set_currentConstraints
              {| c_video :=
                   {| width := {| ideal := Some 1920; max := None |};
                      height := {| ideal := Some 1080; max := None |};
                      frameRate := {| ideal := Some 60; max := None |};
                      facingMode := Some "environment"; focusMode := None;
                      exposureMode := None |};
                 c_audio := false |} Samples.idleCamera)
           ErrorHandler.empty eq_refl eq_refl).
Defined.

(** X17: a switch that the browser refuses is logged twice: first by
    requestCameraAccess, under the browser's message and as a permission
    or camera error, then by switchCamera, as a CAMERA_ERROR of severity
    HIGH whose message is the readable one that requestCameraAccess
    threw; switchCamera throws that same error on, and the state is
    ERROR with the stream held before still stored. *)
Theorem switchCamera_failure_logged_twice
    (b : browser) (v1 v2 : env) (facingMode : option string) (c : t)
    (h : ErrorHandler.t) (e : error) :
  s_facingMode (supportedConstraints c) = true ->
  hasGetUserMedia b = true ->
  getUserMedia b = Rejects e ->
  let '(r, c', h') := switchCamera b v1 v2 facingMode c h in
  exists thrown p1 p2,
    r = Throws thrown
    /\ h' = logError p2 (logError p1 h)
    /\ pe_message p1 = ErrorHandler.message e
    /\ pe_message p2 = ErrorHandler.message thrown
    /\ pe_type p2 = CAMERA_ERROR /\ pe_severity p2 = HIGH
    /\ In ("context", Str "camera_switch") (pe_context p2)
    /\ (ErrorHandler.name e = "NotAllowedError" ->
        pe_type p1 = PERMISSION_ERROR
        /\ ErrorHandler.message thrown
           = "Camera permission denied. Please allow camera access to use AR features.")
    /\ streamState c' = ERROR
    /\ currentStream c' = currentStream c.
Proof.
  intros Hsup Hgum Hrej. unfold switchCamera. rewrite Hsup. cbn [negb].
  unfold requestCameraAccess. rewrite Hgum, Hrej. cbn [negb].
  match goal with
  | |- context [requestCameraAccess_catch v1 e ?x h] =>
      destruct (requestCameraAccess_catch_spec v1 e x h)
        as (thrown & p & -> & Hname & Hmsg & Hty)
  end.
  exists thrown, p. eexists. split; [reflexivity |].
  split; [reflexivity |]. cbn.
  repeat match goal with |- _ /\ _ => split end; auto.
  intros Hdenied.
  destruct Hty as [(_ & Hp & _ & Hm) | (Hf & _)]; [split; assumption |].
  unfold named in Hf. rewrite Hdenied in Hf. discriminate Hf.
Qed.

(** X17, witness: a browser that refuses the permission. *)
Lemma switchCamera_failure_logged_twice_witness :
  let '(r, c', h') :=
    switchCamera (Samples.deniedBrowser "Permission denied") Samples.someEnv
      Samples.someEnv None Samples.idleCamera ErrorHandler.empty in
  exists thrown p1 p2,
    r = Throws thrown
    /\ h' = logError p2 (logError p1 ErrorHandler.empty)
    /\ pe_message p1 = "Permission denied"
    /\ pe_message p2 = ErrorHandler.message thrown
    /\ pe_type p2 = CAMERA_ERROR /\ pe_severity p2 = HIGH
    /\ In ("context", Str "camera_switch") (pe_context p2)
    /\ ("NotAllowedError" = "NotAllowedError" ->
        pe_type p1 = PERMISSION_ERROR
        /\ ErrorHandler.message thrown
           = "Camera permission denied. Please allow camera access to use AR features.")
    /\ streamState c' = ERROR
    /\ currentStream c' = None.
Proof.
  exact (switchCamera_failure_logged_twice
           (Samples.deniedBrowser "Permission denied") Samples.someEnv
           Samples.someEnv None Samples.idleCamera ErrorHandler.empty
           (PlainError "NotAllowedError" "Permission denied")
           eq_refl eq_refl eq_refl).
Defined.

End CameraFacts.

(** ** The session manager: special interactions, snapshots, statistics *)

Module SessionManagerMore.
Import JS SessionManager SessionQueries SliceFacts SessionManagerFacts.

(** What one call of [trackInteraction] does to the state and the data
    of a started session. *)
Lemma special_congruent (type : string) (d : obj) (now : Z) (a b : t) :
  sessionState a = sessionState b -> data a = data b ->
  sessionState (handleSpecialInteractions type d now a)
  = sessionState (handleSpecialInteractions type d now b)
  /\ data (handleSpecialInteractions type d now a)
     = data (handleSpecialInteractions type d now b).
Proof.
  intros Hs Hd. unfold handleSpecialInteractions. rewrite Hs, Hd.
  destruct (String.eqb type AR_START); [cbn; rewrite ?Hd; auto |].
  destruct (String.eqb type AR_END).
  - destruct (sessionState b) eqn:Eb; cbn; rewrite ?Hd, ?Hs; auto.
  - destruct (String.eqb type ERROR_OCCURRED); cbn; rewrite ?Hd; auto.
Qed.

Lemma trackInteraction_state (id type : string) (d : obj) (now : Z) (s : t) :
  sessionState s <> INACTIVE ->
  let s' := trackInteraction id type d now s in
  sessionState s' = sessionState (handleSpecialInteractions type d now s)
  /\ data s' = data (handleSpecialInteractions type d now s)
  /\ startTime s' = startTime s.
Proof.
  intros Hst. unfold trackInteraction.
  destruct (sessionState s) eqn:E; [contradiction | | | |];
    match goal with
    | |- context [handleSpecialInteractions type d now ?x] =>
        assert (Hx : sessionState x = sessionState s /\ data x = data s
                     /\ startTime x = startTime s)
          by (unfold saveSessionData; cbn;
              destruct (present (localStorage s)), (writable (localStorage s));
              cbn; rewrite ?E; auto);
        destruct Hx as (Hx1 & Hx2 & Hx3);
        destruct (special_congruent type d now x s Hx1 Hx2) as (H1 & H2);
        cbv zeta; rewrite H1, H2; repeat split;
        unfold handleSpecialInteractions;
        destruct (String.eqb type AR_START); [exact Hx3 |];
        destruct (String.eqb type AR_END);
          [destruct (sessionState x); exact Hx3 |];
        destruct (String.eqb type ERROR_OCCURRED); exact Hx3
    end.
Qed.

Lemma special_other (type : string) (d : obj) (now : Z) (s : t) :
  type <> AR_START -> type <> AR_END ->
  sessionState (handleSpecialInteractions type d now s) = sessionState s
  /\ sd_arStartTime (data (handleSpecialInteractions type d now s))
     = sd_arStartTime (data s).
Proof.
  intros H1 H2. unfold handleSpecialInteractions.
  destruct (String.eqb_spec type AR_START); [contradiction |].
  destruct (String.eqb_spec type AR_END); [contradiction |].
  destruct (String.eqb type ERROR_OCCURRED); auto.
Qed.

Lemma trackAll_other (calls : list (string * string * obj * Z)) (s : t) :
  sessionState s <> INACTIVE ->
  Forall (fun c => typeOf c <> AR_START /\ typeOf c <> AR_END) calls ->
  sessionState (trackAll calls s) = sessionState s
  /\ sd_arStartTime (data (trackAll calls s)) = sd_arStartTime (data s).
Proof.
  revert s. induction calls as [| [[[id ty] d] now] calls IH]; intros s Hst Hall;
    [auto |].
  apply Forall_cons in Hall as [[H1 H2] Hall]. cbn in H1, H2.
  cbn [trackAll].
  destruct (trackInteraction_state id ty d now s Hst) as (Hs & Hd & _).
  destruct (special_other ty d now s H1 H2) as (Hs' & Ha').
  destruct (IH (trackInteraction id ty d now s)) as (IH1 & IH2);
    [rewrite Hs, Hs'; exact Hst | exact Hall |].
  rewrite IH1, IH2, Hs, Hd. auto.
Qed.

(** X18: the duration of the AR part of a session is measured from the
    ar_start interaction to the next ar_end: when ar_start is tracked at
    one time and ar_end at a later call, with any interactions of other
    types in between, the state goes to ar_active and back to active and
    arDuration is the difference of the two times; an ar_end tracked
    when AR is not active is recorded but changes neither the state nor
    the session data. *)
Theorem ar_duration_measured
    (s : t) (id1 id2 : string) (d1 d2 : obj) (started ended : Z)
    (calls : list (string * string * obj * Z)) :
  sessionState s <> INACTIVE ->
  Forall (fun c => typeOf c <> AR_START /\ typeOf c <> AR_END) calls ->
  let s1 := trackInteraction id1 AR_START d1 started s in
  let s2 := trackAll calls s1 in
  let s3 := trackInteraction id2 AR_END d2 ended s2 in
  sessionState s1 = AR_ACTIVE
  /\ sessionState s2 = AR_ACTIVE
  /\ sessionState s3 = ACTIVE
  /\ sd_arStartTime (data s3) = Some started
  /\ sd_arEndTime (data s3) = Some ended
  /\ sd_arDuration (data s3) = Some (ended - started)
  /\ (sessionState s <> AR_ACTIVE ->
      let s' := trackInteraction id2 AR_END d2 ended s in
      sessionState s' = sessionState s /\ data s' = data s
      /\ interactions s' = interactions s ++ [newInteraction s id2 AR_END d2 ended]).
Proof.
  intros Hst Hall s1 s2 s3.
  destruct (trackInteraction_state id1 AR_START d1 started s Hst)
    as (Hs1 & Hd1 & _). fold s1 in Hs1, Hd1.
  assert (E1 : sessionState s1 = AR_ACTIVE) by (rewrite Hs1; reflexivity).
  assert (A1 : sd_arStartTime (data s1) = Some started)
    by (rewrite Hd1; reflexivity).
  destruct (trackAll_other calls s1) as (E2 & A2);
    [rewrite E1; discriminate | exact Hall |]. fold s2 in E2, A2.
  rewrite E1 in E2. rewrite A1 in A2.
  destruct (trackInteraction_state id2 AR_END d2 ended s2) as (Hs3 & Hd3 & _);
    [rewrite E2; discriminate |]. fold s3 in Hs3, Hd3.
  split; [exact E1 |]. split; [exact E2 |].
  rewrite Hs3, Hd3. unfold handleSpecialInteractions.
  cbn [String.eqb Ascii.eqb Bool.eqb AR_START AR_END]. rewrite E2.
  cbn. rewrite A2.
  split; [reflexivity |]. split; [reflexivity |]. split; [reflexivity |].
  split; [reflexivity |].
  intros Hnot.
  destruct (trackInteraction_state id2 AR_END d2 ended s Hst) as (Hs & Hd & _).
  destruct (trackInteraction_spec id2 AR_END d2 ended s Hst) as (Hi & _).
  rewrite Hs, Hd, Hi.
  unfold handleSpecialInteractions.
  cbn [String.eqb Ascii.eqb Bool.eqb AR_START AR_END].
  destruct (sessionState s) eqn:Es; try contradiction; auto.
Qed.

(** X18, witness: an AR part of one minute, with three other interactions in between. *)
Lemma ar_duration_measured_witness :
  let s1 := trackInteraction "int_1_a" AR_START [] 1000 Samples.sampleManager in
  let s2 := trackAll (Samples.sampleCalls 3) s1 in
  let s3 := trackInteraction "int_2_a" AR_END [] 61000 s2 in
  sessionState s1 = AR_ACTIVE
  /\ sessionState s3 = ACTIVE
  /\ sd_arDuration (data s3) = Some 60000.
Proof.
  destruct (ar_duration_measured Samples.sampleManager "int_1_a" "int_2_a"
              [] [] 1000 61000 (Samples.sampleCalls 3))
    as (H1 & _ & H3 & _ & _ & Hd & _).
  - discriminate.
  - repeat constructor; discriminate.
  - cbv zeta. split; [exact H1 |]. split; [exact H3 |]. rewrite Hd. reflexivity.
Defined.

(** X19: the snapshot that trackInteraction writes is taken before the
    special handling of the interaction: it holds the new interaction,
    but the session state and the session data from before the call.
    After an ar_start the manager is in state ar_active with an
    arStartTime while the snapshot still has the old state and no new
    arStartTime, and after an error_occurred the snapshot does not have
    the error. *)
Theorem snapshot_precedes_special_handling
    (s : t) (id type : string) (d : obj) (now : Z) :
  sessionState s <> INACTIVE ->
  present (localStorage s) = true ->
  writable (localStorage s) = true ->
  let s' := trackInteraction id type d now s in
  item (localStorage s')
  = Some {| si_sessionData := data s;
            si_interactions :=
              slice_last 50 (interactions s ++ [newInteraction s id type d now]);
            si_sessionState := sessionState s;
            si_lastSaved := now |}
  /\ (type = AR_START ->
      sessionState s' = AR_ACTIVE
      /\ sd_arStartTime (data s') = Some now)
  /\ (type = ERROR_OCCURRED ->
      sd_hasErrors (data s') = true
      /\ sd_errors (data s') = Some (default [] (sd_errors (data s)) ++ [d])).
Proof.
  intros Hst Hp Hw s'.
  destruct (trackInteraction_state id type d now s Hst) as (Hs & Hd & _).
  fold s' in Hs, Hd. split; [| split].
  - unfold s', trackInteraction.
    destruct (sessionState s) eqn:E; [contradiction | | | |];
      match goal with
      | |- context [handleSpecialInteractions ?ty ?d' ?n ?x] =>
          destruct (handleSpecialInteractions_keeps ty d' n x) as (_ & Hl & _);
          rewrite Hl
      end;
      unfold saveSessionData; cbn; rewrite Hp, Hw; cbn; rewrite E; reflexivity.
  - intros ->. rewrite Hs, Hd. split; reflexivity.
  - intros ->. rewrite Hd. split; reflexivity.
Qed.

(** X19, witness: an ar_start tracked by an active manager. *)
Lemma snapshot_precedes_special_handling_witness :
  let s' := trackInteraction "int_1_a" AR_START [] 1000 Samples.sampleManager in
  option_map si_sessionState (item (localStorage s')) = Some ACTIVE
  /\ option_map (fun i => sd_arStartTime (si_sessionData i))
                (item (localStorage s')) = Some None
  /\ sessionState s' = AR_ACTIVE
  /\ sd_arStartTime (data s') = Some 1000.
Proof.
  destruct (snapshot_precedes_special_handling Samples.sampleManager "int_1_a"
              AR_START [] 1000) as (Hitem & Har & _).
  - discriminate.
  - reflexivity.
  - reflexivity.
  - destruct (Har eq_refl) as [H1 H2]. cbv zeta.
    rewrite Hitem. cbn [option_map si_sessionState si_sessionData].
    split; [reflexivity |]. split; [reflexivity |].
    split; [exact H1 | exact H2].
Defined.

(** X20: completed is not a final state.  After endSession the manager
    still tracks: a later interaction is appended, re-arms the
    inactivity timer that endSession had cleared, and an ar_start even
    moves the state from completed to ar_active; when the re-armed timer
    fires, endSession runs again and overwrites the end time. *)
Theorem completed_session_still_tracks
    (s : t) (id type : string) (d : obj) (ended now : Z) :
  sessionState s <> INACTIVE ->
  let s1 := endSession ended s in
  let s2 := trackInteraction id type d now s1 in
  let s3 := elapse (now + sessionTimeout) s2 in
  sessionState s1 = COMPLETED
  /\ timeoutId s1 = None
  /\ interactions s2 = interactions s ++ [newInteraction s id type d now]
  /\ timeoutId s2 = Some (now + 30 * 60 * 1000)
  /\ (type = AR_START -> sessionState s2 = AR_ACTIVE)
  /\ (type <> AR_START -> sessionState s2 = COMPLETED)
  /\ sessionState s3 = COMPLETED
  /\ sd_endTime (data s3) = Some (now + 30 * 60 * 1000).
Proof.
  intros Hst s1 s2 s3.
  assert (H1 : sessionState s1 = COMPLETED /\ timeoutId s1 = None
               /\ interactions s1 = interactions s
               /\ sessionId s1 = sessionId s).
  { unfold s1, endSession, saveSessionData.
    destruct (sessionState s) eqn:E; [contradiction | | | |]; cbn;
      destruct (present (localStorage s)), (writable (localStorage s));
      cbn; auto. }
  destruct H1 as (Hc1 & Ht1 & Hi1 & Hid1).
  assert (Hn1 : sessionState s1 <> INACTIVE) by (rewrite Hc1; discriminate).
  destruct (trackInteraction_spec id type d now s1 Hn1)
    as (Hi2 & Hn2 & _ & Ht2 & _). fold s2 in Hi2, Hn2, Ht2.
  destruct (trackInteraction_state id type d now s1 Hn1) as (Hs2 & _ & _).
  fold s2 in Hs2.
  split; [exact Hc1 |]. split; [exact Ht1 |].
  split; [rewrite Hi2, Hi1; unfold newInteraction; rewrite Hid1; reflexivity |].
  split; [exact Ht2 |].
  split; [intros ->; rewrite Hs2; reflexivity |].
  split.
  - intros Hne. rewrite Hs2. unfold handleSpecialInteractions.
    destruct (String.eqb_spec type AR_START); [contradiction |].
    rewrite Hc1.
    destruct (String.eqb type AR_END), (String.eqb type ERROR_OCCURRED);
      cbn; auto.
  - assert (E3 : s3 = endSession (now + sessionTimeout) s2).
    { unfold s3, elapse. rewrite Ht2.
      destruct (Z.leb_spec (now + sessionTimeout) (now + sessionTimeout));
        [reflexivity | lia]. }
    rewrite E3. unfold endSession, saveSessionData.
    destruct (sessionState s2) eqn:E; [contradiction | | | |]; cbn;
      destruct (present (localStorage s2)), (writable (localStorage s2));
      cbn; auto.
Qed.

(** X20, witness: an ar_start tracked one second after the end. *)
Lemma completed_session_still_tracks_witness :
  let s1 := endSession 5000 Samples.sampleManager in
  let s2 := trackInteraction "int_2_a" AR_START [] 6000 s1 in
  sessionState s1 = COMPLETED
  /\ timeoutId s1 = None
  /\ length (interactions s2) = 2%nat
  /\ timeoutId s2 = Some 1806000
  /\ sessionState s2 = AR_ACTIVE.
Proof.
  destruct (completed_session_still_tracks Samples.sampleManager "int_2_a"
              AR_START [] 5000 6000)
    as (H1 & H2 & H3 & H4 & H5 & _); [discriminate |].
  cbv zeta. split; [exact H1 |]. split; [exact H2 |].
  split; [rewrite H3; reflexivity |]. split; [exact H4 |]. exact (H5 eq_refl).
Defined.

(** X21: a new manager restores the interactions of the snapshot found in
    local storage when it was saved less than 24 hours before, and
    appends its own page visit: it starts with the last 50 interactions
    of the earlier manager, which keep their old session identifier,
    followed by the page visit, at most 51 in all; a snapshot of 24
    hours or more is ignored. *)
Theorem interactions_restored_on_create
    (s : t) (saved : Z) (pg : page) (sid id : string) (now : Z) :
  present (localStorage s) = true ->
  writable (localStorage s) = true ->
  let s' := create (localStorage (saveSessionData saved s)) pg sid id now in
  (now - saved < 24 * 60 * 60 * 1000 ->
   interactions s'
   = slice_last 50 (interactions s) ++ [pageVisit sid id pg now])
  /\ (24 * 60 * 60 * 1000 <= now - saved ->
      interactions s' = [pageVisit sid id pg now])
  /\ (length (interactions s') <= 51)%nat
  /\ sessionState s' = ACTIVE
  /\ sessionId s' = Some sid.
Proof.
  intros Hp Hw s'.
  assert (Hst : localStorage (saveSessionData saved s)
                = {| present := true; writable := true;
                     item := Some {| si_sessionData := data s;
                                     si_interactions :=
                                       slice_last 50 (interactions s);
                                     si_sessionState := sessionState s;
                                     si_lastSaved := saved |} |}).
  { unfold saveSessionData. rewrite Hp, Hw. cbn. rewrite Hp, Hw. reflexivity. }
  unfold s'. rewrite Hst. unfold create, loadSessionData.
  cbn [localStorage present item negb si_lastSaved si_interactions].
  destruct (Z.ltb_spec (now - saved) (24 * (1000 * 60 * 60))) as [Hlt | Hge].
  - match goal with
    | |- context [interactions ?x] =>
        assert (Ei : interactions x
                     = slice_last 50 (interactions s) ++ [pageVisit sid id pg now])
          by reflexivity
    end.
    split; [intros _; exact Ei |]. split; [lia |].
    split; [| split; reflexivity].
    rewrite Ei, length_app, slice_last_length. cbn [length]. lia.
  - split; [lia |]. split; [intros _; reflexivity |].
    split; [cbn; lia | split; reflexivity].
Qed.

(** X21, witness: a manager that tracked sixty interactions, and a new one created right after its snapshot. *)
Lemma interactions_restored_on_create_witness :
  let old := trackAll (Samples.sampleCalls 60) Samples.sampleManager in
  let s' := create (localStorage (saveSessionData 100 old)) Samples.samplePage
              "halloween_ar_200_xyz" "int_200_a" 200 in
  length (interactions s') = 51%nat
  /\ last (interactions s')
     = Some (pageVisit "halloween_ar_200_xyz" "int_200_a" Samples.samplePage 200)
  /\ option_map i_sessionId (head (interactions s'))
     = Some "halloween_ar_0_abc".
Proof.
  destruct (interactions_restored_on_create
              (trackAll (Samples.sampleCalls 60) Samples.sampleManager) 100
              Samples.samplePage "halloween_ar_200_xyz" "int_200_a" 200)
    as (Hi & _); [reflexivity | reflexivity |].
  cbv zeta. rewrite Hi by lia. vm_compute. repeat split.
Defined.

Lemma ownProperty_assign (k k' : string) (v : counter)
    (tally : list (string * counter)) :
  ownProperty k (assign k' v tally)
  = if String.eqb k' k then Some v else ownProperty k tally.
Proof.
  induction tally as [| [k0 v0] tally IH]; cbn; [reflexivity |].
  destruct (String.eqb_spec k0 k') as [-> | Hne]; cbn.
  - destruct (String.eqb k' k); reflexivity.
  - rewrite IH. destruct (String.eqb_spec k0 k) as [-> | Hne'];
      [| reflexivity].
    destruct (String.eqb_spec k' k); [congruence | reflexivity].
Qed.

Lemma numeric_assign (k : string) (v : counter)
    (tally : list (string * counter)) :
  (sum_list (map (fun e => numeric (snd e)) (assign k v tally))
   + match ownProperty k tally with
     | Some old => numeric old
     | None => 0
     end
   = sum_list (map (fun e => numeric (snd e)) tally) + numeric v)%nat.
Proof.
  induction tally as [| [k0 v0] tally IH]; cbn; [lia |].
  destruct (String.eqb k0 k); cbn; lia.
Qed.

Lemma inherited_spec (type : string) :
  existsb (String.eqb type) inheritedNames = true <-> In type inheritedNames.
Proof.
  rewrite existsb_exists. split.
  - intros (x & Hin & Heq). apply String.eqb_eq in Heq. subst. exact Hin.
  - intros Hin. exists type. split; [exact Hin | apply String.eqb_refl].
Qed.

(** The counter of [type] after one more interaction of that type. *)
Lemma ownProperty_count (k type : string) (tally : list (string * counter)) :
  ownProperty k (count type tally)
  = if String.eqb type k then
      match ownProperty type tally with
      | Some (Count n) => Some (Count (S n))
      | Some (Text name ones) => Some (Text name (S ones))
      | None =>
          if existsb (String.eqb type) inheritedNames then
            if String.eqb type "__proto__" then None
            else Some (Text type 1)
          else Some (Count 1)
      end
    else ownProperty k tally.
Proof.
  unfold count.
  destruct (String.eqb_spec type k) as [<- | Hne].
  - destruct (ownProperty type tally) as [[n | name ones] |] eqn:E;
      rewrite ?ownProperty_assign, ?String.eqb_refl; try reflexivity.
    destruct (existsb (String.eqb type) inheritedNames);
      [destruct (String.eqb type "__proto__"); [exact E |] |];
      rewrite ownProperty_assign, String.eqb_refl; reflexivity.
  - assert (Hk : forall v, ownProperty k (assign type v tally)
                           = ownProperty k tally).
    { intros v. rewrite ownProperty_assign.
      destruct (String.eqb_spec type k); [contradiction | reflexivity]. }
    destruct (ownProperty type tally) as [[n | name ones] |];
      rewrite ?Hk; try reflexivity.
    destruct (existsb (String.eqb type) inheritedNames);
      [destruct (String.eqb type "__proto__") |];
      rewrite ?Hk; reflexivity.
Qed.

(** The numbers among the counters after one more interaction. *)
Lemma numeric_count (type : string) (tally : list (string * counter)) :
  sum_list (map (fun e => numeric (snd e)) (count type tally))
  = (sum_list (map (fun e => numeric (snd e)) tally)
     + match ownProperty type tally with
       | Some (Count _) => 1
       | Some (Text _ _) => 0
       | None => if existsb (String.eqb type) inheritedNames then 0 else 1
       end)%nat.
Proof.
  unfold count.
  destruct (ownProperty type tally) as [[n | name ones] |] eqn:E.
  - pose proof (numeric_assign type (Count (S n)) tally) as H.
    rewrite E in H. cbn [numeric] in H. lia.
  - pose proof (numeric_assign type (Text name (S ones)) tally) as H.
    rewrite E in H. cbn [numeric] in H. lia.
  - destruct (existsb (String.eqb type) inheritedNames).
    + destruct (String.eqb type "__proto__"); [lia |].
      pose proof (numeric_assign type (Text type 1) tally) as H.
      rewrite E in H. cbn [numeric] in H. lia.
    + pose proof (numeric_assign type (Count 1) tally) as H.
      rewrite E in H. cbn [numeric] in H. lia.
Qed.

Lemma counterAfter_S (made : nat -> counter) (n : nat) :
  counterAfter made (n + 1) = Some (made (S n)).
Proof. rewrite Nat.add_1_r. reflexivity. Qed.

(** What the counting loop leaves for each name, and what its numbers
    add up to. *)
Lemma interactionTypes_spec (l : list interaction) :
  let tally := fold_left (fun tally i => count (i_type i) tally) l [] in
  (forall k,
      ownProperty k tally
      = if existsb (String.eqb k) inheritedNames
        then if String.eqb k "__proto__" then None
             else counterAfter (Text k)
                    (length (filter (fun i => i_type i = k) l))
        else counterAfter Count (length (filter (fun i => i_type i = k) l)))
  /\ sum_list (map (fun e => numeric (snd e)) tally)
     = length (filter (fun i => ~ In (i_type i) inheritedNames) l).
Proof.
  induction l as [| i l IH] using rev_ind; [split; [intros k |] |].
  - destruct (existsb (String.eqb k) inheritedNames);
      [destruct (String.eqb k "__proto__") |]; reflexivity.
  - reflexivity.
  - rewrite fold_left_app. cbn [fold_left]. cbv zeta in IH.
    set (tally := fold_left (fun tally i0 => count (i_type i0) tally) l [])
      in *.
    destruct IH as [IH1 IH2]. cbv zeta. split.
    + intros k.
      rewrite ownProperty_count, (filter_app (fun i0 => i_type i0 = k)),
        length_app.
      destruct (String.eqb_spec (i_type i) k) as [Heq | Hne].
      * rewrite (filter_cons_True (fun i0 => i_type i0 = k)) by exact Heq.
        cbn [filter list_filter length]. subst k. rewrite (IH1 (i_type i)).
        destruct (existsb (String.eqb (i_type i)) inheritedNames).
        -- destruct (String.eqb (i_type i) "__proto__"); [reflexivity |].
           rewrite counterAfter_S.
           destruct (length (filter (fun i0 => i_type i0 = i_type i) l));
             reflexivity.
        -- rewrite counterAfter_S.
           destruct (length (filter (fun i0 => i_type i0 = i_type i) l));
             reflexivity.
      * rewrite (filter_cons_False (fun i0 => i_type i0 = k)) by exact Hne.
        cbn [filter list_filter length]. rewrite Nat.add_0_r. apply IH1.
    + rewrite numeric_count, IH2,
        (filter_app (fun i0 => ~ In (i_type i0) inheritedNames)), length_app.
      f_equal. rewrite (IH1 (i_type i)).
      destruct (existsb (String.eqb (i_type i)) inheritedNames) eqn:Ei.
      * apply inherited_spec in Ei.
        rewrite (filter_cons_False
                   (fun i0 => ~ In (i_type i0) inheritedNames)) by tauto.
        destruct (String.eqb (i_type i) "__proto__"); [reflexivity |].
        destruct (length (filter (fun i0 => i_type i0 = i_type i) l));
          reflexivity.
      * assert (Hn : ~ In (i_type i) inheritedNames).
        { intros Hin. apply inherited_spec in Hin. congruence. }
        rewrite (filter_cons_True
                   (fun i0 => ~ In (i_type i0) inheritedNames)) by exact Hn.
        destruct (length (filter (fun i0 => i_type i0 = i_type i) l));
          reflexivity.
Qed.

Lemma not_inherited_all (l : list interaction) :
  Forall (fun i => ~ In (i_type i) inheritedNames) l ->
  filter (fun i => ~ In (i_type i) inheritedNames) l = l.
Proof.
  induction 1 as [| i l Hi Hl IH]; [reflexivity |].
  rewrite (filter_cons_True (fun i0 => ~ In (i_type i0) inheritedNames))
    by exact Hi.
  f_equal. exact IH.
Qed.

(** X22: getSessionStats counts the types in a plain object.  For a
    type that is not a name inherited from Object.prototype, the counter
    is the number of interactions that getInteractionsByType returns for
    it (no counter when there is none); for an inherited name such as
    constructor or toString the counter is not a number but a string,
    and __proto__ never gets a counter.  The numbers among the counters
    add up to the number of interactions whose type is not an inherited
    name, hence to interactionCount when no interaction has such a
    type. *)
Theorem getSessionStats_counts (now : Z) (s : t) :
  let tally := st_interactionTypes (getSessionStats now s) in
  (forall type, ~ In type inheritedNames ->
      ownProperty type tally
      = counterAfter Count (length (getInteractionsByType type s)))
  /\ (forall type, In type inheritedNames -> type <> "__proto__" ->
        ownProperty type tally
        = counterAfter (Text type) (length (getInteractionsByType type s)))
  /\ ownProperty "__proto__" tally = None
  /\ sum_list (map (fun e => numeric (snd e)) tally)
     = length (filter (fun i => ~ In (i_type i) inheritedNames)
                      (interactions s))
  /\ (Forall (fun i => ~ In (i_type i) inheritedNames) (interactions s) ->
      sum_list (map (fun e => numeric (snd e)) tally)
      = st_interactionCount (getSessionStats now s))
  /\ st_interactionCount (getSessionStats now s) = length (interactions s).
Proof.
  unfold getSessionStats, getInteractionsByType.
  cbn [st_interactionTypes st_interactionCount].
  destruct (interactionTypes_spec (interactions s)) as [H1 H2].
  cbv zeta in *. split; [| split; [| split; [| split; [| split]]]].
  - intros type Hn. rewrite H1.
    destruct (existsb (String.eqb type) inheritedNames) eqn:E;
      [| reflexivity].
    apply inherited_spec in E. contradiction.
  - intros type Hin Hp. rewrite H1.
    apply inherited_spec in Hin. rewrite Hin.
    destruct (String.eqb_spec type "__proto__"); [contradiction | reflexivity].
  - rewrite H1. reflexivity.
  - exact H2.
  - intros Hall. rewrite H2. f_equal. apply not_inherited_all, Hall.
  - reflexivity.
Qed.

(** X22, witness: a manager that holds its page visit tracks a scan, two
    interactions of the type constructor and one of the type __proto__:
    the scan and the page visit are counted by numbers, constructor by a
    string, __proto__ not at all, and the numbers add up to 2 of the 5
    interactions. *)
Lemma getSessionStats_counts_witness :
  let s := trackAll [("int_1_a", "constructor", [], 10);
                     ("int_2_a", QR_SCAN, [], 20);
                     ("int_3_a", "constructor", [], 30);
                     ("int_4_a", "__proto__", [], 40)]
                    Samples.sampleManager in
  let tally := st_interactionTypes (getSessionStats 50 s) in
  ownProperty QR_SCAN tally = Some (Count 1)
  /\ ownProperty "constructor" tally = Some (Text "constructor" 2)
  /\ ownProperty "__proto__" tally = None
  /\ sum_list (map (fun e => numeric (snd e)) tally) = 2%nat
  /\ st_interactionCount (getSessionStats 50 s) = 5%nat.
Proof.
  cbv zeta.
  destruct (getSessionStats_counts 50
              (trackAll [("int_1_a", "constructor", [], 10);
                         ("int_2_a", QR_SCAN, [], 20);
                         ("int_3_a", "constructor", [], 30);
                         ("int_4_a", "__proto__", [], 40)]
                        Samples.sampleManager))
    as (Hnum & Htext & Hproto & Hsum & _ & Hcount).
  split; [rewrite (Hnum QR_SCAN); [reflexivity | vm_compute; intuition discriminate] |].
  split; [rewrite (Htext "constructor");
          [reflexivity | vm_compute; tauto | discriminate] |].
  split; [exact Hproto |].
  split; [rewrite Hsum | rewrite Hcount]; reflexivity.
Defined.

Lemma trackInteraction_errors (id type : string) (d : obj) (now : Z) (s : t) :
  sessionState s <> INACTIVE ->
  let s' := trackInteraction id type d now s in
  default [] (sd_errors (data s'))
  = default [] (sd_errors (data s))
    ++ (if String.eqb type ERROR_OCCURRED then [d] else [])
  /\ sd_hasErrors (data s')
     = sd_hasErrors (data s) || String.eqb type ERROR_OCCURRED.
Proof.
  intros Hst s'.
  destruct (trackInteraction_state id type d now s Hst) as (_ & Hd & _).
  fold s' in Hd. rewrite Hd. unfold handleSpecialInteractions.
  destruct (String.eqb_spec type AR_START) as [-> | H1];
    [cbn; rewrite app_nil_r, orb_false_r; auto |].
  destruct (String.eqb_spec type AR_END) as [-> | H2].
  { destruct (sessionState s); cbn; rewrite app_nil_r, orb_false_r; auto. }
  destruct (String.eqb type ERROR_OCCURRED); cbn;
    rewrite ?app_nil_r, ?orb_false_r, ?orb_true_r; auto.
Qed.

(** X23: the errors kept in the session data are exactly the data of the
    error_occurred interactions tracked, in the order of the calls:
    errors grows by one entry for each of them and by nothing else, and
    hasErrors is set as soon as there is one and never reset. *)
Theorem errors_accumulate
    (calls : list (string * string * obj * Z)) (s : t) :
  sessionState s <> INACTIVE ->
  let s' := trackAll calls s in
  default [] (sd_errors (data s'))
  = default [] (sd_errors (data s))
    ++ map dataOf (filter (fun c => typeOf c = ERROR_OCCURRED) calls)
  /\ sd_hasErrors (data s')
     = sd_hasErrors (data s)
       || existsb (fun c => String.eqb (typeOf c) ERROR_OCCURRED) calls.
Proof.
  revert s. induction calls as [| [[[id ty] d] now] calls IH]; intros s Hst.
  - cbn. rewrite app_nil_r, orb_false_r. auto.
  - cbn [trackAll].
    destruct (trackInteraction_errors id ty d now s Hst) as (He & Hh).
    destruct (trackInteraction_spec id ty d now s Hst) as (_ & Hn & _).
    destruct (IH _ Hn) as (IHe & IHh). cbv zeta. rewrite IHe, IHh, He, Hh.
    cbn [existsb typeOf]. rewrite <- app_assoc, orb_assoc. split; [| reflexivity].
    f_equal. destruct (String.eqb_spec ty ERROR_OCCURRED) as [Heq | Hne].
    + rewrite (filter_cons_True (fun c => typeOf c = ERROR_OCCURRED))
        by exact Heq. reflexivity.
    + rewrite (filter_cons_False (fun c => typeOf c = ERROR_OCCURRED))
        by exact Hne. reflexivity.
Qed.

(** X23, witness: two errors with a scan in between. *)
Lemma errors_accumulate_witness :
  let s' := trackAll [("int_1_a", ERROR_OCCURRED,
                       [("message", ErrorHandler.Str "first")], 10);
                      ("int_2_a", QR_SCAN, [], 20);
                      ("int_3_a", ERROR_OCCURRED,
                       [("message", ErrorHandler.Str "second")], 30)]
              Samples.sampleManager in
  sd_errors (data s')
  = Some [[("message", ErrorHandler.Str "first")];
          [("message", ErrorHandler.Str "second")]]
  /\ sd_hasErrors (data s') = true.
Proof.
  destruct (errors_accumulate
              [("int_1_a", ERROR_OCCURRED,
                [("message", ErrorHandler.Str "first")], 10);
               ("int_2_a", QR_SCAN, [], 20);
               ("int_3_a", ERROR_OCCURRED,
                [("message", ErrorHandler.Str "second")], 30)]
              Samples.sampleManager) as (He & Hh); [discriminate |].
  cbv zeta. split; [vm_compute; reflexivity | rewrite Hh; reflexivity].
Defined.

End SessionManagerMore.

(** ** The QR endpoint: responses and the size estimate *)

Module QrCodeRequestsFacts.
Import JS QrCodeApi QrCodeRequests.

Section Handler.

Variable QRCode_toString QRCode_toBuffer : string -> config -> encoded.
Variable generateETag : string -> config -> string.
Variable development : bool.
Variable generationTime : Z.

Local Abbreviation handler :=
  (handler QRCode_toString QRCode_toBuffer generateETag development
           generationTime).
Local Abbreviation generate :=
  (generate QRCode_toString QRCode_toBuffer generateETag development
            generationTime).
Local Abbreviation encoderAnswer :=
  (encoderAnswer QRCode_toString QRCode_toBuffer).

Lemma handler_catch_spec (message : string) (calls : list call) :
  let p := handler_catch development message calls in
  headers p = cors /\ encoderCalls p = calls
  /\ status p = (if includes message "Input too long" || includes message "Invalid"
                 then 400 else 500)%nat
  /\ (includes message "Input too long" || includes message "Invalid" = false ->
      sent p = Json [("error", JStr "QR code generation failed");
                     ("message", JStr (if development then message
                                       else "Internal server error"))]).
Proof.
  unfold handler_catch.
  destruct (includes message "Input too long"); [cbn; repeat split; discriminate |].
  destruct (includes message "Invalid"); cbn; repeat split; discriminate.
Qed.

(** What [generate] answers: a refusal without any call of the encoder
    when a check fails, else what the encoder's answer leads to. *)
Lemma generate_spec (qrData : string) (k : custom) :
  let ok := content_ok qrData
            && negb (truthy (width (merge k))
                     && (lt (width (merge k)) (Int 64)
                         || gt (width (merge k)) (Int 2048)))
            && level_ok (merge k) in
  let svg := String.eqb (type (merge k)) "svg" in
  let c := if svg then toString qrData (merge k)
           else toBuffer qrData (merge k) in
  let answer := if svg then QRCode_toString qrData (merge k)
                else QRCode_toBuffer qrData (merge k) in
  if ok then
    match answer with
    | Encoded bytes =>
        status (generate qrData k) = 200%nat
        /\ sent (generate qrData k) = Image bytes
        /\ encoderCalls (generate qrData k) = [c]
        /\ (exists rest, headers (generate qrData k) = cors ++ rest)
        /\ In ("Content-Type", if svg then "image/svg+xml" else "image/png")
              (headers (generate qrData k))
    | Failed message =>
        generate qrData k = handler_catch development message [c]
    end
  else
    status (generate qrData k) = 400%nat
    /\ encoderCalls (generate qrData k) = []
    /\ headers (generate qrData k) = cors.
Proof.
  cbv zeta. unfold content_ok, level_ok, QrCodeApi.generate.
  destruct (String.eqb qrData ""); cbn [negb andb]; [repeat split |].
  destruct (startsWith qrData "http" && negb (URL_PATTERN_test qrData));
    cbn [negb andb]; [repeat split |].
  destruct (MAX_URL_LENGTH <? String.length qrData)%nat;
    cbn [negb andb]; [repeat split |].
  destruct (truthy (width (merge k))
            && (lt (width (merge k)) (Int 64) || gt (width (merge k)) (Int 2048)));
    cbn [negb andb]; [repeat split |].
  destruct (String.eqb (errorCorrectionLevel (merge k)) "") eqn:E1;
    cbn [negb andb orb].
  - destruct (String.eqb (type (merge k)) "svg").
    + destruct (QRCode_toString qrData (merge k)); [| reflexivity].
      cbn. repeat split; [eexists; reflexivity | auto 10].
    + destruct (QRCode_toBuffer qrData (merge k)); [| reflexivity].
      cbn. repeat split; [eexists; reflexivity | auto 10].
  - destruct (existsb (String.eqb (errorCorrectionLevel (merge k)))
                      ["L"; "M"; "Q"; "H"]); cbn [negb]; [| repeat split].
    destruct (String.eqb (type (merge k)) "svg").
    + destruct (QRCode_toString qrData (merge k)); [| reflexivity].
      cbn. repeat split; [eexists; reflexivity | auto 10].
    + destruct (QRCode_toBuffer qrData (merge k)); [| reflexivity].
      cbn. repeat split; [eexists; reflexivity | auto 10].
Qed.

(** The same for [handler]. *)
Lemma handler_spec (r : request) :
  if passesChecks r then
    match encoderAnswer r with
    | Encoded bytes =>
        status (handler r) = 200%nat
        /\ sent (handler r) = Image bytes
        /\ encoderCalls (handler r) = [encoderCall r]
        /\ (exists rest, headers (handler r) = cors ++ rest)
        /\ In ("Content-Type",
               if String.eqb (type (config_of r)) "svg"
               then "image/svg+xml" else "image/png")
              (headers (handler r))
    | Failed message =>
        handler r = handler_catch development message [encoderCall r]
    end
  else
    (status (handler r) = 200%nat /\ method r = "OPTIONS"
     \/ status (handler r) = 400%nat
     \/ status (handler r) = 405%nat)
    /\ encoderCalls (handler r) = []
    /\ headers (handler r) = cors.
Proof.
  unfold passesChecks, QrCodeRequests.encoderAnswer, encoderCall, content_of,
    config_of, QrCodeApi.handler.
  destruct (String.eqb_spec (method r) "OPTIONS") as [Ho | Ho].
  { cbn. auto. }
  destruct (String.eqb (method r) "GET") eqn:Eg.
  - pose proof (generate_spec (fst (get_input (rq_query r)))
                  (snd (get_input (rq_query r)))) as H.
    cbv zeta in H. destruct (get_input (rq_query r)) as [qrData k].
    cbn [fst snd] in *.
    match type of H with
    | if ?b then _ else _ => destruct b
    end; [exact H |].
    destruct H as (H1 & H2 & H3). auto.
  - destruct (String.eqb (method r) "POST") eqn:Ep.
    + pose proof (generate_spec (fst (post_input (rq_body r)))
                    (snd (post_input (rq_body r)))) as H.
      cbv zeta in H. destruct (post_input (rq_body r)) as [qrData k].
      cbn [fst snd] in *.
      match type of H with
      | if ?b then _ else _ => destruct b
      end; [exact H |].
      destruct H as (H1 & H2 & H3). auto.
    + cbn. auto.
Qed.

(** X24: every response of the endpoint, whatever the method, the input
    and the encoder's answer, carries the three CORS headers first, and
    its status is 200, 400, 405 or 500; an OPTIONS request is answered
    200 without a body, and a method other than OPTIONS, GET and POST is
    answered 405. *)
Theorem every_response_has_cors (r : request) :
  (exists rest, headers (handler r) = cors ++ rest)
  /\ In (status (handler r)) [200; 400; 405; 500]%nat
  /\ (method r = "OPTIONS" ->
      status (handler r) = 200%nat /\ sent (handler r) = NoBody)
  /\ (method r <> "OPTIONS" -> method r <> "GET" -> method r <> "POST" ->
      status (handler r) = 405%nat).
Proof.
  split; [| split; [| split]].
  - pose proof (handler_spec r) as H.
    destruct (passesChecks r).
    + destruct (encoderAnswer r) as [bytes | message].
      * destruct H as (_ & _ & _ & H & _). exact H.
      * rewrite H. destruct (handler_catch_spec message [encoderCall r])
          as (Hh & _). cbv zeta in Hh. rewrite Hh. exists []. 
        rewrite app_nil_r. reflexivity.
    + destruct H as (_ & _ & H). rewrite H. exists [].
      rewrite app_nil_r. reflexivity.
  - pose proof (handler_spec r) as H.
    destruct (passesChecks r).
    + destruct (encoderAnswer r) as [bytes | message].
      * destruct H as (H & _). rewrite H. cbn. auto.
      * rewrite H. destruct (handler_catch_spec message [encoderCall r])
          as (_ & _ & Hs & _). cbv zeta in Hs. rewrite Hs.
        destruct (includes message "Input too long" || includes message "Invalid");
          cbn; auto.
    + destruct H as ([[H _] | [H | H]] & _); rewrite H; cbn; auto.
  - intros Hm. unfold QrCodeApi.handler. rewrite Hm. cbn. auto.
  - intros Ho Hg Hp. unfold QrCodeApi.handler.
    destruct (String.eqb_spec (method r) "OPTIONS"); [contradiction |].
    destruct (String.eqb_spec (method r) "GET"); [contradiction |].
    destruct (String.eqb_spec (method r) "POST"); [contradiction |].
    reflexivity.
Qed.

(** X25: the encoder is called at most once for a request, and exactly
    when the request passes every check: a GET or POST whose content is
    present, well formed when it starts with http and at most 2048
    characters long, whose width is falsy or within 64..2048 and whose
    error-correction level is empty or one of L, M, Q, H; the call is then
    made on that content with the merged configuration, by toString for
    the type svg and by toBuffer for any other. *)
Theorem encoder_called_iff_checks_pass (r : request) :
  encoderCalls (handler r) = (if passesChecks r then [encoderCall r] else [])
  /\ (passesChecks r = true -> method r = "GET" \/ method r = "POST")
  /\ (status (handler r) = 200%nat ->
      method r = "OPTIONS"
      \/ exists bytes, encoderAnswer r = Encoded bytes
                       /\ sent (handler r) = Image bytes).
Proof.
  pose proof (handler_spec r) as H. split; [| split].
  - destruct (passesChecks r).
    + destruct (encoderAnswer r) as [bytes | message].
      * destruct H as (_ & _ & H & _). exact H.
      * rewrite H. destruct (handler_catch_spec message [encoderCall r])
          as (_ & Hc & _). exact Hc.
    + destruct H as (_ & H & _). exact H.
  - clear H. unfold passesChecks, content_of, content_ok.
    destruct (String.eqb_spec (method r) "OPTIONS"); [discriminate |].
    destruct (String.eqb_spec (method r) "GET"); [auto |].
    destruct (String.eqb_spec (method r) "POST"); [auto | discriminate].
  - intros Hs. destruct (passesChecks r).
    + destruct (encoderAnswer r) as [bytes | message].
      * right. exists bytes. destruct H as (_ & H & _). auto.
      * exfalso. rewrite H in Hs.
        destruct (handler_catch_spec message [encoderCall r])
          as (_ & _ & Hst & _). cbv zeta in Hst. rewrite Hst in Hs.
        destruct (includes message "Input too long" || includes message "Invalid");
          discriminate Hs.
    + destruct H as ([[_ H] | [H | H]] & _); [auto | |]; rewrite H in Hs;
        discriminate Hs.
Qed.

(** X26: when the encoder throws, the answer depends on its message: 400
    "Data too long for QR code" when the message contains "Input too
    long", 400 "Invalid QR code data" with the message when it contains
    "Invalid", and 500 "QR code generation failed" otherwise; outside
    development the body of the 500 says "Internal server error" and
    not the encoder's message. *)
Theorem encoder_failure_answers (r : request) (message : string) :
  passesChecks r = true ->
  encoderAnswer r = Failed message ->
  status (handler r)
  = (if includes message "Input too long" || includes message "Invalid"
     then 400 else 500)%nat
  /\ (includes message "Input too long" = true ->
      sent (handler r)
      = Json [("error", JStr "Data too long for QR code");
              ("message", JStr
                 "Reduce the amount of data or use a lower error correction level")])
  /\ (includes message "Input too long" = false ->
      includes message "Invalid" = true ->
      sent (handler r) = Json [("error", JStr "Invalid QR code data");
                               ("message", JStr message)])
  /\ (includes message "Input too long" = false ->
      includes message "Invalid" = false ->
      sent (handler r)
      = Json [("error", JStr "QR code generation failed");
              ("message", JStr (if development then message
                                else "Internal server error"))])
  /\ encoderCalls (handler r) = [encoderCall r].
Proof.
  intros Hok Hans. pose proof (handler_spec r) as H.
  rewrite Hok, Hans in H. rewrite H. unfold handler_catch.
  destruct (includes message "Input too long");
    [cbn; repeat split; intros; try discriminate; reflexivity |].
  destruct (includes message "Invalid");
    cbn; repeat split; intros; try discriminate; reflexivity.
Qed.

End Handler.

(** X26, witness: an encoder that throws on every input. *)
Lemma encoder_failure_answers_witness :
  let failing := fun (_ : string) (_ : config) => Failed "out of memory" in
  let r := Samples.getRequest
             {| q_data := Some "hello"; q_url := None; q_size := None;
                q_format := None; q_errorLevel := None |} in
  status (QrCodeApi.handler failing failing Samples.stubETag false 0 r)
  = 500%nat
  /\ sent (QrCodeApi.handler failing failing Samples.stubETag false 0 r)
     = Json [("error", JStr "QR code generation failed");
             ("message", JStr "Internal server error")].
Proof.
  destruct (encoder_failure_answers
              (fun _ _ => Failed "out of memory")
              (fun _ _ => Failed "out of memory") Samples.stubETag false 0
              (Samples.getRequest
                 {| q_data := Some "hello"; q_url := None; q_size := None;
                    q_format := None; q_errorLevel := None |})
              "out of memory") as (Hs & _ & _ & Hb & _).
  - reflexivity.
  - reflexivity.
  - cbv zeta. split; [exact Hs |]. apply Hb; reflexivity.
Defined.

Lemma capacityOf_le (v : nat) : (v <= 40 -> capacityOf v <= 960)%nat.
Proof.
  intros Hv. unfold capacityOf.
  change 960%nat with (3 * 40 * 40 / 5)%nat.
  apply Nat.Div0.div_le_mono. nia.
Qed.

(** The loop, started at a version with its capacity: where it stops,
    every version passed had a capacity too small, and with enough fuel
    it stops at version 40 or at a capacity that holds the data. *)
Lemma estimate_spec (fuel n v c : nat) :
  let r := estimate fuel n v c in
  (v <= r)%nat
  /\ ((v <= 40)%nat -> (r <= 40)%nat)
  /\ (r <> v ->
      (c < n)%nat /\ forall w, (v < w < r)%nat -> (capacityOf w < n)%nat)
  /\ ((40 <= fuel + v)%nat -> (v <= 40)%nat ->
      r = 40%nat \/ (r = v /\ (n <= c)%nat)
      \/ (r <> v /\ (n <= capacityOf r)%nat)).
Proof.
  revert v c. induction fuel as [| f IH]; intros v c; cbn [estimate].
  - cbv zeta. repeat split; intros; lia.
  - destruct (Nat.ltb_spec c n) as [Hc | Hc]; cbn [andb].
    + destruct (Nat.ltb_spec v 40) as [Hv | Hv].
      * specialize (IH (S v) (capacityOf (S v))). cbv zeta in IH.
        set (r := estimate f n (S v) (capacityOf (S v))) in *.
        destruct IH as (Ha & Hb & Hm & Hf).
        split; [lia |]. split; [lia |]. split.
        -- intros _. split; [exact Hc |]. intros w Hw.
           destruct (Nat.eq_dec r (S v)) as [E | E]; [lia |].
           destruct (Hm E) as [H1 H2].
           destruct (Nat.eq_dec w (S v)) as [-> | Hne]; [exact H1 |].
           apply H2. lia.
        -- intros H40 Hv40.
           destruct (Hf ltac:(lia) ltac:(lia))
             as [Hf0 | [[Hf1 Hf2] | [Hf1 Hf2]]];
             [lia | right; right; split; [lia | rewrite Hf1; exact Hf2]
             | right; right; split; [lia | exact Hf2]].
      * cbv zeta. repeat split; intros; lia.
    + cbv zeta. repeat split; intros; lia.
Qed.

(** X27: getQRCodeInfo never says that a QR code cannot be generated:
    canGenerate is true for every string, however long, because the loop
    stops at version 40.  The estimated version is 1 for up to 25
    characters; beyond that it is the least version from 7 to 40 whose
    capacity, three fifths of the square of the version rounded down,
    holds the data, so that the versions 2 to 6 are never estimated; and
    it is 40 for every string of more than 960 characters. *)
Theorem getQRCodeInfo_always_can_generate (data : string) :
  let i := getQRCodeInfo data in
  let n := String.length data in
  canGenerate i = true
  /\ (1 <= estimatedVersion i <= 40)%nat
  /\ (estimatedVersion i = 1%nat <-> (n <= 25)%nat)
  /\ ~ (2 <= estimatedVersion i <= 6)%nat
  /\ ((25 < n)%nat -> (n <= 960)%nat ->
      (n <= capacityOf (estimatedVersion i))%nat
      /\ forall v, (2 <= v < estimatedVersion i)%nat -> (capacityOf v < n)%nat)
  /\ ((960 < n)%nat -> estimatedVersion i = 40%nat)
  /\ recommendedErrorLevel i = (if (100 <? n)%nat then "M" else "H")
  /\ recommendedSize i = (if (200 <? n)%nat then 768 else 512)%nat.
Proof.
  cbv zeta. unfold getQRCodeInfo.
  cbn [canGenerate estimatedVersion recommendedErrorLevel recommendedSize].
  set (n := String.length data).
  pose proof (estimate_spec 40 n 1 25) as H. cbv zeta in H.
  set (r := estimate 40 n 1 25) in *.
  destruct H as (Hlo & Hhi & Hmin & Hstop).
  specialize (Hhi ltac:(lia)). specialize (Hstop ltac:(lia) ltac:(lia)).
  rewrite (Nat.min_l r 40) by exact Hhi.
  assert (Hsmall : forall w, (2 <= w <= 6)%nat -> (capacityOf w <= 21)%nat).
  { intros w Hw.
    assert (Hc : w = 2%nat \/ w = 3%nat \/ w = 4%nat \/ w = 5%nat \/ w = 6%nat)
      by lia.
    destruct Hc as [-> | [-> | [-> | [-> | ->]]]]; vm_compute; lia. }
  assert (H40 : capacityOf 40 = 960%nat) by reflexivity.
  assert (Hcap : (capacityOf r <= 960)%nat) by (apply capacityOf_le, Hhi).
  split; [apply Nat.leb_le, Hhi |]. split; [lia |].
  split; [| split; [| split; [| split; [| split; reflexivity]]]].
  - split.
    + intros E. destruct Hstop as [Hs | [[_ Hs] | [Hs _]]]; lia.
    + intros Hn. destruct (Nat.eq_dec r 1%nat) as [E | E]; [exact E |].
      destruct (Hmin E) as [Hc _]. lia.
  - intros Hr. destruct (Hmin ltac:(lia)) as [Hc _].
    specialize (Hsmall r Hr).
    destruct Hstop as [Hs | [[Hs _] | [_ Hs]]]; lia.
  - intros Hn1 Hn2.
    assert (Hr : r <> 1%nat).
    { intros E. destruct Hstop as [Hs | [[_ Hs] | [Hs _]]]; lia. }
    destruct (Hmin Hr) as [_ Hall]. split.
    + destruct Hstop as [Hs | [[Hs _] | [_ Hs]]]; [rewrite Hs; lia | lia | exact Hs].
    + intros v Hv. apply Hall. lia.
  - intros Hn. destruct Hstop as [Hs | [[_ Hs] | [_ Hs]]]; lia.
Qed.

End QrCodeRequestsFacts.

(** ** The AR session: what ends it and what it reports *)

Module ARSessionTracesFacts.
Import ARSession ARSessionTraces ARSessionFacts.

Lemma setScene_twice (a b : option arState) (s : t) :
  setScene a (setScene b s) = setScene a s.
Proof. destruct s; reflexivity. Qed.

(** The tree in full course is the tree after the camera was granted,
    with the scene initialised and running. *)
Lemma tracking_spec (auto : bool)
    (mount loaded started granted ready began : Z) (c : stream) :
  tracking auto mount loaded started granted ready began c
  = setScene (Some {| initialized := true; running := true;
                      markerVisible := false; ar_error := None |})
      (after (run (starting auto loaded started) (mounted auto mount))
             (granted, CameraGranted c)).
Proof.
  unfold tracking.
  destruct (camera_granted auto mount loaded started granted c)
    as (_ & Hr & Hsc & Hcs & _).
  rewrite (mindar_initialized ready _ c Hr Hsc Hcs).
  rewrite (mindar_started began _ (setScene_rested _ _ _ Hr Hsc) eq_refl).
  apply setScene_twice.
Qed.

(** X28: the first marker that is detected ends the session.  In the
    active phase with MindAR running, handleMarkerFound builds a new
    statistics object, which changes the identity of endSession and so
    the dependencies of the effect "Cleanup on unmount"; its cleanup
    runs with the phase active it had captured and calls endSession, and
    so does the cleanup of the next render.  The commits after the
    detection are in phase active, then idle: the camera handler is
    unmounted, the tracks of the stream are stopped, markerDetected is
    false again, and the duration of the session has been added to
    totalSessionTime twice; a component that starts by itself then
    requests the camera again. *)
Theorem marker_detection_ends_session
    (auto : bool) (mount loaded started granted ready began found : Z)
    (c : stream) :
  let s := tracking auto mount loaded started granted ready began c in
  let s' := after s (found, MarkerFound) in
  ph (session s) = active
  /\ cameraStream s = Some c
  /\ map (fun x => ph (session x)) (step s (found, MarkerFound))
     = [active; idle; if auto then requesting_camera else idle]
  /\ cameraStream s' = None
  /\ scene s' = None
  /\ stoppedTracks s' = [c]
  /\ markerDetected (session s') = false
  /\ markerDetections (stats (session s')) = 1%nat
  /\ totalSessionTime (stats (session s'))
     = 0 + (found - startedAt auto loaded started)
       + (found - startedAt auto loaded started).
Proof.
  cbv zeta. rewrite tracking_spec.
  destruct auto; vm_compute; repeat split.
Qed.

(** X29: ending a session counts its duration twice.  When end() is
    called in the active phase (by the page or by the end-session
    button), endSession adds the duration to totalSessionTime, and the
    cleanup of the effect "Cleanup on unmount", which runs because the
    phase changed and still holds the phase active, calls endSession
    once more; the stream is stopped once.  A component with autoStart
    does not stay idle: its auto-start effect starts a new session in
    the same round of renders. *)
Theorem end_counts_duration_twice
    (auto : bool) (mount loaded started granted ready began ended : Z)
    (c : stream) :
  let s := tracking auto mount loaded started granted ready began c in
  let s' := after s (ended, End) in
  map (fun x => ph (session x)) (step s (ended, End))
  = [idle; if auto then requesting_camera else idle]
  /\ totalSessionTime (stats (session s'))
     = 0 + (ended - startedAt auto loaded started)
       + (ended - startedAt auto loaded started)
  /\ stoppedTracks s' = [c]
  /\ cameraStream s' = None
  /\ startTime (session s')
     = Some (if auto then ended else startedAt auto loaded started).
Proof.
  cbv zeta. rewrite tracking_spec.
  destruct auto; vm_compute; repeat split.
Qed.

(** Once started, the tree requests the camera: the camera handler is
    mounted and holds no stream yet. *)
Lemma requesting (auto : bool) (mount loaded started : Z) :
  let s := run (starting auto loaded started) (mounted auto mount) in
  ph (session s) = requesting_camera
  /\ camera s = Some {| status := cam_idle; streamRef := None |}.
Proof. destruct auto; vm_compute; split; reflexivity. Qed.

(** X30: the permission-denied text of handleCameraError is never shown.
    CameraHandler reports a refused permission through
    onPermissionDenied with the error alone, so that handleCameraError,
    which serves both callbacks, sees no error type: whatever the name of
    the browser's error, NotAllowedError included, the session error is
    "Camera error: " followed by the browser's message.  The phase is
    error and stays so, the camera handler is unmounted, the error is
    counted once and handed to onError once. *)
Theorem camera_refusal_message
    (auto : bool) (mount loaded started refused : Z) (name message : string) :
  let s := run (starting auto loaded started) (mounted auto mount) in
  let s' := after s (refused, CameraRefused name message) in
  map (fun x => ph (session x)) (step s (refused, CameraRefused name message))
  = [error]
  /\ err (session s') = Some ("Camera error: " +:+ message)
  /\ err (session s')
     <> Some "Camera permission denied. Please allow camera access and try again."
  /\ camera s' = None
  /\ cameraStream s' = None
  /\ reported s' = ["Camera error: " +:+ message]
  /\ errorCount (stats (session s')) = 1%nat.
Proof.
  cbv zeta.
  assert (H : forall st,
     let s0 := setCamera (Some {| status := st; streamRef := None |})
                 (run (starting auto loaded started) (mounted auto mount)) in
     let steps := settle renders refused
                    (handleSessionError ("Camera error: " +:+ message) s0) in
     map (fun x => ph (session x)) steps = [error]
     /\ err (session (List.last steps s0)) = Some ("Camera error: " +:+ message)
     /\ camera (List.last steps s0) = None
     /\ cameraStream (List.last steps s0) = None
     /\ reported (List.last steps s0) = ["Camera error: " +:+ message]
     /\ errorCount (stats (session (List.last steps s0))) = 1%nat).
  { intros st. destruct auto, st; vm_compute; repeat split. }
  destruct (requesting auto mount loaded started) as [_ Hcam].
  assert (E : step (run (starting auto loaded started) (mounted auto mount))
                (refused, CameraRefused name message)
              = settle renders refused
                  (handleSessionError ("Camera error: " +:+ message)
                     (setCamera
                        (Some {| status :=
                                   if String.eqb (errorType name) "permission_denied"
                                   then cam_denied else cam_error;
                                 streamRef := None |})
                        (run (starting auto loaded started) (mounted auto mount))))).
  { unfold step. cbn [fst snd handle]. rewrite Hcam. cbn [streamRef].
    unfold handleCameraError.
    destruct (String.eqb (errorType name) "permission_denied") eqn:Ed;
      [reflexivity |].
    cbn [from_option]. unfold Datatypes.id. rewrite Ed. reflexivity. }
  specialize (H (if String.eqb (errorType name) "permission_denied"
                 then cam_denied else cam_error)).
  cbv zeta in H. destruct H as (H1 & H2 & H3 & H4 & H5 & H6).
  unfold after. rewrite E.
  assert (L : forall d,
            List.last (settle renders refused
              (handleSessionError ("Camera error: " +:+ message)
                (setCamera
                   (Some {| status :=
                              if String.eqb (errorType name) "permission_denied"
                              then cam_denied else cam_error;
                            streamRef := None |})
                   (run (starting auto loaded started) (mounted auto mount))))) d
            = List.last (settle renders refused
              (handleSessionError ("Camera error: " +:+ message)
                (setCamera
                   (Some {| status :=
                              if String.eqb (errorType name) "permission_denied"
                              then cam_denied else cam_error;
                            streamRef := None |})
                   (run (starting auto loaded started) (mounted auto mount)))))
                (setCamera
                   (Some {| status :=
                              if String.eqb (errorType name) "permission_denied"
                              then cam_denied else cam_error;
                            streamRef := None |})
                   (run (starting auto loaded started) (mounted auto mount)))).
  { intros d.
    destruct (settle renders refused _) as [| x l] eqn:Es;
      [discriminate H1 |].
    clear. revert x. induction l as [| y l IH]; intros x; [reflexivity |].
    cbn [List.last]. apply IH. }
  rewrite L, H2, H3, H4, H5, H6.
  repeat split; try assumption. intros [= Habs].
Qed.

End ARSessionTracesFacts.
